(** * gee2: keyword extraction, canned responses, chart data and the in-memory store

    A shallow embedding of the server side of the location chat demo:
    [extractParameters], [generateResponse] and [generateVisualizationData]
    (the routes module) and [MemStorage] (the storage module), with the
    properties the specification states about them; then the methods of
    [MemStorage] that iterate, the route handlers with [parseInt], and the
    two client handlers that send user input, with what the code itself
    shows about them.

    Conventions of the embedding.
    - A JavaScript string is the list of its UTF-16 code units ([jsstring]).
    - [new Date().getFullYear()] is an input of [extractParameters] (the
      argument [now]); [new Date()] in the store is an input of each create.
    - JavaScript numbers used as ids are integers of [Z]; the chart values
      are binary64 floats.
    - An [async] function is the function of the store state it reads.
    - [Runtime] holds the three functions of the routes module a second
      time, over values of any type, with the operations that can throw,
      the clock and the store as the world of a call; the first
      definitions are shown to be these on strings. *)

From Stdlib Require Import NArith ZArith Lia List Ascii String Bool.
From Stdlib Require Import DecimalString DecimalPos PrimFloat Sorted.
From stdpp Require Import gmap list strings.
Import ListNotations.

Set Warnings "-inexact-float,-register-all".
Local Open Scope N_scope.

(** ** JavaScript strings *)

Module JsString.

(** A string value: its UTF-16 code units, in order. *)
Definition jsstring := list N.

(** Source text is UTF-8; a literal of the program is the UTF-16 form of
    the characters between its quotes. *)
Fixpoint utf16_of_utf8 (bs : list N) : jsstring :=
  match bs with
  | [] => []
  | b0 :: r0 =>
    if b0 <? 128 then b0 :: utf16_of_utf8 r0
    else match r0 with
    | [] => []
    | b1 :: r1 =>
      if b0 <? 224 then ((b0 - 192) * 64 + (b1 - 128)) :: utf16_of_utf8 r1
      else match r1 with
      | [] => []
      | b2 :: r2 =>
        if b0 <? 240
        then ((b0 - 224) * 4096 + (b1 - 128) * 64 + (b2 - 128)) :: utf16_of_utf8 r2
        else match r2 with
        | [] => []
        | b3 :: r3 =>
          let cp := (b0 - 240) * 262144 + (b1 - 128) * 4096
                    + (b2 - 128) * 64 + (b3 - 128) - 65536 in
          (55296 + cp / 1024) :: (56320 + cp mod 1024) :: utf16_of_utf8 r3
        end
      end
    end
  end.

(** A string literal of the source. *)
Definition js (s : string) : jsstring :=
  utf16_of_utf8 (map N_of_ascii (list_ascii_of_string s)).

(** The text of a template literal. A template literal is delimited by
    backquotes, so its text holds none; in the embedding a backquote inside
    the text stands for the double quote (code unit 34) of the source. *)
Definition template (s : string) : jsstring :=
  map (fun u => if u =? 96 then 34 else u) (js s).

Fixpoint jsstring_eqb (s t : jsstring) : bool :=
  match s, t with
  | [], [] => true
  | a :: s', b :: t' => (a =? b) && jsstring_eqb s' t'
  | _, _ => false
  end.

(** [ToBoolean] of a string: the empty string is the only falsy one. *)
Definition truthy (s : jsstring) : bool :=
  match s with [] => false | _ :: _ => true end.

(** [a || b] where [a] is a string or undefined. *)
Definition or_else (a : option jsstring) (b : jsstring) : jsstring :=
  match a with
  | Some s => if truthy s then s else b
  | None => b
  end.

(** [String.prototype.toLowerCase], code unit by code unit. The mapping is
    the Unicode one on the Latin-1 range and on the two characters outside
    it whose lower case holds a basic Latin letter (U+0130 and U+212A).
    The other code units are kept: their lower case holds no basic Latin
    letter either, so a search for a basic Latin keyword cannot tell. *)
Definition lower_unit (u : N) : list N :=
  if (65 <=? u) && (u <=? 90) then [u + 32]
  else if (192 <=? u) && (u <=? 222) && negb (u =? 215) then [u + 32]
  else if u =? 304 then [105; 775]
  else if u =? 8490 then [107]
  else [u].

Definition toLowerCase (s : jsstring) : jsstring := flat_map lower_unit s.

Fixpoint startsWith (s k : jsstring) {struct k} : bool :=
  match k, s with
  | [], _ => true
  | a :: k', b :: s' => (a =? b) && startsWith s' k'
  | _ :: _, [] => false
  end.

(** [String.prototype.includes]: [k] occurs in [s] at some position. *)
Fixpoint includes (s k : jsstring) : bool :=
  match s with
  | [] => startsWith [] k
  | _ :: s' => startsWith s k || includes s' k
  end.

(** [Array.prototype.includes] on an array of strings. *)
Definition array_includes (l : list jsstring) (k : jsstring) : bool :=
  existsb (fun x => jsstring_eqb x k) l.

(** [Number.prototype.toString] of an integer: decimal digits, with a
    minus sign when negative. *)
Definition Number_toString (z : Z) : jsstring :=
  js (NilZero.string_of_int (Z.to_int z)).

End JsString.
Import JsString.

(** ** Regular expressions

    The backtracking matcher of the language definition: a matcher takes
    the state of the match and a continuation, and answers with the final
    state or with failure. Only the operators the program uses are here. *)

Module RegExp.

Record MatchState := {
  rest : jsstring;                      (* the input from the end index on *)
  captures : list (option jsstring)     (* group n at index n - 1 *)
}.

Definition Continuation := MatchState -> option MatchState.
Definition Matcher := MatchState -> Continuation -> option MatchState.

(** [\d] and [\s] (white space and line terminators), without the u flag. *)
Definition is_digit (u : N) : bool := (48 <=? u) && (u <=? 57).

Definition is_space (u : N) : bool :=
  ((9 <=? u) && (u <=? 13)) || (u =? 32) || (u =? 160) || (u =? 5760)
  || ((8192 <=? u) && (u <=? 8202)) || (u =? 8232) || (u =? 8233)
  || (u =? 8239) || (u =? 8287) || (u =? 12288) || (u =? 65279).

Definition Empty : Matcher := fun x c => c x.

(** One code unit of a class. *)
Definition CharSet (p : N -> bool) : Matcher := fun x c =>
  match rest x with
  | u :: r => if p u then c {| rest := r; captures := captures x |} else None
  | [] => None
  end.

Definition Seq (m1 m2 : Matcher) : Matcher := fun x c =>
  m1 x (fun y => m2 y c).

(** [m1|m2]: the second alternative is tried when the first, with all that
    follows it, fails. *)
Definition Alt (m1 m2 : Matcher) : Matcher := fun x c =>
  match m1 x c with
  | Some z => Some z
  | None => m2 x c
  end.

(** [m?], greedy. *)
Definition Opt (m : Matcher) : Matcher := Alt m Empty.

(** [m{n}]. *)
Fixpoint Repeat (n : nat) (m : Matcher) : Matcher :=
  match n with
  | O => Empty
  | S n' => Seq m (Repeat n' m)
  end.

(** A literal run of code units. *)
Fixpoint Lit (k : jsstring) : Matcher :=
  match k with
  | [] => Empty
  | a :: k' => Seq (CharSet (N.eqb a)) (Lit k')
  end.

(** [p*] for a class [p], greedy: one more code unit first, fewer when what
    follows fails. *)
Fixpoint star_from (p : N -> bool) (input : jsstring)
    (caps : list (option jsstring)) (c : Continuation) : option MatchState :=
  match input with
  | u :: r =>
    if p u then
      match star_from p r caps c with
      | Some z => Some z
      | None => c {| rest := input; captures := caps |}
      end
    else c {| rest := input; captures := caps |}
  | [] => c {| rest := []; captures := caps |}
  end.

Definition Star (p : N -> bool) : Matcher := fun x c =>
  star_from p (rest x) (captures x) c.

(** What a match consumed between two states of the same input. *)
Definition consumed (before after : jsstring) : jsstring :=
  take (length before - length after)%nat before.

(** [(m)] as capture group [n]. *)
Definition Group (n : nat) (m : Matcher) : Matcher := fun x c =>
  m x (fun y =>
    c {| rest := rest y;
         captures := <[pred n := Some (consumed (rest x) (rest y))]> (captures y) |}).

(** [RegExpBuiltinExec] without the g and y flags: the leftmost start
    index at which the pattern matches, from index 0 to the length. *)
Fixpoint exec (m : Matcher) (ngroups : nat) (input : jsstring) : option MatchState :=
  match m {| rest := input; captures := replicate ngroups None |} Some with
  | Some z => Some z
  | None =>
    match input with
    | [] => None
    | _ :: r => exec m ngroups r
    end
  end.

(** [match[n]] for [n >= 1]: the capture, or undefined. *)
Definition group (z : MatchState) (n : nat) : option jsstring :=
  mjoin (captures z !! pred n).

End RegExp.
Import RegExp.

(** ** JSON-like values

    What the program builds with object and array literals and hands to
    the serializer: the chart descriptor. An object is the list of its
    properties in insertion order. *)

Inductive JsValue :=
| JNull
| JString (s : jsstring)
| JNumber (x : float)
| JArray (items : list JsValue)
| JObject (props : list (string * JsValue)).

(** [o.k]: the value of property [k], undefined when [o] has none. *)
Fixpoint lookup_prop (k : string) (props : list (string * JsValue)) : option JsValue :=
  match props with
  | [] => None
  | (k', v) :: ps => if String.eqb k k' then Some v else lookup_prop k ps
  end.

Definition get (v : JsValue) (k : string) : option JsValue :=
  match v with
  | JObject props => lookup_prop k props
  | _ => None
  end.

Definition is_string (v : JsValue) : bool :=
  match v with JString _ => true | _ => false end.

Definition is_number (v : JsValue) : bool :=
  match v with JNumber _ => true | _ => false end.

(** ** The schema: the rows of the three tables and their insert forms

    A [text] column is a string, absent when it may be null; a [jsonb]
    column is any JSON value; a timestamp is a number of milliseconds. *)

Module InsertLocation.
Record t := {
  name : jsstring;
  latitude : option jsstring;
  longitude : option jsstring;
  type : jsstring
}.
End InsertLocation.

Module Location.
Record t := {
  id : Z;
  name : jsstring;
  latitude : option jsstring;
  longitude : option jsstring;
  type : jsstring;
  createdAt : Z
}.
End Location.

Module InsertQuery.
Record t := {
  locationId : Z;
  prompt : jsstring;
  extractedParams : JsValue;
  response : option jsstring;
  visualizationData : JsValue
}.
End InsertQuery.

Module Query.
Record t := {
  id : Z;
  locationId : Z;
  prompt : jsstring;
  extractedParams : JsValue;
  response : option jsstring;
  visualizationData : JsValue;
  createdAt : Z
}.
End Query.

Module InsertConversation.
Record t := {
  locationId : Z;
  sessionId : jsstring
}.
End InsertConversation.

Module Conversation.
Record t := {
  id : Z;
  locationId : Z;
  sessionId : jsstring;
  createdAt : Z
}.
End Conversation.

(** ** The storage module: [MemStorage]

    The three [Map]s and the three counters of the object; a method takes
    the object and returns its result with the object after the call. The
    [date] argument of a create is what [new Date()] gives at the call. *)

Record MemStorage := {
  locations : gmap Z Location.t;
  queries : gmap Z Query.t;
  conversations : gmap Z Conversation.t;
  currentLocationId : Z;
  currentQueryId : Z;
  currentConversationId : Z
}.

(** [constructor()] *)
Definition new_MemStorage : MemStorage :=
  {| locations := ∅; queries := ∅; conversations := ∅;
     currentLocationId := 1; currentQueryId := 1; currentConversationId := 1 |}.

Definition createLocation (date : Z) (insertLocation : InsertLocation.t)
    (this : MemStorage) : Location.t * MemStorage :=
  let id := currentLocationId this in
  let location :=
    {| Location.id := id;
       Location.name := InsertLocation.name insertLocation;
       Location.latitude := InsertLocation.latitude insertLocation;
       Location.longitude := InsertLocation.longitude insertLocation;
       Location.type := InsertLocation.type insertLocation;
       Location.createdAt := date |} in
  (location,
   {| locations := <[id := location]> (locations this);
      queries := queries this;
      conversations := conversations this;
      currentLocationId := (id + 1)%Z;
      currentQueryId := currentQueryId this;
      currentConversationId := currentConversationId this |}).

Definition getLocation (id : Z) (this : MemStorage) : option Location.t :=
  locations this !! id.

Definition createQuery (date : Z) (insertQuery : InsertQuery.t)
    (this : MemStorage) : Query.t * MemStorage :=
  let id := currentQueryId this in
  let query :=
    {| Query.id := id;
       Query.locationId := InsertQuery.locationId insertQuery;
       Query.prompt := InsertQuery.prompt insertQuery;
       Query.extractedParams := InsertQuery.extractedParams insertQuery;
       Query.response := InsertQuery.response insertQuery;
       Query.visualizationData := InsertQuery.visualizationData insertQuery;
       Query.createdAt := date |} in
  (query,
   {| locations := locations this;
      queries := <[id := query]> (queries this);
      conversations := conversations this;
      currentLocationId := currentLocationId this;
      currentQueryId := (id + 1)%Z;
      currentConversationId := currentConversationId this |}).

Definition getQuery (id : Z) (this : MemStorage) : option Query.t :=
  queries this !! id.

Definition createConversation (date : Z) (insertConversation : InsertConversation.t)
    (this : MemStorage) : Conversation.t * MemStorage :=
  let id := currentConversationId this in
  let conversation :=
    {| Conversation.id := id;
       Conversation.locationId := InsertConversation.locationId insertConversation;
       Conversation.sessionId := InsertConversation.sessionId insertConversation;
       Conversation.createdAt := date |} in
  (conversation,
   {| locations := locations this;
      queries := queries this;
      conversations := <[id := conversation]> (conversations this);
      currentLocationId := currentLocationId this;
      currentQueryId := currentQueryId this;
      currentConversationId := (id + 1)%Z |}).

(** A create call on the store, and what it returned. *)
Inductive call :=
| CreateLocation (date : Z) (insertLocation : InsertLocation.t)
| CreateQuery (date : Z) (insertQuery : InsertQuery.t)
| CreateConversation (date : Z) (insertConversation : InsertConversation.t).

Inductive created :=
| ALocation (l : Location.t)
| AQuery (q : Query.t)
| AConversation (c : Conversation.t).

Definition perform (c : call) (this : MemStorage) : created * MemStorage :=
  match c with
  | CreateLocation d i => let '(l, s) := createLocation d i this in (ALocation l, s)
  | CreateQuery d i => let '(q, s) := createQuery d i this in (AQuery q, s)
  | CreateConversation d i =>
    let '(v, s) := createConversation d i this in (AConversation v, s)
  end.

(** The calls in order: what each returned, and the store at the end. *)
Fixpoint perform_all (cs : list call) (this : MemStorage) : list created * MemStorage :=
  match cs with
  | [] => ([], this)
  | c :: cs' =>
    let '(r, s) := perform c this in
    let '(rs, s') := perform_all cs' s in
    (r :: rs, s')
  end.

(** ** The routes module *)

(** [/(\d{4})\s*(?:to|-)?\s*(\d{4})?/] *)
Definition yearRegExp : Matcher :=
  Seq (Group 1 (Repeat 4 (CharSet is_digit)))
 (Seq (Star is_space)
 (Seq (Opt (Alt (Lit (js "to")) (Lit (js "-"))))
 (Seq (Star is_space)
      (Opt (Group 2 (Repeat 4 (CharSet is_digit))))))).

(** [prompt.match(re)] *)
Definition String_match (s : jsstring) (re : Matcher) (ngroups : nat) : option MatchState :=
  exec re ngroups s.

(** The object [params]: a field is [None] while no assignment gave it a
    value. *)
Record ExtractedParameters := {
  startYear : option jsstring;
  endYear : option jsstring;
  dataTypes : option (list jsstring);
  aggregation : option jsstring;
  timeframe : option jsstring
}.

Definition no_params : ExtractedParameters :=
  {| startYear := None; endYear := None; dataTypes := None;
     aggregation := None; timeframe := None |}.

Definition set_years (s e : option jsstring) (p : ExtractedParameters) :=
  {| startYear := s; endYear := e; dataTypes := dataTypes p;
     aggregation := aggregation p; timeframe := timeframe p |}.

Definition set_dataTypes (l : list jsstring) (p : ExtractedParameters) :=
  {| startYear := startYear p; endYear := endYear p; dataTypes := Some l;
     aggregation := aggregation p; timeframe := timeframe p |}.

Definition set_aggregation (a : jsstring) (p : ExtractedParameters) :=
  {| startYear := startYear p; endYear := endYear p; dataTypes := dataTypes p;
     aggregation := Some a; timeframe := timeframe p |}.

Definition set_timeframe (t : jsstring) (p : ExtractedParameters) :=
  {| startYear := startYear p; endYear := endYear p; dataTypes := dataTypes p;
     aggregation := aggregation p; timeframe := Some t |}.

Definition extractParameters (now : Z) (prompt : jsstring) : ExtractedParameters :=
  let params := no_params in
  (* Extract time periods *)
  let yearMatch := String_match prompt yearRegExp 2 in
  let params :=
    match yearMatch with
    | Some m =>
      set_years (group m 1) (Some (or_else (group m 2) (Number_toString now))) params
    | None => params
    end in
  (* Extract data types *)
  let lower := toLowerCase prompt in
  let params :=
    if includes lower (js "temperature")
    then set_dataTypes [js "temperature"] params else params in
  let params :=
    if includes lower (js "rainfall") || includes lower (js "precipitation")
    then set_dataTypes
           match dataTypes params with
           | Some l => l ++ [js "rainfall"]
           | None => [js "rainfall"]
           end params
    else params in
  let params :=
    if includes lower (js "population")
    then set_dataTypes [js "population"] params else params in
  let params :=
    if includes lower (js "demographics")
    then set_dataTypes [js "demographics"] params else params in
  (* Extract aggregation types *)
  let params :=
    if includes lower (js "average")
    then set_aggregation (js "average") params else params in
  let params :=
    if includes lower (js "monthly")
    then set_timeframe (js "monthly") params else params in
  let params :=
    if includes lower (js "yearly") || includes lower (js "annual")
    then set_timeframe (js "yearly") params else params in
  params.


(** [params.dataTypes?.includes(k)]: undefined, hence falsy, when the
    field is absent. *)
Definition dataTypes_includes (params : ExtractedParameters) (k : jsstring) : bool :=
  match dataTypes params with
  | Some l => array_includes l k
  | None => false
  end.

(** The fixed text of the three template literals of [generateResponse],
    cut at their substitutions. *)

Definition weather_1 : jsstring := template
"
      <div class=`mb-4`>
        <h3 class=`font-semibold mb-2 text-lg`>Weather Analysis for ".

Definition weather_2 : jsstring := template
"</h3>
        <p class=`text-gray-700`>Based on historical data".

Definition weather_3 : jsstring := template
", here's what I found:</p>
      </div>
      <div class=`bg-white border border-gray-200 rounded-lg p-4 mb-4`>
        <div class=`grid grid-cols-2 gap-4 text-sm`>
          <div>
            <div class=`font-medium text-green-600`>Average Temperature</div>
            <div class=`text-2xl font-bold text-gray-900`>58.6°F</div>
            <div class=`text-gray-500`>↑ 2.1°F from historical average</div>
          </div>
          <div>
            <div class=`font-medium text-green-600`>Annual Rainfall</div>
            <div class=`text-2xl font-bold text-gray-900`>23.4 inches</div>
            <div class=`text-gray-500`>↓ 15% from historical average</div>
          </div>
        </div>
      </div>
      <div class=`bg-blue-50 border border-blue-200 rounded-lg p-4`>
        <h4 class=`font-medium mb-2 text-gray-900`>Key Insights:</h4>
        <ul class=`text-sm space-y-1 text-gray-700`>
          <li>• Warmest months: September-October (avg 65°F)</li>
          <li>• Coolest months: December-January (avg 52°F)</li>
          <li>• Driest period: June-August (0.2 inches/month)</li>
          <li>• Wettest period: December-February (6.8 inches/month)</li>
        </ul>
      </div>
    ".

Definition demographics_1 : jsstring := template
"
      <div class=`mb-4`>
        <h3 class=`font-semibold mb-2 text-lg`>Demographics Analysis for ".

Definition demographics_2 : jsstring := template
"</h3>
        <p class=`text-gray-700`>Current population statistics and trends:</p>
      </div>
      <div class=`grid grid-cols-2 gap-4 mb-4`>
        <div class=`bg-white border border-gray-200 rounded-lg p-4`>
          <div class=`font-medium text-green-600`>Total Population</div>
          <div class=`text-2xl font-bold text-gray-900`>874,961</div>
          <div class=`text-gray-500 text-sm`>↓ 6.3% since 2020</div>
        </div>
        <div class=`bg-white border border-gray-200 rounded-lg p-4`>
          <div class=`font-medium text-green-600`>Population Density</div>
          <div class=`text-2xl font-bold text-gray-900`>18,633/mi²</div>
          <div class=`text-gray-500 text-sm`>2nd highest in US</div>
        </div>
      </div>
      <div class=`bg-green-50 border border-green-200 rounded-lg p-4`>
        <h4 class=`font-medium mb-2 text-gray-900`>Age Distribution:</h4>
        <div class=`space-y-2 text-sm text-gray-700`>
          <div class=`flex justify-between`><span>18-34 years:</span><span class=`font-medium`>31.2%</span></div>
          <div class=`flex justify-between`><span>35-54 years:</span><span class=`font-medium`>28.9%</span></div>
          <div class=`flex justify-between`><span>55+ years:</span><span class=`font-medium`>24.1%</span></div>
          <div class=`flex justify-between`><span>Under 18:</span><span class=`font-medium`>15.8%</span></div>
        </div>
      </div>
    ".

Definition generic_1 : jsstring := template
"
    <div class=`mb-4`>
      <h3 class=`font-semibold mb-2 text-lg`>Geographic Analysis for ".

Definition generic_2 : jsstring := template
"</h3>
      <p class=`text-gray-700`>I've analyzed your request: `".

Definition generic_3 : jsstring := template
"`</p>
    </div>
    <div class=`bg-white border border-gray-200 rounded-lg p-4 mb-4`>
      <div class=`text-center text-gray-500`>
        <div class=`text-4xl mb-2`>📊</div>
        <p>Analysis results would appear here based on your specific query.</p>
      </div>
    </div>
    <div class=`bg-yellow-50 border border-yellow-200 rounded-lg p-4`>
      <p class=`text-sm text-gray-700`><strong>Try asking about:</strong> weather patterns, population demographics, economic data, environmental factors, or historical trends for this location.</p>
    </div>
  ".

(** [${params.startYear ? ` from ${params.startYear}` : ''}] and the same
    for [endYear]: the clause is there when the field is a non-empty
    string. *)
Definition clause (word : jsstring) (field : option jsstring) : jsstring :=
  match field with
  | Some y => if truthy y then word ++ y else []
  | None => []
  end.

Definition generateResponse (storage : MemStorage) (prompt : jsstring)
    (params : ExtractedParameters) (locationId : Z) : jsstring :=
  let location := getLocation locationId storage in
  let locationName :=
    or_else (Location.name <$> location) (js "the selected location") in
  if dataTypes_includes params (js "temperature")
     || dataTypes_includes params (js "rainfall")
  then
    weather_1 ++ locationName ++ weather_2
      ++ clause (js " from ") (startYear params)
      ++ clause (js " to ") (endYear params)
      ++ weather_3
  else if dataTypes_includes params (js "population")
          || dataTypes_includes params (js "demographics")
  then demographics_1 ++ locationName ++ demographics_2
  else generic_1 ++ locationName ++ generic_2 ++ prompt ++ generic_3.

Definition months : list JsValue :=
  map (fun m => JString (js m))
    ["Jan"; "Feb"; "Mar"; "Apr"; "May"; "Jun";
     "Jul"; "Aug"; "Sep"; "Oct"; "Nov"; "Dec"]%string.

Definition generateVisualizationData (prompt : jsstring)
    (params : ExtractedParameters) : JsValue :=
  if dataTypes_includes params (js "temperature") then
    JObject [
      ("type", JString (js "line"));
      ("data", JObject [
        ("labels", JArray months);
        ("datasets", JArray [JObject [
          ("label", JString (js "Average Temperature (°F)"));
          ("data", JArray (map JNumber
            [52; 54; 57; 60; 63; 66; 67; 68; 69; 65; 58; 53]%float));
          ("borderColor", JString (js "rgb(16, 163, 127)"));
          ("backgroundColor", JString (js "rgba(16, 163, 127, 0.1)"))
        ]%string])
      ]%string)
    ]%string
  else if dataTypes_includes params (js "rainfall") then
    JObject [
      ("type", JString (js "bar"));
      ("data", JObject [
        ("labels", JArray months);
        ("datasets", JArray [JObject [
          ("label", JString (js "Rainfall (inches)"));
          ("data", JArray (map JNumber
            [4.5; 3.8; 3.2; 1.5; 0.7; 0.2; 0.1; 0.2; 0.4; 1.8; 3.1; 4.2]%float));
          ("backgroundColor", JString (js "rgba(16, 163, 127, 0.8)"))
        ]%string])
      ]%string)
    ]%string
  else JNull.


(** ** Words of the specification

    The notions the statements below use, written from the prose. *)

(** Four code units, each a decimal digit. *)
Definition four_digits (y : jsstring) : Prop :=
  length y = 4%nat /\ forallb is_digit y = true.

(** The text holds four digits in a row somewhere. *)
Definition has_four_digits (s : jsstring) : Prop :=
  exists pre y post, s = pre ++ y ++ post /\ four_digits y.

(** A maximal run of digits that is exactly four digits long: four
    digits with no digit right before them and none right after. *)
Definition run_of_exactly_four_digits (s : jsstring) : Prop :=
  exists pre y post,
    s = pre ++ y ++ post /\ four_digits y /\
    (forall pre' u, pre = pre' ++ [u] -> is_digit u = false) /\
    (forall u post', post = u :: post' -> is_digit u = false).

Definition spaces (ws : jsstring) : Prop := forallb is_space ws = true.

(** What follows the first year is, after optional white space, an
    optional "to" or hyphen and optional white space again, a second run
    of four digits [y2]. *)
Definition second_run (post y2 : jsstring) : Prop :=
  exists ws1 sep ws2 tail,
    post = ws1 ++ sep ++ ws2 ++ y2 ++ tail /\
    spaces ws1 /\ (sep = [] \/ sep = js "to" \/ sep = js "-") /\
    spaces ws2 /\ four_digits y2.

(** [dataTypes] is present and holds the tag [k]. *)
Definition has_tag (params : ExtractedParameters) (k : string) : Prop :=
  exists l, dataTypes params = Some l /\ In (js k) l.

(** The name [generateResponse] puts in its heading. *)
Definition locationName (storage : MemStorage) (locationId : Z) : jsstring :=
  match getLocation locationId storage with
  | Some l => if truthy (Location.name l) then Location.name l
              else js "the selected location"
  | None => js "the selected location"
  end.

(** The year pattern read from left to right, without backtracking: the
    scan the matcher is shown to perform ([exec_yearRegExp] below). *)

Definition digits4 (s : jsstring) : option (jsstring * jsstring) :=
  match s with
  | a :: b :: c :: d :: r =>
    if is_digit a && is_digit b && is_digit c && is_digit d
    then Some ([a; b; c; d], r) else None
  | _ => None
  end.

Fixpoint skip_spaces (s : jsstring) : jsstring :=
  match s with
  | u :: r => if is_space u then skip_spaces r else s
  | [] => []
  end.

Definition skip_sep (s : jsstring) : jsstring :=
  if startsWith s (js "to") then drop 2 s
  else if startsWith s (js "-") then drop 1 s
  else s.

(** After the first year: the state the match ends in. *)
Definition after_year (y post : jsstring) : MatchState :=
  let p := skip_spaces (skip_sep (skip_spaces post)) in
  match digits4 p with
  | Some (y2, r) => {| rest := r; captures := [Some y; Some y2] |}
  | None => {| rest := p; captures := [Some y; None] |}
  end.

Fixpoint find_year (s : jsstring) : option MatchState :=
  match digits4 s with
  | Some (y, post) => Some (after_year y post)
  | None =>
    match s with
    | [] => None
    | _ :: r => find_year r
    end
  end.

(** An array of [n] values that all satisfy [p]. *)
Definition is_array_of (n : nat) (p : JsValue -> bool) (v : JsValue) : Prop :=
  exists items, v = JArray items /\ length items = n /\ forallb p items = true.

(** The chart descriptor as the specification writes it:
    [{ type: "line" | "bar", labels: string[12],
       series: [{ label: string, values: number[12] }] }]. *)
Definition specified_chart_shape (v : JsValue) : Prop :=
  (get v "type" = Some (JString (js "line")) \/
   get v "type" = Some (JString (js "bar"))) /\
  (exists labels, get v "labels" = Some labels /\ is_array_of 12 is_string labels) /\
  (exists s, get v "series" = Some (JArray [s]) /\
     (exists l, get s "label" = Some (JString l)) /\
     (exists vals, get s "values" = Some vals /\ is_array_of 12 is_number vals)).

(** The same content where the program puts it:
    [{ type: "line" | "bar",
       data: { labels: string[12],
               datasets: [{ label: string, data: number[12], ... }] } }]. *)
Definition nested_chart_shape (v : JsValue) : Prop :=
  (get v "type" = Some (JString (js "line")) \/
   get v "type" = Some (JString (js "bar"))) /\
  exists d, get v "data" = Some d /\
    (exists labels, get d "labels" = Some labels /\ is_array_of 12 is_string labels) /\
    (exists s, get d "datasets" = Some (JArray [s]) /\
       (exists l, get s "label" = Some (JString l)) /\
       (exists vals, get s "data" = Some vals /\ is_array_of 12 is_number vals)).

(** The labels and the values of the one series of a descriptor. *)
Definition chart_labels (v : JsValue) : option JsValue :=
  d ← get v "data"; get d "labels".

Definition chart_values (v : JsValue) : option JsValue :=
  d ← get v "data";
  ds ← get d "datasets";
  match ds with
  | JArray [s] => get s "data"
  | _ => None
  end.

(** The three entity kinds of the store, and for a created record: its
    kind, its id, and whether the store returns it for its id. *)
Inductive kind := KLocation | KQuery | KConversation.

Definition kind_eqb (a b : kind) : bool :=
  match a, b with
  | KLocation, KLocation | KQuery, KQuery | KConversation, KConversation => true
  | _, _ => false
  end.

Definition kind_of (r : created) : kind :=
  match r with
  | ALocation _ => KLocation
  | AQuery _ => KQuery
  | AConversation _ => KConversation
  end.

Definition id_of (r : created) : Z :=
  match r with
  | ALocation l => Location.id l
  | AQuery q => Query.id q
  | AConversation c => Conversation.id c
  end.

Definition counter (k : kind) (s : MemStorage) : Z :=
  match k with
  | KLocation => currentLocationId s
  | KQuery => currentQueryId s
  | KConversation => currentConversationId s
  end.

(** Retrieval by id gives the record back: [getLocation] and [getQuery];
    conversations have no method by id, so the entry of their [Map]. *)
Definition retrieved (s : MemStorage) (r : created) : Prop :=
  match r with
  | ALocation l => getLocation (Location.id l) s = Some l
  | AQuery q => getQuery (Query.id q) s = Some q
  | AConversation c => conversations s !! Conversation.id c = Some c
  end.

(** The ids given to the records of one kind, in the order of creation. *)
Definition ids_of_kind (k : kind) (rs : list created) : list Z :=
  map id_of (List.filter (fun r => kind_eqb (kind_of r) k) rs).

(** A continuation that never fails. *)
Definition total (c : Continuation) : Prop := forall x, c x <> None.

(** The store after one location was created. *)
Definition san_francisco_store : MemStorage :=
  snd (createLocation 0
         {| InsertLocation.name := js "San Francisco";
            InsertLocation.latitude := Some (js "37.7749");
            InsertLocation.longitude := Some (js "-122.4194");
            InsertLocation.type := js "manual" |}
         new_MemStorage).

(** ** Keywords

    [prompt.toLowerCase().includes(k)], the test of every keyword check. *)
Definition mentions (prompt : jsstring) (k : string) : bool :=
  includes (toLowerCase prompt) (js k).

(** [k] stands in [s]: between some text before and some text after. *)
Definition occurs_in (k s : jsstring) : Prop :=
  exists pre post, s = pre ++ k ++ post.

(** ** [MemStorage] with the order of its [Map]s

    A [Map] iterates in insertion order, which the finite maps of
    [MemStorage] above do not keep. The methods that iterate
    ([getQueriesByLocation], [getConversationsBySession]) are embedded over
    the same object with each [Map] as the list of its entries in
    insertion order; [forget] gives the object above back. *)

Module JsMap.

Definition t (A : Type) := list (Z * A).

Definition empty {A : Type} : t A := [].

(** [m.get(k)] *)
Fixpoint get {A : Type} (k : Z) (m : t A) : option A :=
  match m with
  | [] => None
  | (k', v) :: r => if (k =? k')%Z then Some v else get k r
  end.

(** [m.set(k, v)]: the value of an entry that is there is replaced where
    it stands; a new entry goes to the end. *)
Fixpoint set {A : Type} (k : Z) (v : A) (m : t A) : t A :=
  match m with
  | [] => [(k, v)]
  | (k', v') :: r => if (k =? k')%Z then (k, v) :: r else (k', v') :: set k v r
  end.

(** [Array.from(m.values())] *)
Definition values {A : Type} (m : t A) : list A := map snd m.

End JsMap.

Module Ordered.

Record MemStorage := {
  locations : JsMap.t Location.t;
  queries : JsMap.t Query.t;
  conversations : JsMap.t Conversation.t;
  currentLocationId : Z;
  currentQueryId : Z;
  currentConversationId : Z
}.

Definition new_MemStorage : MemStorage :=
  {| locations := JsMap.empty; queries := JsMap.empty;
     conversations := JsMap.empty;
     currentLocationId := 1; currentQueryId := 1; currentConversationId := 1 |}.

Definition createLocation (date : Z) (insertLocation : InsertLocation.t)
    (this : MemStorage) : Location.t * MemStorage :=
  let id := currentLocationId this in
  let location :=
    {| Location.id := id;
       Location.name := InsertLocation.name insertLocation;
       Location.latitude := InsertLocation.latitude insertLocation;
       Location.longitude := InsertLocation.longitude insertLocation;
       Location.type := InsertLocation.type insertLocation;
       Location.createdAt := date |} in
  (location,
   {| locations := JsMap.set id location (locations this);
      queries := queries this;
      conversations := conversations this;
      currentLocationId := (id + 1)%Z;
      currentQueryId := currentQueryId this;
      currentConversationId := currentConversationId this |}).

Definition getLocation (id : Z) (this : MemStorage) : option Location.t :=
  JsMap.get id (locations this).

Definition createQuery (date : Z) (insertQuery : InsertQuery.t)
    (this : MemStorage) : Query.t * MemStorage :=
  let id := currentQueryId this in
  let query :=
    {| Query.id := id;
       Query.locationId := InsertQuery.locationId insertQuery;
       Query.prompt := InsertQuery.prompt insertQuery;
       Query.extractedParams := InsertQuery.extractedParams insertQuery;
       Query.response := InsertQuery.response insertQuery;
       Query.visualizationData := InsertQuery.visualizationData insertQuery;
       Query.createdAt := date |} in
  (query,
   {| locations := locations this;
      queries := JsMap.set id query (queries this);
      conversations := conversations this;
      currentLocationId := currentLocationId this;
      currentQueryId := (id + 1)%Z;
      currentConversationId := currentConversationId this |}).

Definition getQueriesByLocation (locationId : Z) (this : MemStorage) : list Query.t :=
  List.filter (fun query => (Query.locationId query =? locationId)%Z)
    (JsMap.values (queries this)).

Definition getQuery (id : Z) (this : MemStorage) : option Query.t :=
  JsMap.get id (queries this).

Definition createConversation (date : Z) (insertConversation : InsertConversation.t)
    (this : MemStorage) : Conversation.t * MemStorage :=
  let id := currentConversationId this in
  let conversation :=
    {| Conversation.id := id;
       Conversation.locationId := InsertConversation.locationId insertConversation;
       Conversation.sessionId := InsertConversation.sessionId insertConversation;
       Conversation.createdAt := date |} in
  (conversation,
   {| locations := locations this;
      queries := queries this;
      conversations := JsMap.set id conversation (conversations this);
      currentLocationId := currentLocationId this;
      currentQueryId := currentQueryId this;
      currentConversationId := (id + 1)%Z |}).

Definition getConversationsBySession (sessionId : jsstring) (this : MemStorage)
    : list Conversation.t :=
  List.filter
    (fun conversation => jsstring_eqb (Conversation.sessionId conversation) sessionId)
    (JsMap.values (conversations this)).

Definition perform (c : call) (this : MemStorage) : created * MemStorage :=
  match c with
  | CreateLocation d i => let '(l, s) := createLocation d i this in (ALocation l, s)
  | CreateQuery d i => let '(q, s) := createQuery d i this in (AQuery q, s)
  | CreateConversation d i =>
    let '(v, s) := createConversation d i this in (AConversation v, s)
  end.

Fixpoint perform_all (cs : list call) (this : MemStorage) : list created * MemStorage :=
  match cs with
  | [] => ([], this)
  | c :: cs' =>
    let '(r, s) := perform c this in
    let '(rs, s') := perform_all cs' s in
    (r :: rs, s')
  end.

End Ordered.

(** The object without the order of its entries. *)
Definition forget (this : Ordered.MemStorage) : MemStorage :=
  {| locations := list_to_map (Ordered.locations this);
     queries := list_to_map (Ordered.queries this);
     conversations := list_to_map (Ordered.conversations this);
     currentLocationId := Ordered.currentLocationId this;
     currentQueryId := Ordered.currentQueryId this;
     currentConversationId := Ordered.currentConversationId this |}.

(** The queries and the conversations among the records created, in the
    order of creation. *)
Definition queries_of (rs : list created) : list Query.t :=
  flat_map (fun r => match r with AQuery q => [q] | _ => [] end) rs.

Definition conversations_of (rs : list created) : list Conversation.t :=
  flat_map (fun r => match r with AConversation c => [c] | _ => [] end) rs.

(** The ids a store knows are those below its counters. *)
Definition dense (s : MemStorage) : Prop :=
  (forall id, is_Some (locations s !! id) <-> (1 <= id < currentLocationId s)%Z) /\
  (forall id, is_Some (queries s !! id) <-> (1 <= id < currentQueryId s)%Z) /\
  (forall id, is_Some (conversations s !! id)
              <-> (1 <= id < currentConversationId s)%Z) /\
  (1 <= currentLocationId s)%Z /\ (1 <= currentQueryId s)%Z /\
  (1 <= currentConversationId s)%Z.

(** Every key of an ordered [Map] is below the counter that gives its
    next key. *)
Definition below {A : Type} (n : Z) (m : JsMap.t A) : Prop :=
  Forall (fun e => (fst e < n)%Z) m.

Definition bounded (s : Ordered.MemStorage) : Prop :=
  below (Ordered.currentLocationId s) (Ordered.locations s) /\
  below (Ordered.currentQueryId s) (Ordered.queries s) /\
  below (Ordered.currentConversationId s) (Ordered.conversations s).

(** ** [parseInt] and the route handlers

    [parseInt(string)] with no radix, as the routes call it on a path
    parameter: leading white space is dropped, then an optional sign, then
    an optional [0x] (which makes the radix 16), and the longest run of
    digits is read; no digit at all gives NaN, here [None]. The number is
    the integer read (no rounding to a double, which matters from 2^53 on;
    minus zero is zero). *)

Definition digit_value (radix : Z) (u : N) : option Z :=
  let v :=
    if is_digit u then Some (Z.of_N u - 48)%Z
    else if (97 <=? u) && (u <=? 122) then Some (Z.of_N u - 87)%Z
    else if (65 <=? u) && (u <=? 90) then Some (Z.of_N u - 55)%Z
    else None in
  match v with
  | Some d => if (d <? radix)%Z then Some d else None
  | None => None
  end.

(** The value of the longest run of digits at the start of [s], read
    after the digits worth [acc]. *)
Fixpoint digits_value (radix : Z) (s : jsstring) (acc : Z) : Z :=
  match s with
  | u :: r =>
    match digit_value radix u with
    | Some d => digits_value radix r (acc * radix + d)%Z
    | None => acc
    end
  | [] => acc
  end.

Definition starts_with_digit (radix : Z) (s : jsstring) : bool :=
  match s with
  | u :: _ => match digit_value radix u with Some _ => true | None => false end
  | [] => false
  end.

Definition parseInt (string : jsstring) : option Z :=
  let S := skip_spaces string in
  let sign := if startsWith S (js "-") then (-1)%Z else 1%Z in
  let S := if startsWith S (js "+") || startsWith S (js "-") then drop 1 S else S in
  let hex := startsWith S (js "0x") || startsWith S (js "0X") in
  let R := if hex then 16%Z else 10%Z in
  let S := if hex then drop 2 S else S in
  if starts_with_digit R S then Some (sign * digits_value R S 0)%Z else None.

(** What a handler passes to [res.json], and the status it sets (200
    when it sets none). *)
Inductive payload :=
| ErrorPayload (error : jsstring)
| LocationPayload (location : Location.t)
| QueryPayload (query : Query.t)
| QueriesPayload (queries : list Query.t)
| GeocodePayload (name lat lng : jsstring).

Record Response := { status : Z; json : payload }.

(** The object [params] as the JSON value stored with a query: the
    fields that were assigned, in the order of assignment. *)
Definition property (k : string) (v : option JsValue) : list (string * JsValue) :=
  match v with
  | Some x => [(k, x)]
  | None => []
  end.

Definition json_of_params (p : ExtractedParameters) : JsValue :=
  JObject (property "startYear" (JString <$> startYear p)
           ++ property "endYear" (JString <$> endYear p)
           ++ property "dataTypes" ((fun l => JArray (map JString l)) <$> dataTypes p)
           ++ property "aggregation" (JString <$> aggregation p)
           ++ property "timeframe" (JString <$> timeframe p)).

(** [POST /api/locations]. [parse] is [insertLocationSchema.parse], a
    schema built by a library from the table: [None] when it throws. *)
Definition post_locations {Body : Type} (parse : Body -> option InsertLocation.t)
    (date : Z) (body : Body) (storage : Ordered.MemStorage)
    : Response * Ordered.MemStorage :=
  match parse body with
  | Some validatedData =>
    let '(location, storage') := Ordered.createLocation date validatedData storage in
    ({| status := 200; json := LocationPayload location |}, storage')
  | None =>
    ({| status := 400; json := ErrorPayload (js "Invalid location data") |}, storage)
  end.

(** [GET /api/locations/:id]. NaN is the key of no entry. *)
Definition get_location (idParam : jsstring) (storage : Ordered.MemStorage) : Response :=
  let id := parseInt idParam in
  let location :=
    match id with
    | Some n => Ordered.getLocation n storage
    | None => None
    end in
  match location with
  | None => {| status := 404; json := ErrorPayload (js "Location not found") |}
  | Some l => {| status := 200; json := LocationPayload l |}
  end.

(** The table of the mock geocoder, keys in the order written. *)
Definition mockResults : list (jsstring * (jsstring * jsstring)) :=
  [(js "San Francisco", (js "37.7749", js "-122.4194"));
   (js "New York", (js "40.7128", js "-74.0060"));
   (js "London", (js "51.5074", js "-0.1278"))].

(** [POST /api/geocode], for a body whose [address] is a string
    ([Some]) or missing ([None]). The first key of the table that occurs
    in the address is looked for with [find]; the key found and the entry
    it selects are kept together here. *)
Definition post_geocode (address : option jsstring) : Response :=
  match address with
  | Some a =>
    if truthy a then
      let key :=
        find (fun entry => includes (toLowerCase a) (toLowerCase (fst entry)))
             mockResults in
      match key with
      | Some (k, (lat, lng)) =>
        {| status := 200; json := GeocodePayload k lat lng |}
      | None =>
        {| status := 200;
           json := GeocodePayload a (js "37.7749") (js "-122.4194") |}
      end
    else {| status := 400; json := ErrorPayload (js "Address is required") |}
  | None => {| status := 400; json := ErrorPayload (js "Address is required") |}
  end.

(** [POST /api/queries], for a body whose [prompt] is a string or missing
    and whose [locationId] is an integer or missing. [now] is the current
    year, [date] the current time; [parse] is [insertQuerySchema.parse]. *)
Definition post_queries (parse : InsertQuery.t -> option InsertQuery.t)
    (now date : Z) (prompt : option jsstring) (locationId : option Z)
    (storage : Ordered.MemStorage) : Response * Ordered.MemStorage :=
  match prompt, locationId with
  | Some prompt, Some locationId =>
    if negb (truthy prompt) || (locationId =? 0)%Z then
      ({| status := 400;
          json := ErrorPayload (js "Prompt and locationId are required") |}, storage)
    else
      let extractedParams := extractParameters now prompt in
      let response :=
        generateResponse (forget storage) prompt extractedParams locationId in
      let visualizationData := generateVisualizationData prompt extractedParams in
      let queryData :=
        {| InsertQuery.locationId := locationId;
           InsertQuery.prompt := prompt;
           InsertQuery.extractedParams := json_of_params extractedParams;
           InsertQuery.response := Some response;
           InsertQuery.visualizationData := visualizationData |} in
      match parse queryData with
      | Some validatedData =>
        let '(query, storage') := Ordered.createQuery date validatedData storage in
        ({| status := 200; json := QueryPayload query |}, storage')
      | None =>
        ({| status := 500; json := ErrorPayload (js "Failed to process query") |},
         storage)
      end
  | _, _ =>
    ({| status := 400;
        json := ErrorPayload (js "Prompt and locationId are required") |}, storage)
  end.

(** [GET /api/locations/:id/queries]. NaN is the [locationId] of no
    query. *)
Definition get_location_queries (idParam : jsstring) (storage : Ordered.MemStorage)
    : Response :=
  let locationId := parseInt idParam in
  let queries :=
    match locationId with
    | Some n => Ordered.getQueriesByLocation n storage
    | None => []
    end in
  {| status := 200; json := QueriesPayload queries |}.

(** A store that creates on a fresh store lead to. *)
Definition reachable (s : Ordered.MemStorage) : Prop :=
  exists cs, s = snd (Ordered.perform_all cs Ordered.new_MemStorage).

(** What may follow the digits of an id in a path parameter without
    changing what [parseInt] reads: nothing, or text that starts with
    neither a digit nor an x. *)
Definition no_more_digits (suffix : jsstring) : Prop :=
  match suffix with
  | [] => True
  | u :: _ => is_digit u = false /\ u <> 120 /\ u <> 88
  end.

(** The decimal digits of a number as code units. *)
Fixpoint units_of_uint (d : Decimal.uint) : jsstring :=
  match d with
  | Decimal.Nil => []
  | Decimal.D0 l => 48 :: units_of_uint l
  | Decimal.D1 l => 49 :: units_of_uint l
  | Decimal.D2 l => 50 :: units_of_uint l
  | Decimal.D3 l => 51 :: units_of_uint l
  | Decimal.D4 l => 52 :: units_of_uint l
  | Decimal.D5 l => 53 :: units_of_uint l
  | Decimal.D6 l => 54 :: units_of_uint l
  | Decimal.D7 l => 55 :: units_of_uint l
  | Decimal.D8 l => 56 :: units_of_uint l
  | Decimal.D9 l => 57 :: units_of_uint l
  end.

(** A record is stored under its own id. *)
Definition keyed (s : MemStorage) : Prop :=
  (forall k l, locations s !! k = Some l -> Location.id l = k) /\
  (forall k q, queries s !! k = Some q -> Query.id q = k).

(** ** The client: what it sends

    The two places where the pages hand user input to the server. The
    state of a component is a record; an event handler takes the state and
    gives the state after it with what it sent, if anything. The random
    id and the time of a new message are inputs. *)

(** [String.prototype.trim]: white space and line terminators are
    dropped at both ends. *)
Definition trim (s : jsstring) : jsstring :=
  rev (skip_spaces (rev (skip_spaces s))).

Inductive Sender := user | assistant.

Record Message := {
  message_id : jsstring;
  content : jsstring;
  sender : Sender;
  timestamp : Z
}.

(** The state of [ChatInterface]. *)
Record ChatState := {
  messages : list Message;
  inputValue : jsstring;
  isTyping : bool;
  hasStartedChat : bool
}.

Definition addMessage (id : jsstring) (date : Z) (content : jsstring)
    (sender : Sender) (st : ChatState) : ChatState :=
  let newMessage :=
    {| message_id := id; content := content; sender := sender;
       timestamp := date |} in
  {| messages := messages st ++ [newMessage];
     inputValue := inputValue st;
     isTyping := isTyping st;
     hasStartedChat := hasStartedChat st |}.

(** [handleSend]: the state after it, and the prompt handed to
    [sendQueryMutation.mutate], which posts it to [/api/queries]. *)
Definition handleSend (id : jsstring) (date : Z) (st : ChatState)
    : ChatState * option jsstring :=
  let message := trim (inputValue st) in
  if negb (truthy message) then (st, None)
  else
    let st := {| messages := messages st; inputValue := inputValue st;
                 isTyping := isTyping st; hasStartedChat := true |} in
    let st := addMessage id date message user st in
    let st := {| messages := messages st; inputValue := [];
                 isTyping := isTyping st; hasStartedChat := hasStartedChat st |} in
    let st := {| messages := messages st; inputValue := inputValue st;
                 isTyping := true; hasStartedChat := hasStartedChat st |} in
    (st, Some message).

(** [handleManualSubmit] of [LocationSelector]: the address handed to
    [geocodeMutation.mutate], which posts it to [/api/geocode]. *)
Definition handleManualSubmit (manualInput : jsstring) : option jsstring :=
  if truthy (trim manualInput) then Some (trim manualInput) else None.

(** [onSuccess] of the geocode mutation: the data posted to
    [/api/locations] for the result of the geocoder. *)
Definition manual_location (result : Response) : option InsertLocation.t :=
  match status result, json result with
  | 200%Z, GeocodePayload name lat lng =>
    Some {| InsertLocation.name := name;
            InsertLocation.latitude := Some lat;
            InsertLocation.longitude := Some lng;
            InsertLocation.type := js "manual" |}
  | _, _ => None
  end.

(** No white space at either end. *)
Definition trimmed (m : jsstring) : Prop :=
  (forall a r, m = a :: r -> is_space a = false) /\
  (forall r z, m = r ++ [z] -> is_space z = false).

(** ** The three functions at run time

    [extractParameters], [generateResponse] and
    [generateVisualizationData] once more, with what their type
    annotations leave open: [params] is a [Record<string, any>], so a
    property holds a value of any type; a property read, a method call or
    a spread throws a TypeError on a value that does not support it; and
    [new Date()] and [storage] are read from the world the call runs in.
    The definitions above are these, for a prompt that is a string and the
    parameter objects [extractParameters] builds ([runs_extractParameters]
    and the two lemmas after it). *)

Module Runtime.

(** A value of type [any]. Numbers and functions are left out: no
    property of [params] is ever given one; for every operation below but
    its decimal text a number behaves as a boolean does, and an object
    here has data properties only. *)
Inductive any :=
| Undefined
| Null
| Bool (b : bool)
| Str (s : jsstring)
| Arr (items : list any)
| Obj (props : list (string * any)).

(** How an evaluation ends: with a value, or with a thrown TypeError (for
    the async [generateResponse]: a rejected promise). *)
Inductive outcome (A : Type) :=
| Returns (a : A)
| Throws.
Arguments Returns {A} a.
Arguments Throws {A}.

(** A [Date] object: its time value, and the calendar year
    [getFullYear] gives for it. *)
Record Date := { getTime : Z; getFullYear : Z }.

(** What a call can read and write besides its arguments: the clock and
    the exported [storage] object. (The pattern of [extractParameters] is
    a literal without the [g] flag: a match keeps no position from one
    call to the next.) *)
Record World := { clock : Date; storage : MemStorage }.

(** A computation: from the world before to an outcome and the world
    after. *)
Definition M (A : Type) : Type := World -> outcome A * World.

Definition ret {A : Type} (a : A) : M A := fun w => (Returns a, w).

Definition throw {A : Type} : M A := fun w => (Throws, w).

Definition bind {A B : Type} (m : M A) (f : A -> M B) : M B :=
  fun w =>
    match m w with
    | (Returns a, w') => f a w'
    | (Throws, w') => (Throws, w')
    end.

Notation "'let!' x ':=' m 'in' k" := (bind m (fun x => k))
  (at level 10, x name, m at level 100, k at level 200).

(** [new Date()] *)
Definition new_Date : M Date := fun w => (Returns (clock w), w).

(** [await storage.getLocation(id)] *)
Definition storage_getLocation (id : Z) : M (option Location.t) :=
  fun w => (Returns (getLocation id (storage w)), w).

(** Truthiness. *)
Definition ToBoolean (v : any) : bool :=
  match v with
  | Undefined | Null => false
  | Bool b => b
  | Str s => truthy s
  | Arr _ | Obj _ => true
  end.

(** The text a template literal puts for [${v}]: of an array, its
    elements joined by commas, with nothing for undefined and null. *)
Fixpoint ToString (v : any) : jsstring :=
  match v with
  | Undefined => js "undefined"
  | Null => js "null"
  | Bool true => js "true"
  | Bool false => js "false"
  | Str s => s
  | Arr items =>
    (fix join (l : list any) : jsstring :=
       match l with
       | [] => []
       | x :: r =>
         match x with
         | Undefined | Null => []
         | _ => ToString x
         end ++
         match r with
         | [] => []
         | _ :: _ => js "," ++ join r
         end
       end) items
  | Obj _ => js "[object Object]"
  end.

Fixpoint lookup_property (k : string) (props : list (string * any)) : any :=
  match props with
  | [] => Undefined
  | (k', v) :: ps => if String.eqb k k' then v else lookup_property k ps
  end.

(** [o.k = v] on an object: the property keeps its place when it is
    there, and comes last when it is new. *)
Fixpoint assign (k : string) (v : any) (props : list (string * any)) :
    list (string * any) :=
  match props with
  | [] => [(k, v)]
  | (k', v') :: ps =>
    if String.eqb k k' then (k, v) :: ps else (k', v') :: assign k v ps
  end.

(** [v.k], for the names the program reads ([dataTypes], [startYear],
    [endYear]), which no string, boolean or array has: a TypeError on
    undefined and null. *)
Definition getProperty (v : any) (k : string) : M any :=
  match v with
  | Undefined | Null => throw
  | Obj props => ret (lookup_property k props)
  | Bool _ | Str _ | Arr _ => ret Undefined
  end.

(** [v.match(re)] and [v.toLowerCase()]: strings have these methods; on
    any other value the call throws. *)
Definition call_match (v : any) (re : Matcher) (ngroups : nat) :
    M (option MatchState) :=
  match v with
  | Str s => ret (String_match s re ngroups)
  | _ => throw
  end.

Definition call_toLowerCase (v : any) : M jsstring :=
  match v with
  | Str s => ret (toLowerCase s)
  | _ => throw
  end.

(** [yearMatch[n]] *)
Definition capture (m : MatchState) (n : nat) : any :=
  match group m n with
  | Some s => Str s
  | None => Undefined
  end.

(** [x === k] for a string [k]. *)
Definition is_string_value (k : jsstring) (x : any) : bool :=
  match x with
  | Str s => jsstring_eqb s k
  | _ => false
  end.

(** [v?.includes(k)]: undefined when [v] is undefined or null; arrays and
    strings have the method; on any other value the call throws. *)
Definition optional_includes (v : any) (k : jsstring) : M any :=
  match v with
  | Undefined | Null => ret Undefined
  | Arr items => ret (Bool (existsb (is_string_value k) items))
  | Str s => ret (Bool (includes s k))
  | Bool _ | Obj _ => throw
  end.

(** The values a string gives when iterated: its code points, a
    surrogate pair as one. *)
Fixpoint code_points (s : jsstring) : list jsstring :=
  match s with
  | [] => []
  | u :: r =>
    match r with
    | v :: r' =>
      if (55296 <=? u) && (u <=? 56319) && (56320 <=? v) && (v <=? 57343)
      then [u; v] :: code_points r'
      else [u] :: code_points r
    | [] => [[u]]
    end
  end.

(** [...v] inside an array literal: arrays and strings can be iterated;
    on any other value the spread throws. *)
Definition spread (v : any) : M (list any) :=
  match v with
  | Arr items => ret items
  | Str s => ret (map Str (code_points s))
  | _ => throw
  end.

(** [a || b] *)
Definition or_value (a : any) (b : M any) : M any :=
  if ToBoolean a then ret a else b.

Definition either (a b : M bool) : M bool :=
  let! x := a in if x then ret true else b.

(** [prompt.toLowerCase().includes(k)] *)
Definition mentions (prompt : any) (k : string) : M bool :=
  let! lower := call_toLowerCase prompt in ret (includes lower (js k)).

Definition extractParameters (prompt : any) : M any :=
  let params : list (string * any) := [] in
  (* Extract time periods *)
  let! yearMatch := call_match prompt yearRegExp 2 in
  let! params :=
    match yearMatch with
    | Some m =>
      let params := assign "startYear" (capture m 1) params in
      let! endYear :=
        or_value (capture m 2)
          (let! d := new_Date in ret (Str (Number_toString (getFullYear d)))) in
      ret (assign "endYear" endYear params)
    | None => ret params
    end in
  (* Extract data types *)
  let! c := mentions prompt "temperature" in
  let params :=
    if c then assign "dataTypes" (Arr [Str (js "temperature")]) params
    else params in
  let! c := either (mentions prompt "rainfall") (mentions prompt "precipitation") in
  let! params :=
    if c then
      let! dataTypes :=
        if ToBoolean (lookup_property "dataTypes" params)
        then let! items := spread (lookup_property "dataTypes" params) in
             ret (Arr (items ++ [Str (js "rainfall")]))
        else ret (Arr [Str (js "rainfall")]) in
      ret (assign "dataTypes" dataTypes params)
    else ret params in
  let! c := mentions prompt "population" in
  let params :=
    if c then assign "dataTypes" (Arr [Str (js "population")]) params
    else params in
  let! c := mentions prompt "demographics" in
  let params :=
    if c then assign "dataTypes" (Arr [Str (js "demographics")]) params
    else params in
  (* Extract aggregation types *)
  let! c := mentions prompt "average" in
  let params :=
    if c then assign "aggregation" (Str (js "average")) params else params in
  let! c := mentions prompt "monthly" in
  let params :=
    if c then assign "timeframe" (Str (js "monthly")) params else params in
  let! c := either (mentions prompt "yearly") (mentions prompt "annual") in
  let params :=
    if c then assign "timeframe" (Str (js "yearly")) params else params in
  ret (Obj params).

(** [params.dataTypes?.includes(k)], as a condition. *)
Definition dataTypes_includes (params : any) (k : string) : M bool :=
  let! dataTypes := getProperty params "dataTypes" in
  let! found := optional_includes dataTypes (js k) in
  ret (ToBoolean found).

(** [${params.k ? `word${params.k}` : ''}] *)
Definition clause (word : jsstring) (params : any) (k : string) : M jsstring :=
  let! c := getProperty params k in
  if ToBoolean c
  then let! y := getProperty params k in ret (word ++ ToString y)
  else ret [].

Definition generateResponse (prompt params : any) (locationId : Z) : M jsstring :=
  let! location := storage_getLocation locationId in
  let locationName :=
    or_else (Location.name <$> location) (js "the selected location") in
  let! c := either (dataTypes_includes params "temperature")
                (dataTypes_includes params "rainfall") in
  if c then
    let! from := clause (js " from ") params "startYear" in
    let! to := clause (js " to ") params "endYear" in
    ret (weather_1 ++ locationName ++ weather_2 ++ from ++ to ++ weather_3)
  else
    let! c := either (dataTypes_includes params "population")
                  (dataTypes_includes params "demographics") in
    if c then ret (demographics_1 ++ locationName ++ demographics_2)
    else ret (generic_1 ++ locationName ++ generic_2
              ++ ToString prompt ++ generic_3).

Definition generateVisualizationData (prompt params : any) : M JsValue :=
  let! c := dataTypes_includes params "temperature" in
  if c then
    ret (JObject [
      ("type", JString (js "line"));
      ("data", JObject [
        ("labels", JArray months);
        ("datasets", JArray [JObject [
          ("label", JString (js "Average Temperature (°F)"));
          ("data", JArray (map JNumber
            [52; 54; 57; 60; 63; 66; 67; 68; 69; 65; 58; 53]%float));
          ("borderColor", JString (js "rgb(16, 163, 127)"));
          ("backgroundColor", JString (js "rgba(16, 163, 127, 0.1)"))
        ]%string])
      ]%string)
    ]%string)
  else
    let! c := dataTypes_includes params "rainfall" in
    if c then
      ret (JObject [
        ("type", JString (js "bar"));
        ("data", JObject [
          ("labels", JArray months);
          ("datasets", JArray [JObject [
            ("label", JString (js "Rainfall (inches)"));
            ("data", JArray (map JNumber
              [4.5; 3.8; 3.2; 1.5; 0.7; 0.2; 0.1; 0.2; 0.4; 1.8; 3.1; 4.2]%float));
            ("backgroundColor", JString (js "rgba(16, 163, 127, 0.8)"))
          ]%string])
        ]%string)
      ]%string)
    else ret JNull.

(** An object with the fields of a parameter record that are there, in
    the order [extractParameters] creates them. *)
Definition property (k : string) (v : option any) : list (string * any) :=
  match v with
  | Some x => [(k, x)]
  | None => []
  end.

Definition strings (l : list jsstring) : any := Arr (map Str l).

Definition fields (p : ExtractedParameters) : list (string * any) :=
  property "startYear" (Str <$> startYear p)
  ++ property "endYear" (Str <$> endYear p)
  ++ property "dataTypes" (strings <$> dataTypes p)
  ++ property "aggregation" (Str <$> aggregation p)
  ++ property "timeframe" (Str <$> timeframe p).

Definition object_of (p : ExtractedParameters) : any := Obj (fields p).

End Runtime.

(** The world at a given time, in a given year, with a given store. *)
Definition world_at (time year : Z) (storage : MemStorage) : Runtime.World :=
  {| Runtime.clock := {| Runtime.getTime := time; Runtime.getFullYear := year |};
     Runtime.storage := storage |}.

(** A computation leaves the world as it was. *)
Definition unchanged {A : Type} (m : Runtime.M A) : Prop :=
  forall w, snd (m w) = w.

(** A computation ends the same way, with the same value, in any two
    worlds that [R] relates. *)
Definition same_in {A : Type} (R : Runtime.World -> Runtime.World -> Prop)
    (m : Runtime.M A) : Prop :=
  forall w w', R w w' -> fst (m w) = fst (m w').

(** Two worlds in the same calendar year; two worlds whose stores give
    the same answer for one location id. *)
Definition same_year (w w' : Runtime.World) : Prop :=
  Runtime.getFullYear (Runtime.clock w) = Runtime.getFullYear (Runtime.clock w').

Definition same_location (locationId : Z) (w w' : Runtime.World) : Prop :=
  getLocation locationId (Runtime.storage w)
  = getLocation locationId (Runtime.storage w').

(** ** Proof steps *)

(** Case analysis on every check of a conditional in the goal. *)
Ltac split_checks :=
  repeat match goal with
  | |- context [if ?b then _ else _] => destruct b
  end.


(** ** Strings: basic facts *)

Lemma jsstring_eqb_eq (s t : jsstring) : jsstring_eqb s t = true <-> s = t.
Proof.
  revert t; induction s as [|a s IH]; intros [|b t]; simpl; split;
    try congruence; try reflexivity.
  - intros [Hab Hst]%andb_true_iff. apply N.eqb_eq in Hab.
    apply IH in Hst. congruence.
  - intros [= -> ->]. rewrite N.eqb_refl. simpl. now apply IH.
Qed.

Lemma array_includes_In (l : list jsstring) (k : jsstring) :
  array_includes l k = true <-> In k l.
Proof.
  unfold array_includes. rewrite existsb_exists. split.
  - intros (x & Hx & Heq). apply jsstring_eqb_eq in Heq. now subst.
  - intros Hk. exists k. split; [assumption | now apply jsstring_eqb_eq].
Qed.

Lemma dataTypes_includes_has_tag (params : ExtractedParameters) (k : string) :
  dataTypes_includes params (js k) = true <-> has_tag params k.
Proof.
  unfold dataTypes_includes, has_tag. destruct (dataTypes params) as [l|].
  - rewrite array_includes_In. split.
    + intros H. now exists l.
    + intros (l' & [= <-] & H). exact H.
  - split; [discriminate | intros (l' & [=] & _)].
Qed.

Lemma dataTypes_includes_false (params : ExtractedParameters) (k : string) :
  dataTypes_includes params (js k) = false <-> ~ has_tag params k.
Proof.
  rewrite <- dataTypes_includes_has_tag.
  destruct (dataTypes_includes params (js k)); split; congruence.
Qed.

(** ** The topic checks of [extractParameters] *)

Lemma dataTypes_temperature_then_rainfall (now : Z) (prompt : jsstring) :
  includes (toLowerCase prompt) (js "temperature") = true ->
  includes (toLowerCase prompt) (js "rainfall") = true ->
  includes (toLowerCase prompt) (js "population") = false ->
  includes (toLowerCase prompt) (js "demographics") = false ->
  dataTypes (extractParameters now prompt)
  = Some [js "temperature"; js "rainfall"].
Proof.
  intros Ht Hr Hp Hd. unfold extractParameters. rewrite Ht, Hr, Hp, Hd.
  cbn [orb]. destruct (String_match prompt yearRegExp 2); cbv zeta;
    split_checks; reflexivity.
Qed.

(** C1, as the specification words it, fails: the rainfall check finds the
    list the temperature check left and appends to it. *)
Lemma temperature_and_rainfall_not_overwritten :
  dataTypes (extractParameters 2026 (js "temperature and rainfall"))
  <> Some [js "rainfall"].
Proof. vm_compute. discriminate. Qed.

(** C1 (amended): for the prompt "temperature and rainfall",
    [extractParameters] returns [dataTypes] equal to the array
    ["temperature", "rainfall"]: the rainfall check appends "rainfall" to
    the one-element list the temperature check produced. *)
Theorem temperature_and_rainfall_appended (now : Z) :
  dataTypes (extractParameters now (js "temperature and rainfall"))
  = Some [js "temperature"; js "rainfall"].
Proof. vm_compute. reflexivity. Qed.

(** ** The year pattern

    Every part of the pattern after the first group may match the empty
    string, so the continuation of each part always succeeds and the greedy
    choice is the one taken. *)

Lemma total_Some : total Some.
Proof. intros x; discriminate. Qed.

Lemma star_space_total (input : jsstring) caps (c : Continuation) :
  total c ->
  star_from is_space input caps c
  = c {| rest := skip_spaces input; captures := caps |}.
Proof.
  intros Hc. induction input as [|u r IH]; simpl; [reflexivity|].
  destruct (is_space u); [|reflexivity].
  rewrite IH. destruct (c _) eqn:E; [reflexivity | now apply Hc in E].
Qed.

Lemma four_digits_matcher (x : MatchState) (c : Continuation) :
  Repeat 4 (CharSet is_digit) x c
  = match digits4 (rest x) with
    | Some (_, r) => c {| rest := r; captures := captures x |}
    | None => None
    end.
Proof.
  destruct x as [s caps]. unfold Repeat, Seq, CharSet, Empty, digits4. simpl.
  destruct s as [|a [|b [|d [|e r]]]]; simpl; try reflexivity;
    repeat (match goal with |- context [is_digit ?u] => destruct (is_digit u) end;
            simpl; try reflexivity).
Qed.

Lemma digits4_split (s y r : jsstring) :
  digits4 s = Some (y, r) -> s = y ++ r /\ four_digits y.
Proof.
  unfold digits4. destruct s as [|a [|b [|d [|e t]]]]; try discriminate.
  destruct (is_digit a) eqn:Ha, (is_digit b) eqn:Hb,
           (is_digit d) eqn:Hd, (is_digit e) eqn:He; try discriminate.
  intros [= <- <-]. split; [reflexivity|].
  split; [reflexivity|]. simpl. now rewrite Ha, Hb, Hd, He.
Qed.

Lemma digits4_app (y post : jsstring) :
  four_digits y -> digits4 (y ++ post) = Some (y, post).
Proof.
  intros [Hlen Hd]. destruct y as [|a [|b [|d [|e [|? ?]]]]]; try discriminate.
  simpl in Hd. repeat rewrite andb_true_iff in Hd.
  destruct Hd as (Ha & Hb & Hd & He & _).
  simpl. now rewrite Ha, Hb, Hd, He.
Qed.

Lemma consumed_digits4 (s y r : jsstring) :
  digits4 s = Some (y, r) -> consumed s r = y.
Proof.
  intros H. destruct (digits4_split _ _ _ H) as [-> [Hlen _]].
  unfold consumed. rewrite length_app, Hlen.
  replace (4 + length r - length r)%nat with (length y) by lia.
  apply take_app_length.
Qed.

Lemma group_four_digits (n : nat) (x : MatchState) (c : Continuation) :
  Group n (Repeat 4 (CharSet is_digit)) x c
  = match digits4 (rest x) with
    | Some (y, r) =>
      c {| rest := r; captures := <[pred n := Some y]> (captures x) |}
    | None => None
    end.
Proof.
  unfold Group. rewrite four_digits_matcher.
  destruct (digits4 (rest x)) as [[y r]|] eqn:E; [|reflexivity].
  simpl. now rewrite (consumed_digits4 _ _ _ E).
Qed.

Lemma Lit_startsWith (k : jsstring) (x : MatchState) (c : Continuation) :
  Lit k x c
  = if startsWith (rest x) k
    then c {| rest := drop (length k) (rest x); captures := captures x |}
    else None.
Proof.
  revert x. induction k as [|a k IH]; intros [s caps].
  - reflexivity.
  - cbn [Lit]. unfold Seq, CharSet. cbn [rest captures].
    destruct s as [|u r]; [reflexivity|].
    cbn [startsWith length drop]. destruct (a =? u); [|reflexivity].
    rewrite IH. reflexivity.
Qed.

Lemma separator_total (x : MatchState) (c : Continuation) :
  total c ->
  Opt (Alt (Lit (js "to")) (Lit (js "-"))) x c
  = c {| rest := skip_sep (rest x); captures := captures x |}.
Proof.
  intros Hc. unfold Opt, Alt, Empty, skip_sep. rewrite !Lit_startsWith.
  change (length (js "to")) with 2%nat. change (length (js "-")) with 1%nat.
  destruct (startsWith (rest x) (js "to")).
  - destruct (c _) eqn:E; [reflexivity | now apply Hc in E].
  - destruct (startsWith (rest x) (js "-")).
    + destruct (c _) eqn:E; [reflexivity | now apply Hc in E].
    + now destruct x.
Qed.

Lemma second_group_total (x : MatchState) (c : Continuation) :
  total c ->
  Opt (Group 2 (Repeat 4 (CharSet is_digit))) x c
  = match digits4 (rest x) with
    | Some (y2, r) =>
      c {| rest := r; captures := <[1%nat := Some y2]> (captures x) |}
    | None => c x
    end.
Proof.
  intros Hc. unfold Opt, Alt, Empty. rewrite group_four_digits. simpl.
  destruct (digits4 (rest x)) as [[y2 r]|]; [|reflexivity].
  destruct (c _) eqn:E; [reflexivity | now apply Hc in E].
Qed.

(** The pattern at one start index: it matches exactly when four digits
    stand there, and then ends in the state of the left-to-right scan. *)
Lemma yearRegExp_at (s : jsstring) :
  yearRegExp {| rest := s; captures := replicate 2 None |} Some
  = match digits4 s with
    | Some (y, post) => Some (after_year y post)
    | None => None
    end.
Proof.
  unfold yearRegExp. unfold Seq at 1. rewrite group_four_digits. simpl.
  destruct (digits4 s) as [[y post]|]; [|reflexivity].
  assert (T3 : total (fun z => Opt (Group 2 (Repeat 4 (CharSet is_digit))) z Some)).
  { intros z. rewrite second_group_total by apply total_Some.
    destruct (digits4 (rest z)) as [[? ?]|]; discriminate. }
  assert (T2 : total (fun z =>
            Seq (Star is_space) (Opt (Group 2 (Repeat 4 (CharSet is_digit)))) z Some)).
  { intros z. unfold Seq, Star. rewrite star_space_total by exact T3. apply T3. }
  assert (T1 : total (fun z =>
            Seq (Opt (Alt (Lit (js "to")) (Lit (js "-"))))
              (Seq (Star is_space)
                 (Opt (Group 2 (Repeat 4 (CharSet is_digit))))) z Some)).
  { intros z. unfold Seq at 1. rewrite separator_total by exact T2. apply T2. }
  unfold Seq at 1. unfold Star at 1. simpl.
  rewrite star_space_total by exact T1.
  unfold Seq at 1. rewrite separator_total by exact T2. simpl.
  unfold Seq at 1. unfold Star at 1. simpl.
  rewrite star_space_total by exact T3.
  rewrite second_group_total by apply total_Some. simpl.
  unfold after_year.
  destruct (digits4 (skip_spaces (skip_sep (skip_spaces post)))) as [[y2 r]|];
    reflexivity.
Qed.

(** [prompt.match] of the year pattern is the left-to-right scan. *)
Lemma exec_yearRegExp (s : jsstring) :
  String_match s yearRegExp 2 = find_year s.
Proof.
  unfold String_match. induction s as [|u r IH].
  - cbn [exec]. rewrite yearRegExp_at. reflexivity.
  - cbn [exec]. rewrite yearRegExp_at. cbn [find_year].
    destruct (digits4 (u :: r)) as [[y post]|]; [reflexivity | exact IH].
Qed.

(** ** The scan and the words of the specification *)

Lemma digit_not_space (a : N) :
  is_digit a = true ->
  is_space a = false /\ (116 =? a) = false /\ (45 =? a) = false.
Proof.
  unfold is_digit, is_space. intros [H1 H2]%andb_true_iff.
  apply N.leb_le in H1. apply N.leb_le in H2.
  assert (Hne : forall k, 57 < k \/ k < 48 -> (a =? k) = false)
    by (intros k Hk; apply N.eqb_neq; lia).
  rewrite !Hne by lia.
  rewrite (proj2 (N.leb_gt a 13)), (proj2 (N.leb_gt 8192 a)) by lia.
  rewrite andb_false_r. repeat split; apply N.eqb_neq; lia.
Qed.

Lemma four_digits_head (y : jsstring) :
  four_digits y -> exists a y', y = a :: y' /\ is_digit a = true.
Proof.
  intros [Hlen Hd]. destruct y as [|a y']; [discriminate|].
  simpl in Hd. apply andb_true_iff in Hd as [Ha _]. now exists a, y'.
Qed.

Lemma four_digits_nonempty (y : jsstring) : four_digits y -> truthy y = true.
Proof. intros (a & y' & -> & _)%four_digits_head. reflexivity. Qed.

Lemma skip_spaces_app (ws s : jsstring) :
  spaces ws -> skip_spaces (ws ++ s) = skip_spaces s.
Proof.
  unfold spaces. induction ws as [|u ws IH]; simpl; [reflexivity|].
  intros [Hu Hws]%andb_true_iff. rewrite Hu. now apply IH.
Qed.

Lemma skip_spaces_split (s : jsstring) :
  exists ws, s = ws ++ skip_spaces s /\ spaces ws.
Proof.
  induction s as [|u r (ws & Hr & Hws)]; simpl.
  - now exists [].
  - destruct (is_space u) eqn:Hu.
    + exists (u :: ws). split; [simpl; congruence|].
      unfold spaces in *. simpl. now rewrite Hu.
    + now exists [].
Qed.

Lemma skip_spaces_digits (y s : jsstring) :
  four_digits y -> skip_spaces (y ++ s) = y ++ s.
Proof.
  intros (a & y' & -> & Ha)%four_digits_head.
  apply digit_not_space in Ha as (Ha & _). simpl. now rewrite Ha.
Qed.

Lemma skip_sep_digits (y s : jsstring) :
  four_digits y -> skip_sep (y ++ s) = y ++ s.
Proof.
  intros (a & y' & -> & Ha)%four_digits_head.
  apply digit_not_space in Ha as (_ & Ht & Hh).
  unfold skip_sep. change (js "to") with [116; 111]. change (js "-") with [45].
  cbn [startsWith app]. now rewrite Ht, Hh.
Qed.

Lemma startsWith_drop (s k : jsstring) :
  startsWith s k = true -> s = k ++ drop (length k) s.
Proof.
  revert s. induction k as [|a k IH]; intros s; [reflexivity|].
  destruct s as [|b s]; [discriminate|]. cbn [startsWith length drop].
  intros [Hab Hk]%andb_true_iff. apply N.eqb_eq in Hab. subst b.
  simpl. f_equal. now apply IH.
Qed.

Lemma skip_sep_split (s : jsstring) :
  exists sep, s = sep ++ skip_sep s /\ (sep = [] \/ sep = js "to" \/ sep = js "-").
Proof.
  unfold skip_sep. destruct (startsWith s (js "to")) eqn:Et.
  - exists (js "to"). split; [exact (startsWith_drop _ _ Et) | tauto].
  - destruct (startsWith s (js "-")) eqn:Eh.
    + exists (js "-"). split; [exact (startsWith_drop _ _ Eh) | tauto].
    + exists []. split; [reflexivity | tauto].
Qed.

(** The second group is the second run of the specification. *)
Lemma second_run_scan (post y2 : jsstring) :
  second_run post y2 <->
  exists r, digits4 (skip_spaces (skip_sep (skip_spaces post))) = Some (y2, r).
Proof.
  split.
  - intros (ws1 & sep & ws2 & tail & -> & Hws1 & Hsep & Hws2 & Hy2).
    exists tail. rewrite (skip_spaces_app _ _ Hws1).
    destruct Hsep as [-> | [-> | ->]].
    + cbn [app]. rewrite (skip_spaces_app _ _ Hws2).
      rewrite (skip_spaces_digits _ _ Hy2), (skip_sep_digits _ _ Hy2).
      rewrite (skip_spaces_digits _ _ Hy2). now apply digits4_app.
    + change (skip_spaces (js "to" ++ ws2 ++ y2 ++ tail))
        with (js "to" ++ ws2 ++ y2 ++ tail).
      change (skip_sep (js "to" ++ ws2 ++ y2 ++ tail)) with (ws2 ++ y2 ++ tail).
      rewrite (skip_spaces_app _ _ Hws2), (skip_spaces_digits _ _ Hy2).
      now apply digits4_app.
    + change (skip_spaces (js "-" ++ ws2 ++ y2 ++ tail))
        with (js "-" ++ ws2 ++ y2 ++ tail).
      change (skip_sep (js "-" ++ ws2 ++ y2 ++ tail)) with (ws2 ++ y2 ++ tail).
      rewrite (skip_spaces_app _ _ Hws2), (skip_spaces_digits _ _ Hy2).
      now apply digits4_app.
  - intros (r & Hd). apply digits4_split in Hd as [Hp3 Hy2].
    destruct (skip_spaces_split post) as (ws1 & E1 & Hws1).
    destruct (skip_sep_split (skip_spaces post)) as (sep & E2 & Hsep).
    destruct (skip_spaces_split (skip_sep (skip_spaces post))) as (ws2 & E3 & Hws2).
    exists ws1, sep, ws2, r. repeat split; try assumption; try apply Hy2.
    rewrite <- Hp3, <- E3, <- E2. exact E1.
Qed.

Lemma group_after_year_1 (y post : jsstring) :
  group (after_year y post) 1 = Some y.
Proof.
  unfold after_year.
  destruct (digits4 (skip_spaces (skip_sep (skip_spaces post)))) as [[? ?]|];
    reflexivity.
Qed.

Lemma group_after_year_2 (y post : jsstring) :
  group (after_year y post) 2
  = fst <$> digits4 (skip_spaces (skip_sep (skip_spaces post))).
Proof.
  unfold after_year.
  destruct (digits4 (skip_spaces (skip_sep (skip_spaces post)))) as [[? ?]|];
    reflexivity.
Qed.

Lemma has_four_digits_tail (u : N) (s : jsstring) :
  has_four_digits s -> has_four_digits (u :: s).
Proof.
  intros (pre & y & post & -> & Hy). now exists (u :: pre), y, post.
Qed.

Lemma find_year_None (s : jsstring) :
  ~ has_four_digits s -> find_year s = None.
Proof.
  induction s as [|u r IH]; intros Hno; cbn [find_year].
  - reflexivity.
  - destruct (digits4 (u :: r)) as [[y post]|] eqn:E.
    + exfalso. apply Hno. apply digits4_split in E as [E Hy].
      exists [], y, post. now split.
    + apply IH. intros H. apply Hno. now apply has_four_digits_tail.
Qed.

Lemma find_year_Some (s : jsstring) (m : MatchState) :
  find_year s = Some m ->
  exists pre y post, s = pre ++ y ++ post /\ four_digits y /\ m = after_year y post.
Proof.
  induction s as [|u r IH]; cbn [find_year].
  - simpl. discriminate.
  - destruct (digits4 (u :: r)) as [[y post]|] eqn:E.
    + intros [= <-]. apply digits4_split in E as [E Hy].
      now exists [], y, post.
    + intros (pre & y & post & -> & Hy & ->)%IH. now exists (u :: pre), y, post.
Qed.

(** The match starts at the leftmost four digits in a row. *)
Lemma find_year_first (pre y post : jsstring) :
  four_digits y -> ~ has_four_digits (pre ++ take 3 y) ->
  find_year (pre ++ y ++ post) = Some (after_year y post).
Proof.
  intros Hy. induction pre as [|u pre IH]; intros Hfirst.
  - cbn [app]. destruct y as [|a y']; [destruct Hy; discriminate|].
    cbn [app find_year]. change (a :: y' ++ post) with ((a :: y') ++ post).
    now rewrite (digits4_app _ _ Hy).
  - cbn [app find_year].
    destruct (digits4 (u :: pre ++ y ++ post)) as [[y' r]|] eqn:E.
    + exfalso. apply Hfirst. apply digits4_split in E as [E [Hlen Hd]].
      exists [], y', (drop 4 ((u :: pre) ++ take 3 y)). split; [|now split].
      assert (Hl : (4 <= length ((u :: pre) ++ take 3 y))%nat).
      { destruct Hy as [Hl _]. rewrite length_app, length_take, Hl. cbn [length]. lia. }
      assert (E' : ((u :: pre) ++ take 3 y) ++ (drop 3 y ++ post) = y' ++ r).
      { rewrite <- E, <- app_assoc. cbn [app].
        now rewrite (app_assoc (take 3 y)), take_drop. }
      apply (f_equal (take 4)) in E'.
      rewrite take_app_le in E' by exact Hl.
      rewrite (take_app_le y') in E' by lia.
      rewrite (take_ge y') in E' by lia.
      cbn [app]. rewrite <- E'. symmetry. apply take_drop.
    + apply IH. intros H. apply Hfirst. now apply has_four_digits_tail.
Qed.

Lemma has_four_digits_scan (s : jsstring) :
  has_four_digits s <-> find_year s <> None.
Proof.
  split.
  - intros H E. revert H. induction s as [|u r IH]; cbn [find_year] in E.
    + intros (pre & y & post & Hs & Hy).
      apply four_digits_head in Hy as (a & y' & -> & _).
      destruct pre; discriminate.
    + destruct (digits4 (u :: r)) as [[y post]|] eqn:Ed; [discriminate|].
      intros ([|v pre] & y & post & Hs & Hy).
      * cbn [app] in Hs. rewrite Hs, (digits4_app _ _ Hy) in Ed. discriminate.
      * injection Hs as -> ->. apply (IH E). now exists pre, y, post.
  - intros H. destruct (find_year s) as [m|] eqn:E; [|congruence].
    apply find_year_Some in E as (pre & y & post & -> & Hy & _).
    now exists pre, y, post.
Qed.

Lemma no_four_digits_scan (s : jsstring) :
  find_year s = None -> ~ has_four_digits s.
Proof. intros E H. now apply has_four_digits_scan in H. Qed.

(** ** The fields [extractParameters] sets *)

Lemma Number_toString_nonempty (z : Z) : truthy (Number_toString z) = true.
Proof.
  unfold Number_toString. destruct (Z.to_int z) as [d|d].
  - destruct d; reflexivity.
  - reflexivity.
Qed.

(** The year fields come from the match alone. *)
Lemma extractParameters_years (now : Z) (prompt : jsstring) :
  startYear (extractParameters now prompt)
  = (m ← find_year prompt; group m 1) /\
  endYear (extractParameters now prompt)
  = ((fun m => or_else (group m 2) (Number_toString now)) <$> find_year prompt).
Proof.
  unfold extractParameters. rewrite exec_yearRegExp.
  destruct (find_year prompt) as [m|]; cbv zeta; split_checks; split; reflexivity.
Qed.

(** Both year fields absent, or both present and non-empty. *)
Lemma extractParameters_years_cases (now : Z) (prompt : jsstring) :
  let p := extractParameters now prompt in
  (startYear p = None /\ endYear p = None) \/
  (exists s e, startYear p = Some s /\ endYear p = Some e /\
               truthy s = true /\ truthy e = true).
Proof.
  cbv zeta. destruct (extractParameters_years now prompt) as [-> ->].
  destruct (find_year prompt) as [m|] eqn:E; [right | left; now split].
  apply find_year_Some in E as (pre & y & post & _ & Hy & ->).
  exists y, (or_else (group (after_year y post) 2) (Number_toString now)).
  cbn [mbind option_bind fmap option_fmap option_map].
  rewrite group_after_year_1. repeat split.
  - now apply four_digits_nonempty.
  - unfold or_else. destruct (group (after_year y post) 2) as [y2|].
    + destruct (truthy y2) eqn:T; [exact T | apply Number_toString_nonempty].
    + apply Number_toString_nonempty.
Qed.

(** C2, as the specification words it, fails: "12345" holds no run of
    exactly four digits (its one run of digits is five long), and yet the
    pattern, which has no boundary on either side, finds 1234 in it. *)
Lemma year_inside_five_digits :
  ~ run_of_exactly_four_digits (js "12345") /\
  startYear (extractParameters 2026 (js "12345")) = Some (js "1234") /\
  endYear (extractParameters 2026 (js "12345")) = Some (js "2026").
Proof.
  split; [|vm_compute; split; reflexivity].
  intros (pre & y & post & E & [Hlen Hd] & Hpre & Hpost).
  destruct y as [|a [|b [|c [|d [|? ?]]]]]; try discriminate Hlen.
  destruct pre as [|u [|v pre]].
  - vm_compute in E. injection E as <- <- <- <- <-.
    specialize (Hpost _ _ eq_refl). discriminate Hpost.
  - vm_compute in E. injection E as <- <- <- <- <- E.
    specialize (Hpre [] _ eq_refl). discriminate Hpre.
  - apply (f_equal (@length N)) in E. cbn [length app] in E.
    rewrite length_app in E. cbn [length] in E.
    change (length (js "12345")) with 5%nat in E. lia.
Qed.

(** C2 (amended): year detection. The pattern finds four digits in a
    row, whether or not more digits stand before or after them. A prompt
    that holds no four digits in a row gets neither [startYear] nor
    [endYear]. When the leftmost four digits in a row are [y],
    [startYear] is [y]; [endYear] is the second four digits in a row that
    follow [y] after optional white space, an optional "to" or hyphen and
    optional white space, and the current year written in decimal when no
    such four digits follow. *)
Theorem year_detection (now : Z) (prompt : jsstring) :
  let p := extractParameters now prompt in
  (~ has_four_digits prompt -> startYear p = None /\ endYear p = None) /\
  (forall pre y post,
     prompt = pre ++ y ++ post -> four_digits y ->
     ~ has_four_digits (pre ++ take 3 y) ->
     startYear p = Some y /\
     (forall y2, second_run post y2 -> endYear p = Some y2) /\
     ((forall y2, ~ second_run post y2) -> endYear p = Some (Number_toString now))).
Proof.
  cbv zeta. destruct (extractParameters_years now prompt) as [-> ->]. split.
  - intros H. now rewrite (find_year_None _ H).
  - intros pre y post -> Hy Hfirst.
    rewrite (find_year_first _ _ post Hy Hfirst).
    cbn [mbind option_bind fmap option_fmap option_map].
    rewrite group_after_year_1, group_after_year_2. split; [reflexivity|]. split.
    + intros y2 Hrun.
      assert (Hy2 : four_digits y2)
        by (destruct Hrun as (? & ? & ? & ? & _ & _ & _ & _ & H); exact H).
      apply second_run_scan in Hrun as (r & ->).
      cbn [fmap option_fmap option_map fst]. unfold or_else.
      now rewrite (four_digits_nonempty _ Hy2).
    + intros Hno.
      destruct (digits4 (skip_spaces (skip_sep (skip_spaces post))))
        as [[y2 r]|] eqn:E; [|reflexivity].
      exfalso. apply (Hno y2). apply second_run_scan. now exists r.
Qed.

(** Three prompts: 2001, then " to " and 2020; 1990 with nothing after
    it, so the current year; and no four digits in a row. *)
Lemma year_detection_example :
  (let p := extractParameters 2026 (js "rainfall data 2001 to 2020") in
   startYear p = Some (js "2001") /\ endYear p = Some (js "2020")) /\
  (let p := extractParameters 2026 (js "population trends 1990") in
   startYear p = Some (js "1990") /\ endYear p = Some (js "2026")) /\
  (let p := extractParameters 2026 (js "rainfall in 123 days") in
   startYear p = None /\ endYear p = None).
Proof.
  cbv zeta. split; [|split].
  - destruct (year_detection 2026 (js "rainfall data 2001 to 2020")) as [_ H].
    destruct (H (js "rainfall data ") (js "2001") (js " to 2020"))
      as (Hs & He & _).
    + reflexivity.
    + split; reflexivity.
    + apply no_four_digits_scan. reflexivity.
    + split; [exact Hs|]. apply He.
      exists (js " "), (js "to"), (js " "), [].
      repeat split; try reflexivity. right; left; reflexivity.
  - destruct (year_detection 2026 (js "population trends 1990")) as [_ H].
    destruct (H (js "population trends ") (js "1990") [])
      as (Hs & _ & He).
    + reflexivity.
    + split; reflexivity.
    + apply no_four_digits_scan. reflexivity.
    + split; [exact Hs|]. apply He.
      intros y2 (r & Hr)%second_run_scan. discriminate Hr.
  - destruct (year_detection 2026 (js "rainfall in 123 days")) as [H _].
    apply H. apply no_four_digits_scan. reflexivity.
Defined.

(** The four digits may stand inside a longer run of digits, and the
    second run may follow with nothing in between. *)
Example year_inside_longer_run :
  let p := extractParameters 2026 (js "12345678") in
  startYear p = Some (js "1234") /\ endYear p = Some (js "5678").
Proof. vm_compute. split; reflexivity. Qed.

Example year_without_second_run :
  let p := extractParameters 2026 (js "population trends 1990") in
  startYear p = Some (js "1990") /\ endYear p = Some (js "2026").
Proof. vm_compute. split; reflexivity. Qed.

(** ** [generateResponse] *)

Lemma truthy_app (a b : jsstring) : truthy a = true -> truthy (a ++ b) = true.
Proof. destruct a; [discriminate | reflexivity]. Qed.

Lemma truthy_nonempty (s : jsstring) : truthy s = true <-> s <> [].
Proof. destruct s; simpl; split; congruence. Qed.

Lemma generateResponse_weather storage prompt params locationId :
  has_tag params "temperature" \/ has_tag params "rainfall" ->
  generateResponse storage prompt params locationId
  = weather_1 ++ locationName storage locationId ++ weather_2
      ++ clause (js " from ") (startYear params)
      ++ clause (js " to ") (endYear params) ++ weather_3.
Proof.
  intros H. unfold generateResponse.
  replace (dataTypes_includes params (js "temperature")
           || dataTypes_includes params (js "rainfall")) with true.
  - unfold locationName, or_else.
    destruct (getLocation locationId storage); reflexivity.
  - symmetry. apply orb_true_iff.
    destruct H as [H|H]; [left|right]; now apply dataTypes_includes_has_tag.
Qed.

Lemma generateResponse_demographics storage prompt params locationId :
  ~ has_tag params "temperature" -> ~ has_tag params "rainfall" ->
  has_tag params "population" \/ has_tag params "demographics" ->
  generateResponse storage prompt params locationId
  = demographics_1 ++ locationName storage locationId ++ demographics_2.
Proof.
  intros Ht Hr H. unfold generateResponse.
  apply dataTypes_includes_false in Ht, Hr. rewrite Ht, Hr. cbn [orb].
  replace (dataTypes_includes params (js "population")
           || dataTypes_includes params (js "demographics")) with true.
  - unfold locationName, or_else.
    destruct (getLocation locationId storage); reflexivity.
  - symmetry. apply orb_true_iff.
    destruct H as [H|H]; [left|right]; now apply dataTypes_includes_has_tag.
Qed.

Lemma generateResponse_generic storage prompt params locationId :
  ~ has_tag params "temperature" -> ~ has_tag params "rainfall" ->
  ~ has_tag params "population" -> ~ has_tag params "demographics" ->
  generateResponse storage prompt params locationId
  = generic_1 ++ locationName storage locationId ++ generic_2
      ++ prompt ++ generic_3.
Proof.
  intros Ht Hr Hp Hd. unfold generateResponse.
  apply dataTypes_includes_false in Ht, Hr, Hp, Hd.
  rewrite Ht, Hr, Hp, Hd. cbn [orb].
  unfold locationName, or_else.
  destruct (getLocation locationId storage); reflexivity.
Qed.



Example end_to_end_text :
  let prompt := js "Show me rainfall patterns from 2001 to 2020" in
  let r := generateResponse san_francisco_store prompt
             (extractParameters 2026 prompt) 1 in
  includes r (js "Weather Analysis for San Francisco") = true /\
  includes r (js "Based on historical data from 2001 to 2020, here's what I found:")
  = true.
Proof. vm_compute. split; reflexivity. Qed.

(** C7: in the Generic Analysis branch the result holds the prompt as it
    was given, code unit for code unit, between two fixed texts: nothing is
    escaped or removed. *)
Theorem generic_embeds_prompt (storage : MemStorage) (prompt : jsstring)
    (params : ExtractedParameters) (locationId : Z) :
  ~ has_tag params "temperature" -> ~ has_tag params "rainfall" ->
  ~ has_tag params "population" -> ~ has_tag params "demographics" ->
  exists pre post,
    generateResponse storage prompt params locationId = pre ++ prompt ++ post /\
    pre = generic_1 ++ locationName storage locationId ++ generic_2 /\
    post = generic_3.
Proof.
  intros Ht Hr Hp Hd.
  exists (generic_1 ++ locationName storage locationId ++ generic_2), generic_3.
  rewrite (generateResponse_generic _ _ _ _ Ht Hr Hp Hd).
  now rewrite <- !app_assoc.
Qed.

Lemma no_tag_by_check (params : ExtractedParameters) (k : string) :
  dataTypes_includes params (js k) = false -> ~ has_tag params k.
Proof. apply dataTypes_includes_false. Qed.

Lemma generic_embeds_prompt_example :
  let prompt := js "<script>alert('x')</script> & <b>hi</b>" in
  exists pre post,
    generateResponse new_MemStorage prompt (extractParameters 2026 prompt) 7
    = pre ++ prompt ++ post /\
    pre = generic_1 ++ locationName new_MemStorage 7 ++ generic_2 /\
    post = generic_3.
Proof.
  cbv zeta.
  apply (generic_embeds_prompt new_MemStorage
           (js "<script>alert('x')</script> & <b>hi</b>")
           (extractParameters 2026 (js "<script>alert('x')</script> & <b>hi</b>")) 7);
    apply no_tag_by_check; reflexivity.
Defined.

(** C10: [extractParameters] sets [startYear] and [endYear] together, for
    every prompt: one is present exactly when the other is, and both are
    then non-empty. So the Weather Analysis sentence of such parameters
    has either no year clause or both " from startYear" and " to endYear". *)
Theorem years_set_together (now : Z) (prompt : jsstring) :
  let p := extractParameters now prompt in
  (is_Some (startYear p) <-> is_Some (endYear p)) /\
  (forall storage locationId,
     has_tag p "temperature" \/ has_tag p "rainfall" ->
     let name := locationName storage locationId in
     let r := generateResponse storage prompt p locationId in
     (startYear p = None /\ endYear p = None /\
      r = weather_1 ++ name ++ weather_2 ++ weather_3) \/
     (exists s e, startYear p = Some s /\ endYear p = Some e /\
        r = weather_1 ++ name ++ weather_2
              ++ js " from " ++ s ++ js " to " ++ e ++ weather_3)).
Proof.
  cbv zeta. split.
  - destruct (extractParameters_years_cases now prompt)
      as [[-> ->] | (s & e & -> & -> & _)]; split; intros H; try exact H; eauto.
  - intros storage locationId H. rewrite (generateResponse_weather _ _ _ _ H).
    destruct (extractParameters_years_cases now prompt)
      as [[Hs He] | (s & e & Hs & He & Ts & Te)].
    + left. rewrite Hs, He. auto.
    + right. exists s, e. rewrite Hs, He. repeat split.
      unfold clause. rewrite Ts, Te. now rewrite <- !app_assoc.
Qed.

Lemma years_set_together_example :
  let prompt := js "average temperature since 1999" in
  let p := extractParameters 2026 prompt in
  exists s e, startYear p = Some s /\ endYear p = Some e /\
    generateResponse new_MemStorage prompt p 1
    = weather_1 ++ js "the selected location" ++ weather_2
        ++ js " from " ++ s ++ js " to " ++ e ++ weather_3.
Proof.
  cbv zeta.
  destruct (years_set_together 2026 (js "average temperature since 1999")) as [_ H].
  destruct (H new_MemStorage 1%Z) as [(E & _) | H'].
  - left. exists [js "temperature"]. split; [reflexivity | now left].
  - discriminate E.
  - exact H'.
Defined.

(** ** [generateVisualizationData] *)

Lemma generateVisualizationData_temperature prompt params :
  has_tag params "temperature" ->
  generateVisualizationData prompt params
  = generateVisualizationData []
      {| startYear := None; endYear := None;
         dataTypes := Some [js "temperature"];
         aggregation := None; timeframe := None |}.
Proof.
  intros H%dataTypes_includes_has_tag. unfold generateVisualizationData.
  now rewrite H.
Qed.

Lemma generateVisualizationData_rainfall prompt params :
  ~ has_tag params "temperature" -> has_tag params "rainfall" ->
  generateVisualizationData prompt params
  = generateVisualizationData []
      {| startYear := None; endYear := None;
         dataTypes := Some [js "rainfall"];
         aggregation := None; timeframe := None |}.
Proof.
  intros Ht%dataTypes_includes_false Hr%dataTypes_includes_has_tag.
  unfold generateVisualizationData. now rewrite Ht, Hr.
Qed.

Lemma generateVisualizationData_null prompt params :
  ~ has_tag params "temperature" -> ~ has_tag params "rainfall" ->
  generateVisualizationData prompt params = JNull.
Proof.
  intros Ht%dataTypes_includes_false Hr%dataTypes_includes_false.
  unfold generateVisualizationData. now rewrite Ht, Hr.
Qed.

(** C4: [generateVisualizationData] checks "temperature" first. With that
    tag the result is the line chart: the twelve month labels Jan to Dec
    and twelve fixed temperatures (so it is for ["temperature",
    "rainfall"]). Without it and with "rainfall" the result is the bar
    chart: the same labels and twelve fixed rainfall values. With neither
    (so for ["population"]) the result is null. *)
Theorem chart_selection (prompt : jsstring) (params : ExtractedParameters) :
  let v := generateVisualizationData prompt params in
  (has_tag params "temperature" ->
     get v "type" = Some (JString (js "line")) /\
     chart_labels v = Some (JArray months) /\
     chart_values v = Some (JArray (map JNumber
       [52; 54; 57; 60; 63; 66; 67; 68; 69; 65; 58; 53]%float))) /\
  (~ has_tag params "temperature" -> has_tag params "rainfall" ->
     get v "type" = Some (JString (js "bar")) /\
     chart_labels v = Some (JArray months) /\
     chart_values v = Some (JArray (map JNumber
       [4.5; 3.8; 3.2; 1.5; 0.7; 0.2; 0.1; 0.2; 0.4; 1.8; 3.1; 4.2]%float))) /\
  (~ has_tag params "temperature" -> ~ has_tag params "rainfall" -> v = JNull) /\
  (dataTypes params = Some [js "temperature"; js "rainfall"] ->
     get v "type" = Some (JString (js "line"))) /\
  (dataTypes params = Some [js "population"] -> v = JNull) /\
  months = map (fun m => JString (js m))
             ["Jan"; "Feb"; "Mar"; "Apr"; "May"; "Jun";
              "Jul"; "Aug"; "Sep"; "Oct"; "Nov"; "Dec"]%string /\
  length months = 12%nat.
Proof.
  cbv zeta. repeat split.
  - now rewrite (generateVisualizationData_temperature _ _ H).
  - now rewrite (generateVisualizationData_temperature _ _ H).
  - now rewrite (generateVisualizationData_temperature _ _ H).
  - now rewrite (generateVisualizationData_rainfall _ _ H H0).
  - now rewrite (generateVisualizationData_rainfall _ _ H H0).
  - now rewrite (generateVisualizationData_rainfall _ _ H H0).
  - apply generateVisualizationData_null.
  - intros H. rewrite generateVisualizationData_temperature; [reflexivity|].
    exists [js "temperature"; js "rainfall"]. split; [exact H | now left].
  - intros H. apply generateVisualizationData_null;
      apply no_tag_by_check; unfold dataTypes_includes; now rewrite H.
Qed.

Lemma chart_selection_example :
  let p := extractParameters 2026 (js "Temperature and rainfall in 2020") in
  get (generateVisualizationData [] p) "type" = Some (JString (js "line")).
Proof.
  cbv zeta.
  destruct (chart_selection []
              (extractParameters 2026 (js "Temperature and rainfall in 2020")))
    as (_ & _ & _ & H & _).
  apply H. reflexivity.
Defined.

(** C5, as the specification words it, fails: the descriptor has no
    top-level [labels] (nor [series]); both sit under [data]. *)
Lemma specified_chart_shape_fails :
  ~ specified_chart_shape
      (generateVisualizationData (js "temperature")
         (extractParameters 2026 (js "temperature"))).
Proof. intros (_ & (labels & H & _) & _). vm_compute in H. discriminate. Qed.

(** C5 (amended): every chart descriptor [generateVisualizationData]
    produces has the shape [{ type: "line" | "bar", data: { labels:
    string[12], datasets: [{ label: string, data: number[12], ... }] } }]:
    the twelve labels and the one-element array [datasets] are fields of
    the top-level [data], and the element names its twelve numbers [data]. *)
Theorem chart_descriptor_shape (prompt : jsstring) (params : ExtractedParameters) :
  generateVisualizationData prompt params <> JNull ->
  nested_chart_shape (generateVisualizationData prompt params).
Proof.
  intros Hv.
  destruct (dataTypes_includes params (js "temperature")) eqn:Et.
  - apply dataTypes_includes_has_tag in Et.
    rewrite (generateVisualizationData_temperature _ _ Et).
    split; [left; reflexivity|]. eexists. split; [reflexivity|]. split.
    + eexists. split; [reflexivity|]. eexists. repeat split; reflexivity.
    + eexists. split; [reflexivity|]. split; [eexists; reflexivity|].
      eexists. split; [reflexivity|]. eexists. repeat split; reflexivity.
  - apply dataTypes_includes_false in Et.
    destruct (dataTypes_includes params (js "rainfall")) eqn:Er.
    + apply dataTypes_includes_has_tag in Er.
      rewrite (generateVisualizationData_rainfall _ _ Et Er).
      split; [right; reflexivity|]. eexists. split; [reflexivity|]. split.
      * eexists. split; [reflexivity|]. eexists. repeat split; reflexivity.
      * eexists. split; [reflexivity|]. split; [eexists; reflexivity|].
        eexists. split; [reflexivity|]. eexists. repeat split; reflexivity.
    + apply dataTypes_includes_false in Er.
      now rewrite (generateVisualizationData_null _ _ Et Er) in Hv.
Qed.

Lemma chart_descriptor_shape_example :
  nested_chart_shape
    (generateVisualizationData (js "precipitation")
       (extractParameters 2026 (js "precipitation"))).
Proof.
  apply (chart_descriptor_shape (js "precipitation")
           (extractParameters 2026 (js "precipitation"))).
  vm_compute. discriminate.
Defined.

(** ** [MemStorage]: ids and retrieval *)

Lemma kind_eqb_eq (a b : kind) : kind_eqb a b = true <-> a = b.
Proof. destruct a, b; simpl; split; congruence. Qed.

(** One create: the record takes the counter of its kind as id, that
    counter grows by one, the others stay, the record can be retrieved,
    and so can every record retrieved before under a smaller id. *)
Lemma perform_step (c : call) (s0 : MemStorage) :
  let r := fst (perform c s0) in
  let s1 := snd (perform c s0) in
  id_of r = counter (kind_of r) s0 /\
  counter (kind_of r) s1 = (id_of r + 1)%Z /\
  (forall k, k <> kind_of r -> counter k s1 = counter k s0) /\
  retrieved s1 r /\
  (forall r', retrieved s0 r' -> (id_of r' < counter (kind_of r') s0)%Z ->
              retrieved s1 r').
Proof.
  destruct c as [d i|d i|d i]; cbn -[lookup insert]; repeat split;
    try (intros [] Hk; cbn; congruence);
    try apply lookup_insert_eq;
    intros [l|q|v] H Hlt; cbn -[lookup insert] in *;
    unfold getLocation, getQuery in *; cbn -[lookup insert] in *;
    try exact H; rewrite lookup_insert_ne by lia; exact H.
Qed.

Lemma perform_all_cons (c : call) (cs : list call) (s0 : MemStorage) :
  perform_all (c :: cs) s0
  = (fst (perform c s0) :: fst (perform_all cs (snd (perform c s0))),
     snd (perform_all cs (snd (perform c s0)))).
Proof.
  cbn [perform_all]. destruct (perform c s0) as [r s1]. cbn [fst snd].
  destruct (perform_all cs s1) as [rs s]. reflexivity.
Qed.

Lemma counter_step (c : call) (s0 : MemStorage) (k : kind) :
  (counter k s0 <= counter k (snd (perform c s0)))%Z.
Proof.
  destruct (perform_step c s0) as (Hid & Hnext & Hother & _).
  destruct (kind_eqb k (kind_of (fst (perform c s0)))) eqn:E.
  - apply kind_eqb_eq in E. subst k. lia.
  - rewrite Hother; [lia|]. intros ->.
    assert (kind_eqb (kind_of (fst (perform c s0)))
              (kind_of (fst (perform c s0))) = true) by now apply kind_eqb_eq.
    congruence.
Qed.

(** Any run of creates from any store: counters never go down, every
    record created takes an id between the counter at the start and the
    counter at the end and can be retrieved at the end, what could be
    retrieved at the start still can, and the ids of each kind ascend. *)
Lemma perform_all_inv (cs : list call) (s0 : MemStorage) :
  let rs := fst (perform_all cs s0) in
  let s := snd (perform_all cs s0) in
  (forall k, (counter k s0 <= counter k s)%Z) /\
  (forall r, In r rs ->
     (counter (kind_of r) s0 <= id_of r < counter (kind_of r) s)%Z /\
     retrieved s r) /\
  (forall r', retrieved s0 r' -> (id_of r' < counter (kind_of r') s0)%Z ->
              retrieved s r') /\
  (forall k, StronglySorted Z.lt (ids_of_kind k rs)).
Proof.
  cbv zeta. revert s0. induction cs as [|c cs IH]; intros s0.
  - cbn. repeat split; try lia; try tauto. intros k. constructor.
  - rewrite perform_all_cons. cbn [fst snd].
    destruct (perform_step c s0) as (Hid & Hnext & Hother & Hget & Hkeep).
    cbv zeta in *.
    destruct (IH (snd (perform c s0))) as (Hmono & Hin & Hkeep' & Hsorted).
    pose proof (counter_step c s0) as Hstep.
    split; [|split; [|split]].
    + intros k. specialize (Hmono k). specialize (Hstep k). lia.
    + intros r [<- | Hr].
      * specialize (Hmono (kind_of (fst (perform c s0)))).
        split; [lia|]. apply Hkeep'; [exact Hget | lia].
      * destruct (Hin r Hr) as [Hb Hg]. specialize (Hstep (kind_of r)).
        split; [lia | exact Hg].
    + intros r' Hr' Hlt. apply Hkeep'.
      * now apply Hkeep.
      * specialize (Hstep (kind_of r')). lia.
    + intros k. unfold ids_of_kind in *. cbn [List.filter].
      destruct (kind_eqb (kind_of (fst (perform c s0))) k) eqn:E; [|apply Hsorted].
      cbn [map]. constructor; [apply Hsorted|].
      apply kind_eqb_eq in E. apply List.Forall_forall. intros i Hi.
      apply in_map_iff in Hi as (r & <- & Hr).
      apply filter_In in Hr as [Hr Hk]. apply kind_eqb_eq in Hk.
      destruct (Hin r Hr) as [Hb _]. rewrite Hk, <- E in Hb. lia.
Qed.

Lemma StronglySorted_lt_NoDup (l : list Z) : StronglySorted Z.lt l -> NoDup l.
Proof.
  induction 1 as [|a l Hs IH Hall]; constructor; [|exact IH].
  intros Ha%list_elem_of_In. rewrite List.Forall_forall in Hall.
  specialize (Hall a Ha). lia.
Qed.

(** C9: after any sequence of creates on a fresh store, the ids given
    within each kind (location, query, conversation) ascend strictly in
    the order of creation, starting at 1, and so are pairwise distinct;
    and every record a create returned is the record the store gives for
    its id at the end of the sequence. *)
Theorem ids_unique_increasing_and_retrievable (cs : list call) :
  let rs := fst (perform_all cs new_MemStorage) in
  let s := snd (perform_all cs new_MemStorage) in
  (forall k, StronglySorted Z.lt (ids_of_kind k rs) /\
             NoDup (ids_of_kind k rs) /\
             Forall (fun i => (1 <= i)%Z) (ids_of_kind k rs)) /\
  (forall r, In r rs -> retrieved s r).
Proof.
  cbv zeta.
  destruct (perform_all_inv cs new_MemStorage) as (_ & Hin & _ & Hsorted).
  cbv zeta in *. split.
  - intros k. split; [apply Hsorted|]. split.
    + apply StronglySorted_lt_NoDup, Hsorted.
    + apply List.Forall_forall. intros i Hi. unfold ids_of_kind in Hi.
      apply in_map_iff in Hi as (r & <- & Hr).
      apply filter_In in Hr as [Hr _]. destruct (Hin r Hr) as [Hb _].
      destruct (kind_of r); cbn in Hb; lia.
  - intros r Hr. now apply Hin.
Qed.

Example ids_example :
  let cs := [CreateLocation 10 {| InsertLocation.name := js "London";
                                  InsertLocation.latitude := None;
                                  InsertLocation.longitude := None;
                                  InsertLocation.type := js "map" |};
             CreateConversation 11 {| InsertConversation.locationId := 1;
                                      InsertConversation.sessionId := js "s" |};
             CreateLocation 12 {| InsertLocation.name := js "New York";
                                  InsertLocation.latitude := None;
                                  InsertLocation.longitude := None;
                                  InsertLocation.type := js "manual" |}] in
  let rs := fst (perform_all cs new_MemStorage) in
  ids_of_kind KLocation rs = [1; 2]%Z /\
  ids_of_kind KConversation rs = [1]%Z /\
  ids_of_kind KQuery rs = [].
Proof. vm_compute. repeat split; reflexivity. Qed.

(** ** Totality and determinism *)

Lemma generateResponse_nonempty storage prompt params locationId :
  generateResponse storage prompt params locationId <> [].
Proof.
  apply truthy_nonempty. unfold generateResponse.
  destruct (_ || _); [|destruct (_ || _)]; now apply truthy_app.
Qed.

Example empty_prompt :
  extractParameters 2026 [] = no_params /\
  generateVisualizationData [] (extractParameters 2026 []) = JNull /\
  generateResponse new_MemStorage [] (extractParameters 2026 []) 0
  = generic_1 ++ js "the selected location" ++ generic_2 ++ generic_3.
Proof. vm_compute. repeat split; reflexivity. Qed.

Lemma extractParameters_without_year (now now' : Z) (prompt : jsstring) :
  ~ has_four_digits prompt ->
  extractParameters now prompt = extractParameters now' prompt.
Proof.
  intros H. unfold extractParameters.
  now rewrite exec_yearRegExp, (find_year_None _ H).
Qed.

Lemma generateResponse_reads_one_location storage storage' prompt params locationId :
  getLocation locationId storage = getLocation locationId storage' ->
  generateResponse storage prompt params locationId
  = generateResponse storage' prompt params locationId.
Proof. intros H. unfold generateResponse. now rewrite H. Qed.

(** ** The functions at run time: strings and parameter records *)

Lemma includes_strings (l : list jsstring) (k : jsstring) :
  existsb (Runtime.is_string_value k) (map Runtime.Str l) = array_includes l k.
Proof.
  unfold array_includes. induction l as [|x l IH]; [reflexivity|].
  cbn [map existsb Runtime.is_string_value]. now rewrite IH.
Qed.

Example string_iteration :
  Runtime.code_points (js "a📊b") = [js "a"; js "📊"; js "b"].
Proof. vm_compute. reflexivity. Qed.

(** A parameter record as an object: assignments and reads. *)

(** [fields] lists the properties in the order the program creates them:
    [dataTypes] is assigned while the two hints are still absent, and
    [aggregation] while [timeframe] is. *)
Lemma fields_assign_dataTypes (l : list jsstring) (q : ExtractedParameters) :
  aggregation q = None -> timeframe q = None ->
  Runtime.assign "dataTypes" (Runtime.strings l) (Runtime.fields q)
  = Runtime.fields (set_dataTypes l q).
Proof.
  destruct q as [[?|] [?|] [?|] [?|] [?|]]; cbn; intros; try discriminate;
    reflexivity.
Qed.

Lemma fields_assign_aggregation (a : jsstring) (q : ExtractedParameters) :
  timeframe q = None ->
  Runtime.assign "aggregation" (Runtime.Str a) (Runtime.fields q)
  = Runtime.fields (set_aggregation a q).
Proof.
  destruct q as [[?|] [?|] [?|] [?|] [?|]]; cbn; intros; try discriminate;
    reflexivity.
Qed.

Lemma fields_assign_timeframe (t : jsstring) (q : ExtractedParameters) :
  Runtime.assign "timeframe" (Runtime.Str t) (Runtime.fields q)
  = Runtime.fields (set_timeframe t q).
Proof. destruct q as [[?|] [?|] [?|] [?|] [?|]]; reflexivity. Qed.

Lemma fields_dataTypes (q : ExtractedParameters) :
  Runtime.lookup_property "dataTypes" (Runtime.fields q)
  = match dataTypes q with
    | Some l => Runtime.strings l
    | None => Runtime.Undefined
    end.
Proof. destruct q as [[?|] [?|] [?|] [?|] [?|]]; reflexivity. Qed.

Lemma fields_startYear (q : ExtractedParameters) :
  Runtime.lookup_property "startYear" (Runtime.fields q)
  = match startYear q with
    | Some y => Runtime.Str y
    | None => Runtime.Undefined
    end.
Proof. destruct q as [[?|] [?|] [?|] [?|] [?|]]; reflexivity. Qed.

Lemma fields_endYear (q : ExtractedParameters) :
  Runtime.lookup_property "endYear" (Runtime.fields q)
  = match endYear q with
    | Some y => Runtime.Str y
    | None => Runtime.Undefined
    end.
Proof. destruct q as [[?|] [?|] [?|] [?|] [?|]]; reflexivity. Qed.

Lemma hints_after_dataTypes (c : bool) (l : list jsstring)
    (q : ExtractedParameters) :
  aggregation q = None /\ timeframe q = None ->
  aggregation (if c then set_dataTypes l q else q) = None /\
  timeframe (if c then set_dataTypes l q else q) = None.
Proof. now destruct c. Qed.

Lemma timeframe_after_aggregation (c : bool) (a : jsstring)
    (q : ExtractedParameters) :
  timeframe q = None ->
  timeframe (if c then set_aggregation a q else q) = None.
Proof. now destruct c. Qed.

(** The statements of [extractParameters], one by one. *)

Section Steps.
Variables (q : ExtractedParameters) (c : bool).

Lemma step_tag (k : jsstring) :
  aggregation q = None -> timeframe q = None ->
  (if c then Runtime.assign "dataTypes" (Runtime.Arr [Runtime.Str k])
               (Runtime.fields q)
   else Runtime.fields q)
  = Runtime.fields (if c then set_dataTypes [k] q else q).
Proof.
  intros Ha Ht. destruct c; [|reflexivity].
  now rewrite <- (fields_assign_dataTypes _ _ Ha Ht).
Qed.

Lemma step_aggregation (a : jsstring) :
  timeframe q = None ->
  (if c then Runtime.assign "aggregation" (Runtime.Str a) (Runtime.fields q)
   else Runtime.fields q)
  = Runtime.fields (if c then set_aggregation a q else q).
Proof.
  intros Ht. destruct c; [|reflexivity]. now rewrite fields_assign_aggregation.
Qed.

Lemma step_timeframe (t : jsstring) :
  (if c then Runtime.assign "timeframe" (Runtime.Str t) (Runtime.fields q)
   else Runtime.fields q)
  = Runtime.fields (if c then set_timeframe t q else q).
Proof. destruct c; [|reflexivity]. now rewrite fields_assign_timeframe. Qed.

Lemma step_append (k : jsstring) :
  aggregation q = None -> timeframe q = None ->
  (if c then
     Runtime.bind
       (if Runtime.ToBoolean (Runtime.lookup_property "dataTypes" (Runtime.fields q))
        then Runtime.bind
               (Runtime.spread (Runtime.lookup_property "dataTypes" (Runtime.fields q)))
               (fun items => Runtime.ret (Runtime.Arr (items ++ [Runtime.Str k])))
        else Runtime.ret (Runtime.Arr [Runtime.Str k]))
       (fun dataTypes =>
          Runtime.ret (Runtime.assign "dataTypes" dataTypes (Runtime.fields q)))
   else Runtime.ret (Runtime.fields q))
  = Runtime.ret
      (Runtime.fields
         (if c then
            set_dataTypes match dataTypes q with
                          | Some l => l ++ [k]
                          | None => [k]
                          end q
          else q)).
Proof.
  intros Ha Ht. destruct c; [|reflexivity]. rewrite fields_dataTypes.
  rewrite <- (fields_assign_dataTypes _ _ Ha Ht).
  destruct (dataTypes q) as [l|]; [|reflexivity].
  unfold Runtime.strings. rewrite map_app. reflexivity.
Qed.

End Steps.

Lemma bind_mentions {B : Type} (prompt : jsstring) (k : string)
    (f : bool -> Runtime.M B) (w : Runtime.World) :
  Runtime.bind (Runtime.mentions (Runtime.Str prompt) k) f w
  = f (includes (toLowerCase prompt) (js k)) w.
Proof. reflexivity. Qed.

Lemma bind_either_mentions {B : Type} (prompt : jsstring) (k1 k2 : string)
    (f : bool -> Runtime.M B) (w : Runtime.World) :
  Runtime.bind
    (Runtime.either (Runtime.mentions (Runtime.Str prompt) k1)
                    (Runtime.mentions (Runtime.Str prompt) k2)) f w
  = f (includes (toLowerCase prompt) (js k1)
       || includes (toLowerCase prompt) (js k2)) w.
Proof.
  unfold Runtime.either, Runtime.mentions, Runtime.bind, Runtime.call_toLowerCase,
    Runtime.ret.
  destruct (includes (toLowerCase prompt) (js k1)); reflexivity.
Qed.

(** The first statement: the year fields. *)
Lemma bind_years {B : Type} (prompt : jsstring)
    (f : list (string * Runtime.any) -> Runtime.M B) (w : Runtime.World) :
  Runtime.bind (Runtime.call_match (Runtime.Str prompt) yearRegExp 2)
    (fun yearMatch =>
       Runtime.bind
         match yearMatch with
         | Some m =>
           Runtime.bind
             (Runtime.or_value (Runtime.capture m 2)
                (Runtime.bind Runtime.new_Date
                   (fun d => Runtime.ret
                      (Runtime.Str (Number_toString (Runtime.getFullYear d))))))
             (fun endYear =>
                Runtime.ret
                  (Runtime.assign "endYear" endYear
                     (Runtime.assign "startYear" (Runtime.capture m 1) [])))
         | None => Runtime.ret []
         end f) w
  = f (Runtime.fields
         match String_match prompt yearRegExp 2 with
         | Some m =>
           set_years (group m 1)
             (Some (or_else (group m 2)
                      (Number_toString (Runtime.getFullYear (Runtime.clock w)))))
             no_params
         | None => no_params
         end) w.
Proof.
  unfold Runtime.call_match. cbv beta iota delta [Runtime.bind Runtime.ret].
  rewrite exec_yearRegExp.
  destruct (find_year prompt) as [m|] eqn:E; [|reflexivity].
  apply find_year_Some in E as (pre & y & post & _ & Hy & ->).
  unfold Runtime.capture. rewrite group_after_year_1.
  unfold Runtime.or_value, or_else, Runtime.new_Date, Runtime.ret.
  destruct (group (after_year y post) 2) as [y2|];
    [cbn [Runtime.ToBoolean]; destruct (truthy y2)|]; reflexivity.
Qed.

(** On a string, [extractParameters] returns, and what it returns is the
    parameter record of the definition above as an object. *)
Lemma runs_extractParameters (w : Runtime.World) (prompt : jsstring) :
  Runtime.extractParameters (Runtime.Str prompt) w
  = (Runtime.Returns
       (Runtime.object_of
          (extractParameters (Runtime.getFullYear (Runtime.clock w)) prompt)),
     w).
Proof.
  unfold Runtime.extractParameters. cbv zeta.
  rewrite bind_years. cbv beta.
  set (q0 := match String_match prompt yearRegExp 2 with
             | Some m => _
             | None => _
             end).
  assert (H0 : aggregation q0 = None /\ timeframe q0 = None)
    by (subst q0; now destruct (String_match prompt yearRegExp 2)).
  rewrite bind_mentions; cbv beta. rewrite step_tag by apply H0.
  apply (hints_after_dataTypes (includes (toLowerCase prompt) (js "temperature"))
           [js "temperature"]) in H0.
  rewrite bind_either_mentions; cbv beta. rewrite step_append by apply H0.
  match goal with
  | |- context [Runtime.fields (if ?c then set_dataTypes ?l ?q else _)] =>
    apply (hints_after_dataTypes c l) in H0
  end.
  change (Runtime.bind (Runtime.ret ?a) ?f ?w) with (f a w); cbv beta.
  rewrite bind_mentions; cbv beta. rewrite step_tag by apply H0.
  apply (hints_after_dataTypes (includes (toLowerCase prompt) (js "population"))
           [js "population"]) in H0.
  rewrite bind_mentions; cbv beta. rewrite step_tag by apply H0.
  apply (hints_after_dataTypes (includes (toLowerCase prompt) (js "demographics"))
           [js "demographics"]) in H0.
  destruct H0 as [_ H0].
  rewrite bind_mentions; cbv beta. rewrite step_aggregation by apply H0.
  rewrite bind_mentions; cbv beta. rewrite step_timeframe.
  rewrite bind_either_mentions; cbv beta. rewrite step_timeframe.
  reflexivity.
Qed.

Ltac evaluate :=
  cbv beta iota zeta delta
    [Runtime.bind Runtime.ret Runtime.throw Runtime.getProperty
     Runtime.optional_includes].

Lemma bind_returns {A B : Type} (m : Runtime.M A) (f : A -> Runtime.M B)
    (w : Runtime.World) (a : A) :
  m w = (Runtime.Returns a, w) -> Runtime.bind m f w = f a w.
Proof. intros H. unfold Runtime.bind. now rewrite H. Qed.

Lemma either_returns (a b : Runtime.M bool) (w : Runtime.World) (x y : bool) :
  a w = (Runtime.Returns x, w) -> b w = (Runtime.Returns y, w) ->
  Runtime.either a b w = (Runtime.Returns (x || y), w).
Proof.
  intros Ha Hb. unfold Runtime.either. rewrite (bind_returns _ _ _ _ Ha).
  destruct x; [reflexivity | exact Hb].
Qed.

Lemma runs_dataTypes_includes (w : Runtime.World) (q : ExtractedParameters)
    (k : string) :
  Runtime.dataTypes_includes (Runtime.object_of q) k w
  = (Runtime.Returns (dataTypes_includes q (js k)), w).
Proof.
  unfold Runtime.dataTypes_includes, Runtime.object_of, dataTypes_includes.
  evaluate. rewrite fields_dataTypes.
  destruct (dataTypes q) as [l|]; [|reflexivity].
  unfold Runtime.strings. cbn [Runtime.ToBoolean]. now rewrite includes_strings.
Qed.

Lemma runs_clause (w : Runtime.World) (word : jsstring)
    (q : ExtractedParameters) :
  Runtime.clause word (Runtime.object_of q) "startYear" w
  = (Runtime.Returns (clause word (startYear q)), w) /\
  Runtime.clause word (Runtime.object_of q) "endYear" w
  = (Runtime.Returns (clause word (endYear q)), w).
Proof.
  unfold Runtime.clause, Runtime.object_of, clause. evaluate.
  rewrite fields_startYear, fields_endYear.
  destruct (startYear q) as [s|], (endYear q) as [e|];
    cbn [Runtime.ToBoolean Runtime.ToString];
    try destruct (truthy s); try destruct (truthy e); split; reflexivity.
Qed.

(** On a string and the object of a parameter record, [generateResponse]
    returns the text of the definition above. *)
Lemma runs_generateResponse (w : Runtime.World) (prompt : jsstring)
    (q : ExtractedParameters) (locationId : Z) :
  Runtime.generateResponse (Runtime.Str prompt) (Runtime.object_of q) locationId w
  = (Runtime.Returns (generateResponse (Runtime.storage w) prompt q locationId), w).
Proof.
  unfold Runtime.generateResponse, generateResponse.
  rewrite (bind_returns _ _ _ (getLocation locationId (Runtime.storage w)))
    by reflexivity.
  cbv zeta.
  rewrite (bind_returns _ _ _ _
             (either_returns _ _ _ _ _
                (runs_dataTypes_includes w q "temperature")
                (runs_dataTypes_includes w q "rainfall"))).
  destruct (dataTypes_includes q (js "temperature")
            || dataTypes_includes q (js "rainfall")).
  - destruct (runs_clause w (js " from ") q) as [Hs _].
    destruct (runs_clause w (js " to ") q) as [_ He].
    rewrite (bind_returns _ _ _ _ Hs), (bind_returns _ _ _ _ He). reflexivity.
  - rewrite (bind_returns _ _ _ _
               (either_returns _ _ _ _ _
                  (runs_dataTypes_includes w q "population")
                  (runs_dataTypes_includes w q "demographics"))).
    destruct (dataTypes_includes q (js "population")
              || dataTypes_includes q (js "demographics")); reflexivity.
Qed.

Lemma runs_generateVisualizationData (w : Runtime.World) (prompt : Runtime.any)
    (q : ExtractedParameters) (prompt' : jsstring) :
  Runtime.generateVisualizationData prompt (Runtime.object_of q) w
  = (Runtime.Returns (generateVisualizationData prompt' q), w).
Proof.
  unfold Runtime.generateVisualizationData, generateVisualizationData.
  rewrite (bind_returns _ _ _ _ (runs_dataTypes_includes w q "temperature")).
  destruct (dataTypes_includes q (js "temperature")); [reflexivity|].
  rewrite (bind_returns _ _ _ _ (runs_dataTypes_includes w q "rainfall")).
  destruct (dataTypes_includes q (js "rainfall")); reflexivity.
Qed.

(** ** The functions at run time: where they throw *)

(** A prompt that is not a string: [prompt.match] is not there to call. *)
Lemma extractParameters_throws (w : Runtime.World) (prompt : Runtime.any) :
  (forall s, prompt <> Runtime.Str s) ->
  Runtime.extractParameters prompt w = (Runtime.Throws, w).
Proof.
  intros H. destruct prompt; try reflexivity. now destruct (H s).
Qed.

(** [dataTypes] holding a value that is neither an array nor a string nor
    undefined nor null: [includes] is not there to call. *)
Lemma dataTypes_includes_throws (w : Runtime.World) (props : list (string * Runtime.any))
    (k : string) :
  (exists b, Runtime.lookup_property "dataTypes" props = Runtime.Bool b) \/
  (exists o, Runtime.lookup_property "dataTypes" props = Runtime.Obj o) ->
  Runtime.dataTypes_includes (Runtime.Obj props) k w = (Runtime.Throws, w).
Proof.
  unfold Runtime.dataTypes_includes. evaluate.
  intros [[b ->] | [o ->]]; reflexivity.
Qed.

Example generateResponse_throws :
  fst (Runtime.generateResponse (Runtime.Str (js "rainfall"))
         (Runtime.Obj [("dataTypes"%string, Runtime.Bool true)]) 1
         (world_at 0 2026 new_MemStorage))
  = Runtime.Throws /\
  fst (Runtime.generateVisualizationData (Runtime.Str (js "rainfall"))
         Runtime.Undefined (world_at 0 2026 new_MemStorage))
  = Runtime.Throws /\
  fst (Runtime.extractParameters Runtime.Null (world_at 0 2026 new_MemStorage))
  = Runtime.Throws.
Proof. repeat split; reflexivity. Qed.

(** ** The functions at run time: what they read and write *)

Section Frames.
Context {A B : Type}.

Lemma unchanged_ret (a : A) : unchanged (Runtime.ret a).
Proof. intros w. reflexivity. Qed.

Lemma unchanged_throw : unchanged (@Runtime.throw A).
Proof. intros w. reflexivity. Qed.

Lemma unchanged_bind (m : Runtime.M A) (f : A -> Runtime.M B) :
  unchanged m -> (forall a, unchanged (f a)) -> unchanged (Runtime.bind m f).
Proof.
  intros Hm Hf w. unfold Runtime.bind. specialize (Hm w).
  destruct (m w) as [[a|] w1]; cbn [snd] in Hm; subst w1; [apply Hf | reflexivity].
Qed.

Variable R : Runtime.World -> Runtime.World -> Prop.

Lemma same_ret (a : A) : same_in R (Runtime.ret a).
Proof. intros w w' _. reflexivity. Qed.

Lemma same_throw : same_in R (@Runtime.throw A).
Proof. intros w w' _. reflexivity. Qed.

Lemma same_bind (m : Runtime.M A) (f : A -> Runtime.M B) :
  unchanged m -> same_in R m -> (forall a, same_in R (f a)) ->
  same_in R (Runtime.bind m f).
Proof.
  intros Hu Hm Hf w w' HR. unfold Runtime.bind.
  pose proof (Hu w) as H1. pose proof (Hu w') as H2. specialize (Hm w w' HR).
  destruct (m w) as [o1 w1], (m w') as [o2 w2]. cbn [fst snd] in *. subst.
  destruct o2 as [a|]; [now apply Hf | reflexivity].
Qed.

End Frames.

Lemma unchanged_new_Date : unchanged Runtime.new_Date.
Proof. intros w. reflexivity. Qed.

Lemma unchanged_storage_getLocation (id : Z) :
  unchanged (Runtime.storage_getLocation id).
Proof. intros w. reflexivity. Qed.

Lemma same_storage_getLocation (id : Z) :
  same_in (same_location id) (Runtime.storage_getLocation id).
Proof. intros w w' H. exact (f_equal Runtime.Returns H). Qed.

(** Of the [Date] read from the clock, the year is all that is used. *)
Lemma same_current_year :
  same_in same_year
    (Runtime.bind Runtime.new_Date
       (fun d => Runtime.ret
          (Runtime.Str (Number_toString (Runtime.getFullYear d))))).
Proof.
  intros w w' H. cbv [Runtime.bind Runtime.new_Date Runtime.ret fst].
  now rewrite H.
Qed.

Lemma unchanged_current_year :
  unchanged
    (Runtime.bind Runtime.new_Date
       (fun d => Runtime.ret
          (Runtime.Str (Number_toString (Runtime.getFullYear d))))).
Proof. intros w. reflexivity. Qed.

Ltac pure_call v :=
  destruct v; first [apply unchanged_ret | apply unchanged_throw
                    | apply same_ret | apply same_throw].

Section Operations.
Variable R : Runtime.World -> Runtime.World -> Prop.

Lemma unchanged_getProperty (v : Runtime.any) (k : string) :
  unchanged (Runtime.getProperty v k).
Proof. pure_call v. Qed.

Lemma same_getProperty (v : Runtime.any) (k : string) :
  same_in R (Runtime.getProperty v k).
Proof. pure_call v. Qed.

Lemma unchanged_call_match (v : Runtime.any) (re : Matcher) (n : nat) :
  unchanged (Runtime.call_match v re n).
Proof. pure_call v. Qed.

Lemma same_call_match (v : Runtime.any) (re : Matcher) (n : nat) :
  same_in R (Runtime.call_match v re n).
Proof. pure_call v. Qed.

Lemma unchanged_call_toLowerCase (v : Runtime.any) :
  unchanged (Runtime.call_toLowerCase v).
Proof. pure_call v. Qed.

Lemma same_call_toLowerCase (v : Runtime.any) :
  same_in R (Runtime.call_toLowerCase v).
Proof. pure_call v. Qed.

Lemma unchanged_optional_includes (v : Runtime.any) (k : jsstring) :
  unchanged (Runtime.optional_includes v k).
Proof. pure_call v. Qed.

Lemma same_optional_includes (v : Runtime.any) (k : jsstring) :
  same_in R (Runtime.optional_includes v k).
Proof. pure_call v. Qed.

Lemma unchanged_spread (v : Runtime.any) : unchanged (Runtime.spread v).
Proof. pure_call v. Qed.

Lemma same_spread (v : Runtime.any) : same_in R (Runtime.spread v).
Proof. pure_call v. Qed.

End Operations.

(** A computation put together from reads: nothing is written, and the
    outcome is the same wherever the reads give the same. *)
Ltac frame :=
  repeat first
    [ apply unchanged_ret | apply unchanged_throw
    | apply same_ret | apply same_throw
    | apply unchanged_current_year | apply same_current_year
    | apply unchanged_new_Date | apply unchanged_storage_getLocation
    | apply same_storage_getLocation
    | apply unchanged_getProperty | apply same_getProperty
    | apply unchanged_call_match | apply same_call_match
    | apply unchanged_call_toLowerCase | apply same_call_toLowerCase
    | apply unchanged_optional_includes | apply same_optional_includes
    | apply unchanged_spread | apply same_spread
    | apply unchanged_bind; [|intros ?]
    | apply same_bind; [| |intros ?]
    | match goal with
      | |- unchanged (if ?c then _ else _) => destruct c
      | |- same_in _ (if ?c then _ else _) => destruct c
      | |- unchanged (match ?x with Some _ => _ | None => _ end) => destruct x
      | |- same_in _ (match ?x with Some _ => _ | None => _ end) => destruct x
      end ].

Lemma frame_extractParameters (prompt : Runtime.any) :
  unchanged (Runtime.extractParameters prompt) /\
  same_in same_year (Runtime.extractParameters prompt).
Proof.
  unfold Runtime.extractParameters, Runtime.mentions, Runtime.either,
    Runtime.or_value.
  cbv zeta. split; frame.
Qed.

Lemma frame_generateResponse (prompt params : Runtime.any) (locationId : Z) :
  unchanged (Runtime.generateResponse prompt params locationId) /\
  same_in (same_location locationId)
    (Runtime.generateResponse prompt params locationId).
Proof.
  unfold Runtime.generateResponse, Runtime.dataTypes_includes, Runtime.either,
    Runtime.clause.
  cbv zeta. split; frame.
Qed.

Lemma frame_generateVisualizationData (prompt params : Runtime.any)
    (R : Runtime.World -> Runtime.World -> Prop) :
  unchanged (Runtime.generateVisualizationData prompt params) /\
  same_in R (Runtime.generateVisualizationData prompt params).
Proof.
  unfold Runtime.generateVisualizationData, Runtime.dataTypes_includes.
  split; frame.
Qed.

(** C6: on a prompt that is a string, whatever its code units (the empty
    string, no keyword, markup), none of the three functions throws.
    [extractParameters] returns an object; given the prompt and that
    object, [generateResponse] returns a text, which is not the empty
    string, and [generateVisualizationData] returns its value; the world
    is as before. What each returns is what the definitions above give.
    [generateResponse] also returns a non-empty text for the prompt and
    the object of any other parameter record. *)
Theorem never_throws_on_strings (w : Runtime.World) (prompt : jsstring)
    (locationId : Z) :
  (exists params response chart,
     Runtime.extractParameters (Runtime.Str prompt) w
     = (Runtime.Returns params, w) /\
     Runtime.generateResponse (Runtime.Str prompt) params locationId w
     = (Runtime.Returns response, w) /\
     Runtime.generateVisualizationData (Runtime.Str prompt) params w
     = (Runtime.Returns chart, w) /\
     response <> [] /\
     let year := Runtime.getFullYear (Runtime.clock w) in
     params = Runtime.object_of (extractParameters year prompt) /\
     response = generateResponse (Runtime.storage w) prompt
                  (extractParameters year prompt) locationId /\
     chart = generateVisualizationData prompt (extractParameters year prompt)) /\
  (forall q : ExtractedParameters, exists response,
     Runtime.generateResponse (Runtime.Str prompt) (Runtime.object_of q)
       locationId w
     = (Runtime.Returns response, w) /\
     response <> []).
Proof.
  split.
  - eexists _, _, _. split; [apply runs_extractParameters|].
    split; [apply runs_generateResponse|].
    split; [apply (runs_generateVisualizationData _ _ _ prompt)|].
    split; [apply generateResponse_nonempty|].
    cbv zeta. repeat split.
  - intros q. eexists. split; [apply runs_generateResponse|].
    apply generateResponse_nonempty.
Qed.

(** C8: a call of one of the three functions changes nothing in the world
    (the clock, the store), and its outcome, a value or a throw, is the
    same in any two worlds that agree on what the claim pins:
    [extractParameters] for the same prompt in two worlds of the same
    calendar year, whatever the time of day and the store;
    [generateResponse] for the same prompt, parameters and location id in
    two worlds whose stores give the same for that id, whatever the
    clock; [generateVisualizationData] for the same prompt and parameters
    in any two worlds. For a prompt without four digits in a row
    [extractParameters] gives the same in any two worlds: the year is
    read for the [endYear] fallback only. *)
Theorem calls_agree (prompt params : Runtime.any) (locationId : Z)
    (w w' : Runtime.World) :
  (same_year w w' ->
   fst (Runtime.extractParameters prompt w)
   = fst (Runtime.extractParameters prompt w')) /\
  (same_location locationId w w' ->
   fst (Runtime.generateResponse prompt params locationId w)
   = fst (Runtime.generateResponse prompt params locationId w')) /\
  fst (Runtime.generateVisualizationData prompt params w)
  = fst (Runtime.generateVisualizationData prompt params w') /\
  (snd (Runtime.extractParameters prompt w) = w /\
   snd (Runtime.generateResponse prompt params locationId w) = w /\
   snd (Runtime.generateVisualizationData prompt params w) = w) /\
  (forall s, prompt = Runtime.Str s -> ~ has_four_digits s ->
   fst (Runtime.extractParameters prompt w)
   = fst (Runtime.extractParameters prompt w')).
Proof.
  split; [|split; [|split; [|split]]].
  - apply frame_extractParameters.
  - apply frame_generateResponse.
  - now apply (frame_generateVisualizationData prompt params (fun _ _ => True)).
  - split; [|split].
    + apply frame_extractParameters.
    + apply frame_generateResponse.
    + apply (frame_generateVisualizationData prompt params (fun _ _ => True)).
  - intros s -> H. rewrite !runs_extractParameters. cbn [fst].
    now rewrite (extractParameters_without_year _
                   (Runtime.getFullYear (Runtime.clock w')) _ H).
Qed.

(** Two calls, one at midnight on an empty store and one an hour later
    after a location was created: the same parameters; and the same
    response for location 2, which neither store holds. *)
Lemma calls_agree_example :
  let w := world_at 0 2026 new_MemStorage in
  let w' := world_at 3600000 2026 san_francisco_store in
  let prompt := Runtime.Str (js "population trends 1990") in
  fst (Runtime.extractParameters prompt w)
  = fst (Runtime.extractParameters prompt w') /\
  fst (Runtime.generateResponse prompt (Runtime.Obj []) 2 w)
  = fst (Runtime.generateResponse prompt (Runtime.Obj []) 2 w') /\
  fst (Runtime.extractParameters (Runtime.Str (js "annual precipitation")) w)
  = fst (Runtime.extractParameters (Runtime.Str (js "annual precipitation"))
           (world_at 3600000 2027 san_francisco_store)).
Proof.
  cbv zeta. split; [|split].
  - apply (calls_agree (Runtime.Str (js "population trends 1990"))
             (Runtime.Obj []) 2). reflexivity.
  - apply (calls_agree (Runtime.Str (js "population trends 1990"))
             (Runtime.Obj []) 2). reflexivity.
  - apply (calls_agree (Runtime.Str (js "annual precipitation"))
             (Runtime.Obj []) 2 _ _) with (s := js "annual precipitation").
    + reflexivity.
    + apply no_four_digits_scan. reflexivity.
Defined.

(** A call right after a call: the second finds the world the first
    left, and ends as the first did. *)
Lemma second_call_agrees {A : Type} (m : Runtime.M A) (w : Runtime.World) :
  unchanged m -> fst (m (snd (m w))) = fst (m w).
Proof. intros H. now rewrite H. Qed.

(** ** Keyword checks: what [includes] finds *)

Lemma startsWith_app (k post : jsstring) : startsWith (k ++ post) k = true.
Proof.
  induction k as [|a k IH]; [reflexivity|].
  cbn [app startsWith]. now rewrite N.eqb_refl.
Qed.

Lemma startsWith_prefix (s k : jsstring) :
  startsWith s k = true <-> exists post, s = k ++ post.
Proof.
  split.
  - intros H. exists (drop (length k) s). now apply startsWith_drop.
  - intros (post & ->). apply startsWith_app.
Qed.

(** [includes] is the search for a substring. *)
Lemma includes_occurs (s k : jsstring) :
  includes s k = true <-> occurs_in k s.
Proof.
  unfold occurs_in. induction s as [|u r IH]; cbn [includes].
  - rewrite startsWith_prefix. split.
    + intros (post & H). now exists [], post.
    + intros ([|? ?] & post & H); [|discriminate]. now exists post.
  - rewrite orb_true_iff, startsWith_prefix, IH. split.
    + intros [(post & ->) | (pre & post & ->)].
      * now exists [], post.
      * now exists (u :: pre), post.
    + intros ([|v pre] & post & H).
      * left. now exists post.
      * right. injection H as -> ->. now exists pre, post.
Qed.

Lemma mentions_occurs (prompt : jsstring) (k : string) :
  mentions prompt k = true <-> occurs_in (js k) (toLowerCase prompt).
Proof. apply includes_occurs. Qed.

Lemma mentions_not_occurs (prompt : jsstring) (k : string) :
  mentions prompt k = false <-> ~ occurs_in (js k) (toLowerCase prompt).
Proof.
  rewrite <- mentions_occurs. destruct (mentions prompt k); split; congruence.
Qed.

(** ** The topic and hint fields as tables *)

(** What one conditional assignment does to each field. *)
Lemma dataTypes_step (b : bool) (l : list jsstring) (p : ExtractedParameters) :
  dataTypes (if b then set_dataTypes l p else p)
  = if b then Some l else dataTypes p.
Proof. now destruct b. Qed.

Lemma dataTypes_other_step (b : bool) (p q : ExtractedParameters) :
  dataTypes q = dataTypes p -> dataTypes (if b then q else p) = dataTypes p.
Proof. now destruct b. Qed.

Lemma aggregation_step (b : bool) (a : jsstring) (p : ExtractedParameters) :
  aggregation (if b then set_aggregation a p else p)
  = if b then Some a else aggregation p.
Proof. now destruct b. Qed.

Lemma aggregation_other_step (b : bool) (p q : ExtractedParameters) :
  aggregation q = aggregation p -> aggregation (if b then q else p) = aggregation p.
Proof. now destruct b. Qed.

Lemma timeframe_step (b : bool) (t : jsstring) (p : ExtractedParameters) :
  timeframe (if b then set_timeframe t p else p)
  = if b then Some t else timeframe p.
Proof. now destruct b. Qed.

Lemma timeframe_other_step (b : bool) (p q : ExtractedParameters) :
  timeframe q = timeframe p -> timeframe (if b then q else p) = timeframe p.
Proof. now destruct b. Qed.

(** The four topic checks in source order amount to a priority list read
    from the last check to the first, with the one append. *)
Lemma dataTypes_table (now : Z) (prompt : jsstring) :
  dataTypes (extractParameters now prompt)
  = if mentions prompt "demographics" then Some [js "demographics"]
    else if mentions prompt "population" then Some [js "population"]
    else if mentions prompt "rainfall" || mentions prompt "precipitation"
    then Some (if mentions prompt "temperature"
               then [js "temperature"; js "rainfall"] else [js "rainfall"])
    else if mentions prompt "temperature" then Some [js "temperature"]
    else None.
Proof.
  unfold extractParameters, mentions. cbv zeta.
  rewrite !dataTypes_other_step by reflexivity.
  rewrite !dataTypes_step.
  assert (H0 : dataTypes
            match String_match prompt yearRegExp 2 with
            | Some m => set_years (group m 1)
                          (Some (or_else (group m 2) (Number_toString now))) no_params
            | None => no_params
            end = None) by now destruct (String_match prompt yearRegExp 2).
  rewrite H0.
  destruct (includes (toLowerCase prompt) (js "demographics")); [reflexivity|].
  destruct (includes (toLowerCase prompt) (js "population")); [reflexivity|].
  destruct (includes (toLowerCase prompt) (js "rainfall")
            || includes (toLowerCase prompt) (js "precipitation"));
    destruct (includes (toLowerCase prompt) (js "temperature")); reflexivity.
Qed.

Lemma hints_table (now : Z) (prompt : jsstring) :
  aggregation (extractParameters now prompt)
  = (if mentions prompt "average" then Some (js "average") else None) /\
  timeframe (extractParameters now prompt)
  = (if mentions prompt "yearly" || mentions prompt "annual"
     then Some (js "yearly")
     else if mentions prompt "monthly" then Some (js "monthly") else None).
Proof.
  unfold extractParameters, mentions. cbv zeta. split.
  - rewrite !aggregation_other_step by reflexivity.
    rewrite aggregation_step.
    rewrite !aggregation_other_step by reflexivity.
    now destruct (String_match prompt yearRegExp 2).
  - rewrite !timeframe_step.
    rewrite !timeframe_other_step by reflexivity.
    destruct (_ || _); [reflexivity|].
    destruct (includes (toLowerCase prompt) (js "monthly")); [reflexivity|].
    now destruct (String_match prompt yearRegExp 2).
Qed.

(** X1: [dataTypes] by the keywords that occur in the prompt, letter
    case aside. "demographics" gives ["demographics"] whatever else occurs;
    otherwise "population" gives ["population"]; otherwise "rainfall" or
    "precipitation" gives ["temperature", "rainfall"] when "temperature"
    occurs too and ["rainfall"] when not; otherwise "temperature" gives
    ["temperature"]; with none of the five words the field is absent. *)
Theorem dataTypes_by_keywords (now : Z) (prompt : jsstring) :
  let lower := toLowerCase prompt in
  let dt := dataTypes (extractParameters now prompt) in
  (occurs_in (js "demographics") lower -> dt = Some [js "demographics"]) /\
  (~ occurs_in (js "demographics") lower ->
   occurs_in (js "population") lower -> dt = Some [js "population"]) /\
  (~ occurs_in (js "demographics") lower -> ~ occurs_in (js "population") lower ->
   occurs_in (js "rainfall") lower \/ occurs_in (js "precipitation") lower ->
     (occurs_in (js "temperature") lower ->
        dt = Some [js "temperature"; js "rainfall"]) /\
     (~ occurs_in (js "temperature") lower -> dt = Some [js "rainfall"])) /\
  (~ occurs_in (js "demographics") lower -> ~ occurs_in (js "population") lower ->
   ~ occurs_in (js "rainfall") lower -> ~ occurs_in (js "precipitation") lower ->
     (occurs_in (js "temperature") lower -> dt = Some [js "temperature"]) /\
     (~ occurs_in (js "temperature") lower -> dt = None)).
Proof.
  cbv zeta. rewrite dataTypes_table. repeat split.
  - intros H%mentions_occurs. now rewrite H.
  - intros Hd%mentions_not_occurs Hp%mentions_occurs. now rewrite Hd, Hp.
  - intros Ht%mentions_occurs.
    apply mentions_not_occurs in H, H0. rewrite H, H0, Ht.
    destruct H1 as [Hr%mentions_occurs | Hr%mentions_occurs]; rewrite Hr;
      now rewrite ?orb_true_r.
  - intros Ht%mentions_not_occurs.
    apply mentions_not_occurs in H, H0. rewrite H, H0, Ht.
    destruct H1 as [Hr%mentions_occurs | Hr%mentions_occurs]; rewrite Hr;
      now rewrite ?orb_true_r.
  - intros Ht%mentions_occurs.
    apply mentions_not_occurs in H, H0, H1, H2. now rewrite H, H0, H1, H2, Ht.
  - intros Ht%mentions_not_occurs.
    apply mentions_not_occurs in H, H0, H1, H2. now rewrite H, H0, H1, H2, Ht.
Qed.

(** X2: whatever the prompt, [dataTypes] is absent or one of five lists:
    ["temperature"], ["rainfall"], ["temperature", "rainfall"],
    ["population"], ["demographics"]. It is never empty, never holds a tag
    twice, never holds "precipitation", and never mixes a weather tag with
    a population tag. *)
Theorem dataTypes_values (now : Z) (prompt : jsstring) :
  let dt := dataTypes (extractParameters now prompt) in
  dt = None \/ dt = Some [js "temperature"] \/ dt = Some [js "rainfall"] \/
  dt = Some [js "temperature"; js "rainfall"] \/
  dt = Some [js "population"] \/ dt = Some [js "demographics"].
Proof.
  cbv zeta. rewrite dataTypes_table.
  destruct (mentions prompt "demographics"); [tauto|].
  destruct (mentions prompt "population"); [tauto|].
  destruct (_ || _); destruct (mentions prompt "temperature"); tauto.
Qed.

(** X3: the two hint fields by the keywords that occur in the prompt,
    letter case aside. [aggregation] is "average" exactly when "average"
    occurs. [timeframe] is "yearly" when "yearly" or "annual" occurs, also
    when "monthly" occurs as well; it is "monthly" when only "monthly"
    occurs; it is absent otherwise. Neither depends on the current year. *)
Theorem hints_by_keywords (now : Z) (prompt : jsstring) :
  let lower := toLowerCase prompt in
  let p := extractParameters now prompt in
  (occurs_in (js "average") lower -> aggregation p = Some (js "average")) /\
  (~ occurs_in (js "average") lower -> aggregation p = None) /\
  (occurs_in (js "yearly") lower \/ occurs_in (js "annual") lower ->
     timeframe p = Some (js "yearly")) /\
  (~ occurs_in (js "yearly") lower -> ~ occurs_in (js "annual") lower ->
     (occurs_in (js "monthly") lower -> timeframe p = Some (js "monthly")) /\
     (~ occurs_in (js "monthly") lower -> timeframe p = None)).
Proof.
  cbv zeta. destruct (hints_table now prompt) as [-> ->]. repeat split.
  - intros H%mentions_occurs. now rewrite H.
  - intros H%mentions_not_occurs. now rewrite H.
  - intros [H%mentions_occurs | H%mentions_occurs]; rewrite H;
      now rewrite ?orb_true_r.
  - intros Hm%mentions_occurs. apply mentions_not_occurs in H, H0.
    now rewrite H, H0, Hm.
  - intros Hm%mentions_not_occurs. apply mentions_not_occurs in H, H0.
    now rewrite H, H0, Hm.
Qed.

Lemma hints_by_keywords_example :
  let p := extractParameters 2026 (js "Monthly and ANNUAL averages") in
  aggregation p = Some (js "average") /\ timeframe p = Some (js "yearly").
Proof.
  cbv zeta.
  destruct (hints_by_keywords 2026 (js "Monthly and ANNUAL averages"))
    as (Ha & _ & Hy & _).
  split.
  - apply Ha. apply mentions_occurs. reflexivity.
  - apply Hy. right. apply mentions_occurs. reflexivity.
Defined.

(** ** Letter case *)

Lemma toLowerCase_app (a b : jsstring) :
  toLowerCase (a ++ b) = toLowerCase a ++ toLowerCase b.
Proof. unfold toLowerCase. apply flat_map_app. Qed.

Lemma lower_unit_fixed (u : N) :
  ~ (65 <= u <= 90) -> ~ (192 <= u <= 222 /\ u <> 215) ->
  u <> 304 -> u <> 8490 -> lower_unit u = [u].
Proof.
  intros H1 H2 H3 H4. unfold lower_unit.
  destruct (N.leb_spec 65 u), (N.leb_spec u 90); cbn [andb]; try lia;
  destruct (N.leb_spec 192 u), (N.leb_spec u 222), (N.eqb_spec u 215);
    cbn [andb negb]; try lia;
  destruct (N.eqb_spec u 304), (N.eqb_spec u 8490); try lia; reflexivity.
Qed.

Lemma lower_unit_lower (u : N) : toLowerCase (lower_unit u) = lower_unit u.
Proof.
  unfold toLowerCase.
  assert (one : forall v, lower_unit v = [v] -> flat_map lower_unit [v] = [v])
    by (intros v Hv; cbn [flat_map]; now rewrite Hv).
  unfold lower_unit at 2 3.
  destruct (N.leb_spec 65 u), (N.leb_spec u 90); cbn [andb];
    try (apply one, lower_unit_fixed; lia);
  destruct (N.leb_spec 192 u), (N.leb_spec u 222), (N.eqb_spec u 215);
    cbn [andb negb];
    try (apply one, lower_unit_fixed; lia);
  destruct (N.eqb_spec u 304), (N.eqb_spec u 8490);
    try reflexivity; apply one, lower_unit_fixed; lia.
Qed.

Lemma toLowerCase_idempotent (s : jsstring) :
  toLowerCase (toLowerCase s) = toLowerCase s.
Proof.
  induction s as [|u r IH]; [reflexivity|].
  change (toLowerCase (u :: r)) with (lower_unit u ++ toLowerCase r).
  now rewrite toLowerCase_app, lower_unit_lower, IH.
Qed.

(** X4: keyword detection ignores letter case. Two prompts with the same
    lower-case form get the same [dataTypes], [aggregation] and
    [timeframe], whatever the current year; in particular a prompt and its
    own lower-case form do. *)
Theorem keywords_ignore_case (now now' : Z) (p q : jsstring) :
  toLowerCase p = toLowerCase q ->
  dataTypes (extractParameters now p) = dataTypes (extractParameters now' q) /\
  aggregation (extractParameters now p) = aggregation (extractParameters now' q) /\
  timeframe (extractParameters now p) = timeframe (extractParameters now' q) /\
  dataTypes (extractParameters now p)
  = dataTypes (extractParameters now' (toLowerCase p)).
Proof.
  intros H. rewrite !dataTypes_table.
  destruct (hints_table now p) as [-> ->].
  destruct (hints_table now' q) as [-> ->].
  unfold mentions. rewrite toLowerCase_idempotent, H. auto.
Qed.

Lemma keywords_ignore_case_example :
  dataTypes (extractParameters 2026 (js "POPULATION of Paris"))
  = dataTypes (extractParameters 1999 (js "Population of PARIS")).
Proof.
  apply (keywords_ignore_case 2026 1999 (js "POPULATION of Paris")
           (js "Population of PARIS")).
  vm_compute. reflexivity.
Defined.

(** ** The separator of a year range *)

Lemma has_four_digits_length (s : jsstring) :
  has_four_digits s -> (4 <= length s)%nat.
Proof.
  intros (pre & y & post & -> & Hlen & _). rewrite !length_app. lia.
Qed.

Lemma find_year_leading (y post : jsstring) :
  four_digits y -> find_year (y ++ post) = Some (after_year y post).
Proof.
  intros Hy. apply (find_year_first [] y post Hy).
  intros H%has_four_digits_length. cbn [app] in H.
  rewrite length_take in H. lia.
Qed.

Lemma years_of_leading (now : Z) (y post : jsstring) :
  four_digits y ->
  startYear (extractParameters now (y ++ post)) = Some y /\
  endYear (extractParameters now (y ++ post))
  = Some (or_else (fst <$> digits4 (skip_spaces (skip_sep (skip_spaces post))))
            (Number_toString now)).
Proof.
  intros Hy. destruct (extractParameters_years now (y ++ post)) as [-> ->].
  rewrite (find_year_leading _ _ Hy).
  cbn [mbind option_bind fmap option_fmap option_map].
  now rewrite group_after_year_1, group_after_year_2.
Qed.

(** X5: the word between two years is matched in lower case only, unlike
    the keywords. For any two runs of four digits [a] and [b], the prompt
    [a to b] gives [startYear = a] and [endYear = b], in whatever order the
    two years stand; the prompt [a TO b] gives [startYear = a] and the
    current year as [endYear]. *)
Theorem year_separator_case (now : Z) (a b : jsstring) :
  four_digits a -> four_digits b ->
  let lower := extractParameters now (a ++ js " to " ++ b) in
  let upper := extractParameters now (a ++ js " TO " ++ b) in
  startYear lower = Some a /\ endYear lower = Some b /\
  startYear upper = Some a /\ endYear upper = Some (Number_toString now).
Proof.
  intros Ha Hb. cbv zeta.
  destruct (years_of_leading now a (js " to " ++ b) Ha) as [-> ->].
  destruct (years_of_leading now a (js " TO " ++ b) Ha) as [-> ->].
  repeat split.
  - assert (Hrun : second_run (js " to " ++ b) b).
    { exists (js " "), (js "to"), (js " "), []. rewrite app_nil_r.
      repeat split; try reflexivity; try apply Hb. right; left; reflexivity. }
    apply second_run_scan in Hrun as (r & ->).
    cbn [fmap option_fmap option_map fst]. unfold or_else.
    now rewrite (four_digits_nonempty _ Hb).
  - destruct (four_digits_head _ Hb) as (d & b' & -> & _).
    reflexivity.
Qed.

Lemma year_separator_case_example :
  let lower := extractParameters 2026 (js "2020 to 2001") in
  let upper := extractParameters 2026 (js "2020 TO 2001") in
  startYear lower = Some (js "2020") /\ endYear lower = Some (js "2001") /\
  startYear upper = Some (js "2020") /\ endYear upper = Some (js "2026").
Proof.
  apply (year_separator_case 2026 (js "2020") (js "2001")); split; reflexivity.
Defined.

(** ** Extraction and response together *)

Lemma tags_of_list (params : ExtractedParameters) (l : list jsstring) (k : string) :
  dataTypes params = Some l ->
  dataTypes_includes params (js k) = array_includes l (js k).
Proof. intros H. unfold dataTypes_includes. now rewrite H. Qed.

(** X6: a population keyword overrides the weather keywords. When
    "population" or "demographics" occurs in the prompt (letter case
    aside), the response built from the extracted parameters is the
    Demographics Analysis text and there is no chart, also when
    "temperature", "rainfall" or "precipitation" occurs as well. *)
Theorem population_overrides_weather (now : Z) (storage : MemStorage)
    (prompt : jsstring) (locationId : Z) :
  occurs_in (js "population") (toLowerCase prompt) \/
  occurs_in (js "demographics") (toLowerCase prompt) ->
  let params := extractParameters now prompt in
  generateResponse storage prompt params locationId
  = demographics_1 ++ locationName storage locationId ++ demographics_2 /\
  generateVisualizationData prompt params = JNull.
Proof.
  intros H. cbv zeta.
  assert (Hdt : dataTypes (extractParameters now prompt) = Some [js "population"] \/
                dataTypes (extractParameters now prompt) = Some [js "demographics"]).
  { rewrite dataTypes_table.
    destruct (mentions prompt "demographics") eqn:Ed; [now right|].
    destruct H as [H|H]; apply mentions_occurs in H; [|congruence].
    rewrite H. now left. }
  assert (Ht : ~ has_tag (extractParameters now prompt) "temperature").
  { apply no_tag_by_check.
    destruct Hdt as [E|E]; now rewrite (tags_of_list _ _ _ E). }
  assert (Hr : ~ has_tag (extractParameters now prompt) "rainfall").
  { apply no_tag_by_check.
    destruct Hdt as [E|E]; now rewrite (tags_of_list _ _ _ E). }
  split.
  - apply generateResponse_demographics; try assumption.
    destruct Hdt as [E|E]; [left|right]; eexists; (split; [exact E | now left]).
  - now apply generateVisualizationData_null.
Qed.

Lemma population_overrides_weather_example :
  let prompt := js "Temperature and rainfall vs population" in
  let params := extractParameters 2026 prompt in
  generateResponse new_MemStorage prompt params 3
  = demographics_1 ++ locationName new_MemStorage 3 ++ demographics_2 /\
  generateVisualizationData prompt params = JNull.
Proof.
  apply (population_overrides_weather 2026 new_MemStorage
           (js "Temperature and rainfall vs population") 3).
  left. apply mentions_occurs. vm_compute. reflexivity.
Defined.

(** X7: a chart comes with the Weather Analysis text and with no other.
    For any parameters, [generateVisualizationData] returns a descriptor
    (not null) exactly when the response of [generateResponse] opens with
    the Weather Analysis heading. *)
Theorem chart_iff_weather_text (storage : MemStorage) (prompt : jsstring)
    (params : ExtractedParameters) (locationId : Z) :
  generateVisualizationData prompt params <> JNull <->
  exists more, generateResponse storage prompt params locationId
               = weather_1 ++ more.
Proof.
  rewrite <- startsWith_prefix.
  destruct (dataTypes_includes params (js "temperature")) eqn:Et;
    [|destruct (dataTypes_includes params (js "rainfall")) eqn:Er].
  - apply dataTypes_includes_has_tag in Et.
    rewrite (generateVisualizationData_temperature _ _ Et).
    rewrite generateResponse_weather by now left.
    rewrite startsWith_app. split; [reflexivity | intros _; discriminate].
  - apply dataTypes_includes_false in Et. apply dataTypes_includes_has_tag in Er.
    rewrite (generateVisualizationData_rainfall _ _ Et Er).
    rewrite generateResponse_weather by now right.
    rewrite startsWith_app. split; [reflexivity | intros _; discriminate].
  - apply dataTypes_includes_false in Et, Er.
    rewrite (generateVisualizationData_null _ _ Et Er).
    assert (Hno : startsWith (generateResponse storage prompt params locationId)
                    weather_1 = false).
    { destruct (dataTypes_includes params (js "population")
                || dataTypes_includes params (js "demographics")) eqn:Ep.
      - rewrite generateResponse_demographics; try assumption.
        + vm_compute. reflexivity.
        + apply orb_true_iff in Ep as [E|E]; [left|right];
            now apply dataTypes_includes_has_tag.
      - apply orb_false_iff in Ep as [Ep Ed].
        apply dataTypes_includes_false in Ep, Ed.
        rewrite generateResponse_generic by assumption.
        vm_compute. reflexivity. }
    rewrite Hno. split; [congruence | discriminate].
Qed.

(** X8: the name of a stored location goes into every response as it is.
    Take any sequence of creates on a fresh store and any location one of
    them returned, with a non-empty name. In the store at the end, the
    response for that location's id holds the name code unit for code unit
    between two texts, whatever the prompt and the parameters. *)
Theorem response_names_location (cs : list call) (l : Location.t)
    (prompt : jsstring) (params : ExtractedParameters) :
  In (ALocation l) (fst (perform_all cs new_MemStorage)) ->
  Location.name l <> [] ->
  let storage := snd (perform_all cs new_MemStorage) in
  locationName storage (Location.id l) = Location.name l /\
  exists pre post,
    generateResponse storage prompt params (Location.id l)
    = pre ++ Location.name l ++ post.
Proof.
  intros Hin Hname. cbv zeta.
  destruct (perform_all_inv cs new_MemStorage) as (_ & Hall & _).
  cbv zeta in Hall. destruct (Hall _ Hin) as [_ Hget]. cbn [retrieved] in Hget.
  assert (Hn : locationName (snd (perform_all cs new_MemStorage)) (Location.id l)
               = Location.name l).
  { unfold locationName. rewrite Hget.
    apply truthy_nonempty in Hname. now rewrite Hname. }
  split; [exact Hn|]. rewrite <- Hn.
  destruct (dataTypes_includes params (js "temperature")
            || dataTypes_includes params (js "rainfall")) eqn:Ew;
    [|destruct (dataTypes_includes params (js "population")
                || dataTypes_includes params (js "demographics")) eqn:Ep].
  - eexists _, _. apply generateResponse_weather.
    apply orb_true_iff in Ew as [E|E]; [left|right];
      now apply dataTypes_includes_has_tag.
  - apply orb_false_iff in Ew as [Et Er]. apply dataTypes_includes_false in Et, Er.
    eexists _, _. apply generateResponse_demographics; try assumption.
    apply orb_true_iff in Ep as [E|E]; [left|right];
      now apply dataTypes_includes_has_tag.
  - apply orb_false_iff in Ew as [Et Er]. apply orb_false_iff in Ep as [Ep Ed].
    apply dataTypes_includes_false in Et, Er, Ep, Ed.
    eexists _, _. now apply generateResponse_generic.
Qed.

Lemma response_names_location_example :
  let cs := [CreateLocation 5 {| InsertLocation.name := js "<i>Oslo</i>";
                                 InsertLocation.latitude := None;
                                 InsertLocation.longitude := None;
                                 InsertLocation.type := js "manual" |}] in
  let storage := snd (perform_all cs new_MemStorage) in
  locationName storage 1 = js "<i>Oslo</i>" /\
  exists pre post,
    generateResponse storage (js "hello") no_params 1
    = pre ++ js "<i>Oslo</i>" ++ post.
Proof.
  cbv zeta.
  apply (response_names_location
           [CreateLocation 5 {| InsertLocation.name := js "<i>Oslo</i>";
                                InsertLocation.latitude := None;
                                InsertLocation.longitude := None;
                                InsertLocation.type := js "manual" |}]
           {| Location.id := 1; Location.name := js "<i>Oslo</i>";
              Location.latitude := None; Location.longitude := None;
              Location.type := js "manual"; Location.createdAt := 5 |}
           (js "hello") no_params).
  - left. reflexivity.
  - discriminate.
Defined.

(** ** [MemStorage]: the ids given and the ids known *)

Lemma ids_of_kind_cons (k : kind) (r : created) (rs : list created) :
  ids_of_kind k (r :: rs)
  = if kind_eqb (kind_of r) k then id_of r :: ids_of_kind k rs
    else ids_of_kind k rs.
Proof.
  unfold ids_of_kind. cbn [List.filter].
  now destruct (kind_eqb (kind_of r) k).
Qed.

(** From any store: the ids of a kind are the counter of that kind and
    its successors, and the counter ends after the last of them. *)
Lemma ids_from_counter (k : kind) (cs : list call) (s0 : MemStorage) :
  let rs := fst (perform_all cs s0) in
  let n := Z.of_nat (length (ids_of_kind k rs)) in
  ids_of_kind k rs = seqZ (counter k s0) n /\
  counter k (snd (perform_all cs s0)) = (counter k s0 + n)%Z.
Proof.
  cbv zeta. revert s0. induction cs as [|c cs IH]; intros s0.
  - cbn. split; [reflexivity | lia].
  - rewrite perform_all_cons. cbn [fst snd]. rewrite ids_of_kind_cons.
    destruct (perform_step c s0) as (Hid & Hnext & Hother & _). cbv zeta in *.
    destruct (IH (snd (perform c s0))) as [IHids IHcnt].
    destruct (kind_eqb (kind_of (fst (perform c s0))) k) eqn:E.
    + apply kind_eqb_eq in E. subst k.
      set (n := length (ids_of_kind _ (fst (perform_all cs _)))) in *.
      cbn [length]. fold n. rewrite Nat2Z.inj_succ. split; [|lia].
      rewrite seqZ_cons by lia. rewrite Hid at 1. f_equal.
      rewrite IHids at 1. f_equal; lia.
    + assert (Hk : k <> kind_of (fst (perform c s0))).
      { intros ->. rewrite (proj2 (kind_eqb_eq _ _) eq_refl) in E. discriminate. }
      rewrite (Hother k Hk) in IHids, IHcnt. now split.
Qed.

(** X9: ids are given without gaps. After any sequence of creates on a
    fresh store, the ids of the records of one kind are 1, 2, ..., n in the
    order of creation, where n is the number of records of that kind, and
    the counter of the kind stands at n + 1; creates of the other kinds
    take no id of this one. *)
Theorem ids_consecutive (cs : list call) (k : kind) :
  let rs := fst (perform_all cs new_MemStorage) in
  let n := Z.of_nat (length (ids_of_kind k rs)) in
  ids_of_kind k rs = seqZ 1 n /\
  (forall i id, ids_of_kind k rs !! i = Some id -> id = (1 + Z.of_nat i)%Z) /\
  counter k (snd (perform_all cs new_MemStorage)) = (n + 1)%Z.
Proof.
  cbv zeta. destruct (ids_from_counter k cs new_MemStorage) as [Hids Hcnt].
  cbv zeta in *.
  assert (H1 : counter k new_MemStorage = 1%Z) by now destruct k.
  rewrite H1 in *. split; [exact Hids|]. split; [|lia].
  intros i id Hi. rewrite Hids in Hi. apply lookup_seqZ in Hi. lia.
Qed.

Lemma dense_new : dense new_MemStorage.
Proof.
  assert (E : forall (A : Type) (id : Z),
            is_Some ((∅ : gmap Z A) !! id) <-> (1 <= id < 1)%Z).
  { intros A id. rewrite lookup_empty. split; [intros [? ?]; discriminate | lia]. }
  unfold dense.
  split; [intros id; apply E|]. split; [intros id; apply E|].
  split; [intros id; apply E|]. cbn. lia.
Qed.

Lemma dense_insert {A : Type} (m : gmap Z A) (n : Z) (v : A) :
  (1 <= n)%Z ->
  (forall id, is_Some (m !! id) <-> (1 <= id < n)%Z) ->
  forall id, is_Some (<[n := v]> m !! id) <-> (1 <= id < n + 1)%Z.
Proof.
  intros Hn H id. rewrite lookup_insert_is_Some, H. split.
  - intros [<- | [_ ?]]; lia.
  - intros Hid. destruct (decide (n = id)) as [->|Hne]; [now left | right].
    split; [exact Hne | lia].
Qed.

Lemma dense_step (c : call) (s : MemStorage) :
  dense s -> dense (snd (perform c s)).
Proof.
  intros (Hl & Hq & Hc & Bl & Bq & Bc).
  destruct c as [d i|d i|d i]; unfold dense; cbn -[lookup insert].
  - split; [now apply dense_insert|]. repeat (split; [assumption|]). lia.
  - split; [assumption|]. split; [now apply dense_insert|].
    repeat (split; [assumption|]). lia.
  - split; [assumption|]. split; [assumption|].
    split; [now apply dense_insert|]. repeat (split; [assumption|]). lia.
Qed.

Lemma dense_all (cs : list call) (s : MemStorage) :
  dense s -> dense (snd (perform_all cs s)).
Proof.
  revert s. induction cs as [|c cs IH]; intros s Hs; [exact Hs|].
  rewrite perform_all_cons. cbn [snd]. apply IH. now apply dense_step.
Qed.

(** X10: the store knows exactly the ids it gave. After any sequence of
    creates on a fresh store, [getLocation] answers for an id exactly when
    the id is between 1 and the number of locations created, and likewise
    [getQuery] for queries; for 0, a negative id or an id beyond the count
    the answer is undefined. *)
Theorem known_ids (cs : list call) (id : Z) :
  let rs := fst (perform_all cs new_MemStorage) in
  let s := snd (perform_all cs new_MemStorage) in
  (is_Some (getLocation id s)
   <-> (1 <= id <= Z.of_nat (length (ids_of_kind KLocation rs)))%Z) /\
  (is_Some (getQuery id s)
   <-> (1 <= id <= Z.of_nat (length (ids_of_kind KQuery rs)))%Z).
Proof.
  cbv zeta.
  destruct (dense_all cs new_MemStorage dense_new) as (Hl & Hq & _).
  destruct (ids_from_counter KLocation cs new_MemStorage) as [_ Cl].
  destruct (ids_from_counter KQuery cs new_MemStorage) as [_ Cq].
  cbv zeta in *. cbn [counter] in Cl, Cq.
  change (currentLocationId new_MemStorage) with 1%Z in Cl.
  change (currentQueryId new_MemStorage) with 1%Z in Cq.
  unfold getLocation, getQuery. rewrite Hl, Hq, Cl, Cq. split; lia.
Qed.

(** ** [MemStorage] in insertion order *)

Lemma list_to_map_get {A : Type} (m : JsMap.t A) (k : Z) :
  (list_to_map m : gmap Z A) !! k = JsMap.get k m.
Proof.
  induction m as [|[k' v] r IH]; [apply lookup_empty|].
  cbn [list_to_map foldr JsMap.get curry fst snd]. rewrite lookup_insert.
  destruct (Z.eqb_spec k k') as [->|Hne].
  - now rewrite decide_True.
  - rewrite decide_False by congruence. exact IH.
Qed.

Lemma get_set {A : Type} (m : JsMap.t A) (k k' : Z) (v : A) :
  JsMap.get k (JsMap.set k' v m)
  = if (k =? k')%Z then Some v else JsMap.get k m.
Proof.
  induction m as [|[k0 v0] r IH]; cbn [JsMap.set JsMap.get].
  - reflexivity.
  - destruct (Z.eqb_spec k' k0) as [->|Hne]; cbn [JsMap.get].
    + now destruct (k =? k0)%Z.
    + rewrite IH. destruct (Z.eqb_spec k k0) as [->|?]; [|reflexivity].
      destruct (Z.eqb_spec k0 k'); [congruence | reflexivity].
Qed.

Lemma list_to_map_set {A : Type} (m : JsMap.t A) (k : Z) (v : A) :
  (list_to_map (JsMap.set k v m) : gmap Z A) = <[k := v]> (list_to_map m).
Proof.
  apply map_eq. intros i. rewrite lookup_insert, !list_to_map_get, get_set.
  destruct (Z.eqb_spec i k) as [->|Hne].
  - now rewrite decide_True.
  - now rewrite decide_False by congruence.
Qed.

(** A create on the ordered object is the create on the object without
    order. *)
Lemma forget_perform (c : call) (s : Ordered.MemStorage) :
  fst (Ordered.perform c s) = fst (perform c (forget s)) /\
  forget (snd (Ordered.perform c s)) = snd (perform c (forget s)).
Proof.
  destruct c as [d i|d i|d i]; (split; [reflexivity|]);
    unfold forget; cbn -[list_to_map insert]; now rewrite list_to_map_set.
Qed.

Lemma ordered_perform_all_cons (c : call) (cs : list call) (s0 : Ordered.MemStorage) :
  Ordered.perform_all (c :: cs) s0
  = (fst (Ordered.perform c s0)
       :: fst (Ordered.perform_all cs (snd (Ordered.perform c s0))),
     snd (Ordered.perform_all cs (snd (Ordered.perform c s0)))).
Proof.
  cbn [Ordered.perform_all]. destruct (Ordered.perform c s0) as [r s1].
  cbn [fst snd]. destruct (Ordered.perform_all cs s1) as [rs s]. reflexivity.
Qed.

Lemma forget_perform_all (cs : list call) (s : Ordered.MemStorage) :
  fst (Ordered.perform_all cs s) = fst (perform_all cs (forget s)) /\
  forget (snd (Ordered.perform_all cs s)) = snd (perform_all cs (forget s)).
Proof.
  revert s. induction cs as [|c cs IH]; intros s; [now split|].
  rewrite ordered_perform_all_cons, perform_all_cons. cbn [fst snd].
  destruct (forget_perform c s) as [-> <-].
  destruct (IH (snd (Ordered.perform c s))) as [-> ->]. now split.
Qed.

Lemma forget_getLocation (id : Z) (s : Ordered.MemStorage) :
  getLocation id (forget s) = Ordered.getLocation id s.
Proof. apply list_to_map_get. Qed.

Lemma forget_getQuery (id : Z) (s : Ordered.MemStorage) :
  getQuery id (forget s) = Ordered.getQuery id s.
Proof. apply list_to_map_get. Qed.

Lemma forget_new : forget Ordered.new_MemStorage = new_MemStorage.
Proof. reflexivity. Qed.

(** A key above all keys goes to the end. *)
Lemma set_fresh {A : Type} (m : JsMap.t A) (k : Z) (v : A) :
  below k m -> JsMap.set k v m = m ++ [(k, v)].
Proof.
  unfold below. induction m as [|[k0 v0] r IH]; intros H; [reflexivity|].
  apply Forall_cons in H as [Hk Hr]. cbn [fst] in Hk. cbn [JsMap.set app].
  destruct (Z.eqb_spec k k0); [lia|]. now rewrite IH.
Qed.

Lemma below_set {A : Type} (m : JsMap.t A) (k : Z) (v : A) :
  below k m -> below (k + 1) (JsMap.set k v m).
Proof.
  intros H. rewrite (set_fresh _ _ _ H). unfold below in *.
  apply Forall_app. split.
  - eapply Forall_impl; [exact H|]. intros e He. cbn beta in *. lia.
  - repeat constructor. cbn. lia.
Qed.

Lemma bounded_new : bounded Ordered.new_MemStorage.
Proof. repeat split; constructor. Qed.

(** One create on a bounded object adds its record at the end of the
    values of its [Map] and leaves the other two [Map]s. *)
Lemma ordered_step (c : call) (s : Ordered.MemStorage) :
  bounded s ->
  let r := fst (Ordered.perform c s) in
  let s' := snd (Ordered.perform c s) in
  bounded s' /\
  JsMap.values (Ordered.queries s')
  = JsMap.values (Ordered.queries s) ++ queries_of [r] /\
  JsMap.values (Ordered.conversations s')
  = JsMap.values (Ordered.conversations s) ++ conversations_of [r].
Proof.
  intros (Bl & Bq & Bc). unfold JsMap.values.
  destruct c as [d i|d i|d i]; cbn -[JsMap.set]; unfold bounded;
    cbn -[JsMap.set]; rewrite ?app_nil_r.
  - repeat split; try assumption. now apply below_set.
  - rewrite (set_fresh _ _ _ Bq), map_app. repeat split; try assumption.
    rewrite <- (set_fresh _ _ _ Bq). now apply below_set.
  - rewrite (set_fresh _ _ _ Bc), map_app. repeat split; try assumption.
    rewrite <- (set_fresh _ _ _ Bc). now apply below_set.
Qed.

Lemma ordered_values (cs : list call) (s0 : Ordered.MemStorage) :
  bounded s0 ->
  let rs := fst (Ordered.perform_all cs s0) in
  let s := snd (Ordered.perform_all cs s0) in
  bounded s /\
  JsMap.values (Ordered.queries s)
  = JsMap.values (Ordered.queries s0) ++ queries_of rs /\
  JsMap.values (Ordered.conversations s)
  = JsMap.values (Ordered.conversations s0) ++ conversations_of rs.
Proof.
  cbv zeta. revert s0. induction cs as [|c cs IH]; intros s0 H0.
  - cbn. now rewrite !app_nil_r.
  - rewrite ordered_perform_all_cons. cbn [fst snd].
    destruct (ordered_step c s0 H0) as (H1 & Eq & Ec). cbv zeta in *.
    destruct (IH _ H1) as (H & Eq' & Ec'). split; [exact H|].
    rewrite Eq', Ec', Eq, Ec, <- !app_assoc.
    unfold queries_of, conversations_of. cbn [flat_map].
    now rewrite !app_nil_r.
Qed.

Lemma In_queries_of (rs : list created) (q : Query.t) :
  In q (queries_of rs) <-> In (AQuery q) rs.
Proof.
  unfold queries_of. rewrite in_flat_map. split.
  - intros ([l|q'|c] & Hr & Hq); cbn in Hq; try tauto.
    destruct Hq as [<-|[]]. exact Hr.
  - intros H. exists (AQuery q). split; [exact H | now left].
Qed.

Lemma In_conversations_of (rs : list created) (c : Conversation.t) :
  In c (conversations_of rs) <-> In (AConversation c) rs.
Proof.
  unfold conversations_of. rewrite in_flat_map. split.
  - intros ([l|q|c'] & Hr & Hc); cbn in Hc; try tauto.
    destruct Hc as [<-|[]]. exact Hr.
  - intros H. exists (AConversation c). split; [exact H | now left].
Qed.

Lemma ids_of_queries (rs : list created) :
  map Query.id (queries_of rs) = ids_of_kind KQuery rs.
Proof.
  induction rs as [|[l|q|c] rs IH]; [reflexivity| | |];
    rewrite ids_of_kind_cons; cbn; now rewrite <- IH.
Qed.

Lemma ids_of_conversations (rs : list created) :
  map Conversation.id (conversations_of rs) = ids_of_kind KConversation rs.
Proof.
  induction rs as [|[l|q|c] rs IH]; [reflexivity| | |];
    rewrite ids_of_kind_cons; cbn; now rewrite <- IH.
Qed.

Lemma StronglySorted_map_filter {A : Type} (f : A -> Z) (p : A -> bool)
    (l : list A) :
  StronglySorted Z.lt (map f l) -> StronglySorted Z.lt (map f (List.filter p l)).
Proof.
  induction l as [|a l IH]; [trivial|]. cbn [map List.filter].
  intros H. apply StronglySorted_inv in H as [Hs Ha].
  destruct (p a); [|now apply IH]. cbn [map]. constructor; [now apply IH|].
  rewrite List.Forall_forall in *. intros x Hx. apply Ha.
  apply in_map_iff in Hx as (y & <- & Hy). apply filter_In in Hy as [Hy _].
  now apply in_map.
Qed.

Lemma ordered_ids_sorted (cs : list call) (k : kind) :
  StronglySorted Z.lt
    (ids_of_kind k (fst (Ordered.perform_all cs Ordered.new_MemStorage))).
Proof.
  destruct (forget_perform_all cs Ordered.new_MemStorage) as [-> _].
  rewrite forget_new.
  destruct (perform_all_inv cs new_MemStorage) as (_ & _ & _ & H). apply H.
Qed.

(** X11: [getQueriesByLocation] lists what was created, in the order of
    creation. After any sequence of creates on a fresh store, the result
    for a location id is the list of the queries created with that
    [locationId], oldest first, so with ascending ids; whether a location
    of that id exists plays no part, and an id no query was created for
    gives the empty list. *)
Theorem queries_by_location (cs : list call) (locationId : Z) :
  let rs := fst (Ordered.perform_all cs Ordered.new_MemStorage) in
  let s := snd (Ordered.perform_all cs Ordered.new_MemStorage) in
  Ordered.getQueriesByLocation locationId s
  = List.filter (fun q => (Query.locationId q =? locationId)%Z) (queries_of rs) /\
  (forall q, In q (Ordered.getQueriesByLocation locationId s)
             <-> In (AQuery q) rs /\ Query.locationId q = locationId) /\
  StronglySorted Z.lt (map Query.id (Ordered.getQueriesByLocation locationId s)).
Proof.
  cbv zeta.
  destruct (ordered_values cs Ordered.new_MemStorage bounded_new) as (_ & Eq & _).
  cbv zeta in Eq. cbn [Ordered.new_MemStorage Ordered.queries JsMap.values
                       JsMap.empty map app] in Eq.
  unfold Ordered.getQueriesByLocation. rewrite Eq. split; [reflexivity|]. split.
  - intros q. rewrite filter_In, In_queries_of, Z.eqb_eq. reflexivity.
  - apply StronglySorted_map_filter. rewrite ids_of_queries.
    apply ordered_ids_sorted.
Qed.

(** X12: [getConversationsBySession] lists what was created, in the
    order of creation. After any sequence of creates on a fresh store, the
    result for a session token is the list of the conversations created
    with exactly that [sessionId] (the same code units), oldest first; a
    token no conversation was created with gives the empty list. *)
Theorem conversations_by_session (cs : list call) (sessionId : jsstring) :
  let rs := fst (Ordered.perform_all cs Ordered.new_MemStorage) in
  let s := snd (Ordered.perform_all cs Ordered.new_MemStorage) in
  Ordered.getConversationsBySession sessionId s
  = List.filter (fun c => jsstring_eqb (Conversation.sessionId c) sessionId)
      (conversations_of rs) /\
  (forall c, In c (Ordered.getConversationsBySession sessionId s)
             <-> In (AConversation c) rs /\ Conversation.sessionId c = sessionId) /\
  StronglySorted Z.lt
    (map Conversation.id (Ordered.getConversationsBySession sessionId s)).
Proof.
  cbv zeta.
  destruct (ordered_values cs Ordered.new_MemStorage bounded_new) as (_ & _ & Ec).
  cbv zeta in Ec. cbn [Ordered.new_MemStorage Ordered.conversations JsMap.values
                       JsMap.empty map app] in Ec.
  unfold Ordered.getConversationsBySession. rewrite Ec.
  split; [reflexivity|]. split.
  - intros c. rewrite filter_In, In_conversations_of, jsstring_eqb_eq. reflexivity.
  - apply StronglySorted_map_filter. rewrite ids_of_conversations.
    apply ordered_ids_sorted.
Qed.

Example queries_by_location_example :
  let ins := fun l p =>
    {| InsertQuery.locationId := l; InsertQuery.prompt := js p;
       InsertQuery.extractedParams := JNull; InsertQuery.response := None;
       InsertQuery.visualizationData := JNull |} in
  let cs := [CreateQuery 1 (ins 7%Z "a"); CreateQuery 2 (ins 3%Z "b");
             CreateQuery 3 (ins 7%Z "c")] in
  let s := snd (Ordered.perform_all cs Ordered.new_MemStorage) in
  map Query.id (Ordered.getQueriesByLocation 7 s) = [1; 3]%Z /\
  Ordered.getQueriesByLocation 8 s = [].
Proof. vm_compute. split; reflexivity. Qed.

(** ** [parseInt] on the decimal form of a number *)

Lemma js_string_of_uint (d : Decimal.uint) :
  js (NilEmpty.string_of_uint d) = units_of_uint d.
Proof.
  induction d as [|d IH|d IH|d IH|d IH|d IH|d IH|d IH|d IH|d IH|d IH];
    [reflexivity|..]; cbn [NilEmpty.string_of_uint units_of_uint];
    rewrite <- IH; reflexivity.
Qed.

Lemma Number_toString_units (z : Z) :
  (0 <= z)%Z ->
  exists d, Number_toString z = units_of_uint d /\ d <> Decimal.Nil /\
            Z.of_N (Pos.of_uint d) = z.
Proof.
  intros Hz. unfold Number_toString. destruct z as [|p|p]; [| |lia].
  - exists (Decimal.D0 Decimal.Nil). repeat split. discriminate.
  - cbn [Z.to_int NilZero.string_of_int].
    assert (Hp := DecimalPos.Unsigned.of_to p).
    exists (Pos.to_uint p). unfold NilZero.string_of_uint.
    destruct (Pos.to_uint p) eqn:E; try discriminate Hp;
      rewrite js_string_of_uint; repeat split; try discriminate;
      now rewrite Hp.
Qed.

Lemma digit_value_10 (u : N) :
  digit_value 10 u = if is_digit u then Some (Z.of_N u - 48)%Z else None.
Proof.
  unfold digit_value. destruct (is_digit u) eqn:E.
  - unfold is_digit in E. apply andb_true_iff in E as [H1 H2].
    apply N.leb_le in H1, H2. destruct (Z.ltb_spec (Z.of_N u - 48) 10); [reflexivity | lia].
  - destruct ((97 <=? u) && (u <=? 122)) eqn:E1.
    + apply andb_true_iff in E1 as [H1 H2]. apply N.leb_le in H1, H2.
      destruct (Z.ltb_spec (Z.of_N u - 87) 10); [lia | reflexivity].
    + destruct ((65 <=? u) && (u <=? 90)) eqn:E2; [|reflexivity].
      apply andb_true_iff in E2 as [H1 H2]. apply N.leb_le in H1, H2.
      destruct (Z.ltb_spec (Z.of_N u - 55) 10); [lia | reflexivity].
Qed.

Lemma digits_value_stop (suffix : jsstring) (acc : Z) :
  no_more_digits suffix -> digits_value 10 suffix acc = acc.
Proof.
  destruct suffix as [|u r]; [reflexivity|]. intros (Hd & _).
  cbn [digits_value]. now rewrite digit_value_10, Hd.
Qed.

Lemma digits_value_acc (d : Decimal.uint) (suffix : jsstring) (acc : positive) :
  no_more_digits suffix ->
  digits_value 10 (units_of_uint d ++ suffix) (Z.pos acc)
  = Z.pos (Pos.of_uint_acc d acc).
Proof.
  intros Hs. revert acc.
  induction d as [|d IH|d IH|d IH|d IH|d IH|d IH|d IH|d IH|d IH|d IH];
    intros acc; cbn [units_of_uint app Pos.of_uint_acc];
    [now apply digits_value_stop|..];
    cbn [digits_value]; rewrite digit_value_10;
    (match goal with
     | |- context [is_digit ?u] => change (is_digit u) with true
     end); lazy beta iota; rewrite <- IH; f_equal; lia.
Qed.

Lemma digits_value_uint (d : Decimal.uint) (suffix : jsstring) :
  no_more_digits suffix ->
  digits_value 10 (units_of_uint d ++ suffix) 0 = Z.of_N (Pos.of_uint d).
Proof.
  intros Hs.
  induction d as [|d IH|d IH|d IH|d IH|d IH|d IH|d IH|d IH|d IH|d IH];
    cbn [units_of_uint app Pos.of_uint];
    [now apply digits_value_stop| |..];
    cbn [digits_value]; rewrite digit_value_10;
    (match goal with
     | |- context [is_digit ?u] => change (is_digit u) with true
     end); lazy beta iota;
    first [ exact IH
          | cbn [Z.of_N]; rewrite <- (digits_value_acc d suffix _ Hs);
            reflexivity ].
Qed.

Lemma units_of_uint_digits (d : Decimal.uint) :
  forallb is_digit (units_of_uint d) = true.
Proof.
  induction d as [|d IH|d IH|d IH|d IH|d IH|d IH|d IH|d IH|d IH|d IH];
    [reflexivity|..]; cbn [units_of_uint forallb]; rewrite IH; reflexivity.
Qed.

(** A text that starts with a decimal digit and not with [0x]: the
    digits are read in radix 10. *)
Lemma parseInt_decimal (u : N) (r : jsstring) :
  is_digit u = true ->
  match r with v :: _ => u <> 48 \/ (v <> 120 /\ v <> 88) | [] => True end ->
  parseInt (u :: r) = Some (digits_value 10 (u :: r) 0).
Proof.
  intros Hu Hx. unfold parseInt.
  destruct (digit_not_space u Hu) as (Hsp & _ & Hminus).
  cbn [skip_spaces]. rewrite Hsp.
  assert (Hplus : (43 =? u) = false).
  { unfold is_digit in Hu. apply andb_true_iff in Hu as [H1 _].
    apply N.leb_le in H1. apply N.eqb_neq. lia. }
  change (js "-") with [45]. change (js "+") with [43].
  cbn [startsWith]. rewrite Hminus, Hplus. cbn [andb orb].
  assert (Hhex : startsWith (u :: r) (js "0x") || startsWith (u :: r) (js "0X")
                 = false).
  { change (js "0x") with [48; 120]. change (js "0X") with [48; 88].
    destruct r as [|v r']; cbn [startsWith]; [now rewrite !andb_false_r|].
    destruct (N.eqb_spec 48 u) as [<-|?]; [|reflexivity].
    destruct Hx as [?|[H1 H2]]; [congruence|].
    cbn [andb].
    destruct (N.eqb_spec 120 v) as [E|_]; [symmetry in E; contradiction|].
    destruct (N.eqb_spec 88 v) as [E|_]; [symmetry in E; contradiction|].
    reflexivity. }
  rewrite Hhex. cbn [starts_with_digit]. rewrite digit_value_10, Hu.
  f_equal. destruct (digits_value 10 (u :: r) 0); reflexivity.
Qed.

(** [parseInt] reads back the decimal form of a number that is not
    negative, also with more text after it. *)
Lemma parseInt_Number_toString (z : Z) (suffix : jsstring) :
  (0 <= z)%Z -> no_more_digits suffix ->
  parseInt (Number_toString z ++ suffix) = Some z.
Proof.
  intros Hz Hs. destruct (Number_toString_units z Hz) as (d & -> & Hd & <-).
  rewrite <- (digits_value_uint d suffix Hs).
  pose proof (units_of_uint_digits d) as Hall.
  destruct (units_of_uint d) as [|u r] eqn:E.
  - destruct d; discriminate || congruence.
  - cbn [forallb] in Hall. apply andb_true_iff in Hall as [Hu Hr].
    cbn [app]. apply parseInt_decimal; [exact Hu|].
    destruct r as [|v r']; cbn [app].
    + destruct suffix as [|w ?]; [exact I|]. right. apply Hs.
    + right. cbn [forallb] in Hr. apply andb_true_iff in Hr as [Hv _].
      unfold is_digit in Hv. apply andb_true_iff in Hv as [H1 H2].
      apply N.leb_le in H1, H2. split; lia.
Qed.

Example parseInt_examples :
  parseInt (js "42") = Some 42%Z /\ parseInt (js "  12abc") = Some 12%Z /\
  parseInt (js "0x1f") = Some 31%Z /\ parseInt (js "-7") = Some (-7)%Z /\
  parseInt (js "abc") = None /\ parseInt [] = None /\
  parseInt (js "1e3") = Some 1%Z /\ parseInt (js "+08") = Some 8%Z.
Proof. vm_compute. repeat split; reflexivity. Qed.

(** ** The route handlers *)

Lemma keyed_new : keyed new_MemStorage.
Proof.
  split; intros k x H; cbn -[lookup] in H; now rewrite lookup_empty in H.
Qed.

Lemma keyed_step (c : call) (s : MemStorage) :
  keyed s -> keyed (snd (perform c s)).
Proof.
  intros [Hl Hq]. destruct c as [d i|d i|d i]; split; cbn -[lookup insert];
    intros k x H; try (now apply Hl); try (now apply Hq);
    rewrite lookup_insert in H; case_decide as E;
      [injection H as <-; now subst | | injection H as <-; now subst | ];
      try (now apply Hl); now apply Hq.
Qed.

Lemma keyed_all (cs : list call) (s : MemStorage) :
  keyed s -> keyed (snd (perform_all cs s)).
Proof.
  revert s. induction cs as [|c cs IH]; intros s Hs; [exact Hs|].
  rewrite perform_all_cons. cbn [snd]. apply IH. now apply keyed_step.
Qed.

(** What holds of every store creates lead to. *)
Lemma reachable_facts (s : Ordered.MemStorage) :
  reachable s -> bounded s /\ dense (forget s) /\ keyed (forget s).
Proof.
  intros (cs & ->).
  destruct (ordered_values cs Ordered.new_MemStorage bounded_new) as (B & _).
  destruct (forget_perform_all cs Ordered.new_MemStorage) as [_ ->].
  rewrite forget_new. split; [exact B|]. split.
  - apply dense_all, dense_new.
  - apply keyed_all, keyed_new.
Qed.

Lemma reachable_perform_all (cs : list call) (s : Ordered.MemStorage) :
  reachable s -> reachable (snd (Ordered.perform_all cs s)).
Proof.
  intros (cs0 & ->). exists (cs0 ++ cs).
  generalize Ordered.new_MemStorage. induction cs0 as [|c cs0 IH]; intros s0.
  - reflexivity.
  - cbn [app]. rewrite !ordered_perform_all_cons. cbn [snd]. apply IH.
Qed.

Lemma reachable_perform (c : call) (s : Ordered.MemStorage) :
  reachable s -> reachable (snd (Ordered.perform c s)).
Proof.
  intros H. apply (reachable_perform_all [c]) in H.
  rewrite ordered_perform_all_cons in H. exact H.
Qed.

(** A record that can be retrieved under an id already given can still
    be retrieved after more creates. *)
Lemma retrieved_later (cs : list call) (s : Ordered.MemStorage) (r : created) :
  retrieved (forget s) r ->
  (id_of r < counter (kind_of r) (forget s))%Z ->
  retrieved (forget (snd (Ordered.perform_all cs s))) r.
Proof.
  intros Hr Hlt. destruct (forget_perform_all cs s) as [_ ->].
  destruct (perform_all_inv cs (forget s)) as (_ & _ & Hkeep & _).
  now apply Hkeep.
Qed.

Section Handlers.

Context {Body : Type}.
Variable parseLocation : Body -> option InsertLocation.t.
Variable parseQuery : InsertQuery.t -> option InsertQuery.t.

(** X13: a location posted can be fetched by its id. When
    [POST /api/locations] accepts a body on a store creates led to, it
    answers 200 with a location that has the fields of the validated data,
    the time of the call and an id of at least 1; and after any further
    creates [GET /api/locations/:id] with that id in decimal, also followed
    by text that starts with neither a digit nor an x, answers 200 with
    the same location. *)
Theorem location_round_trip (date : Z) (body : Body) (ins : InsertLocation.t)
    (s : Ordered.MemStorage) (cs : list call) (suffix : jsstring) :
  reachable s -> parseLocation body = Some ins -> no_more_digits suffix ->
  let posted := post_locations parseLocation date body s in
  let s' := snd (Ordered.perform_all cs (snd posted)) in
  exists l,
    fst posted = {| status := 200; json := LocationPayload l |} /\
    Location.name l = InsertLocation.name ins /\
    Location.latitude l = InsertLocation.latitude ins /\
    Location.longitude l = InsertLocation.longitude ins /\
    Location.type l = InsertLocation.type ins /\
    Location.createdAt l = date /\ (1 <= Location.id l)%Z /\
    get_location (Number_toString (Location.id l) ++ suffix) s'
    = {| status := 200; json := LocationPayload l |}.
Proof.
  intros Hs Hparse Hsuffix. cbv zeta. unfold post_locations. rewrite Hparse.
  destruct (reachable_facts s Hs) as (_ & (_ & _ & _ & Bl & _) & _).
  cbn [Ordered.createLocation fst snd].
  eexists. split; [reflexivity|]. cbn [Location.name Location.latitude
    Location.longitude Location.type Location.createdAt Location.id].
  repeat (split; [reflexivity|]). split; [exact Bl|].
  unfold get_location. rewrite parseInt_Number_toString by (cbn in Bl |- *; lia || assumption).
  rewrite <- forget_getLocation.
  match goal with
  | |- context [Ordered.perform_all cs ?s1] =>
    pose proof (retrieved_later cs s1
      (ALocation {| Location.id := Ordered.currentLocationId s;
                    Location.name := InsertLocation.name ins;
                    Location.latitude := InsertLocation.latitude ins;
                    Location.longitude := InsertLocation.longitude ins;
                    Location.type := InsertLocation.type ins;
                    Location.createdAt := date |})) as Hlater
  end.
  cbn [retrieved Location.id id_of kind_of counter] in Hlater.
  rewrite Hlater; [reflexivity | | cbn [forget currentLocationId Ordered.currentLocationId]; lia].
  unfold getLocation, forget. cbn -[list_to_map lookup].
  rewrite list_to_map_get, get_set. now rewrite Z.eqb_refl.
Qed.

(** X15: a request that is not answered 200 changes nothing.
    [POST /api/locations] answers 200 or 400 and [POST /api/queries]
    answers 200, 400 or 500; whenever the answer is not 200 the store
    after the call is the store before it: no id is used up and no record
    is added. *)
Theorem failed_posts_change_nothing :
  (forall (date : Z) (body : Body) (s : Ordered.MemStorage),
     let r := post_locations parseLocation date body s in
     status (fst r) = 200%Z \/ (status (fst r) = 400%Z /\ snd r = s)) /\
  (forall (now date : Z) (prompt : option jsstring) (locationId : option Z)
          (s : Ordered.MemStorage),
     let r := post_queries parseQuery now date prompt locationId s in
     status (fst r) = 200%Z \/
     ((status (fst r) = 400%Z \/ status (fst r) = 500%Z) /\ snd r = s)).
Proof.
  split.
  - intros date body s. cbv zeta. unfold post_locations.
    destruct (parseLocation body); [left | right];
      cbn [fst snd status Ordered.createLocation]; tauto.
  - intros now date prompt locationId s. cbv zeta. unfold post_queries.
    destruct prompt as [p|], locationId as [l|];
      try (right; cbn [fst snd status]; tauto).
    destruct (negb (truthy p) || (l =? 0)%Z);
      [right; cbn [fst snd status]; tauto|].
    cbv zeta. destruct (parseQuery _); [left | right];
      cbn [fst snd status Ordered.createQuery]; tauto.
Qed.

(** What a 200 of [POST /api/queries] comes with, when validation hands
    back the data it accepts. *)
Lemma post_queries_ok (now date : Z) (prompt : option jsstring)
    (locationId : option Z) (s : Ordered.MemStorage) :
  (forall d d', parseQuery d = Some d' -> d' = d) ->
  bounded s ->
  let r := post_queries parseQuery now date prompt locationId s in
  status (fst r) = 200%Z ->
  exists p l,
    prompt = Some p /\ p <> [] /\ locationId = Some l /\ l <> 0%Z /\
    let params := extractParameters now p in
    let q := {| Query.id := Ordered.currentQueryId s;
                Query.locationId := l;
                Query.prompt := p;
                Query.extractedParams := json_of_params params;
                Query.response := Some (generateResponse (forget s) p params l);
                Query.visualizationData := generateVisualizationData p params;
                Query.createdAt := date |} in
    r = ({| status := 200; json := QueryPayload q |},
         snd (Ordered.perform
                (CreateQuery date
                   {| InsertQuery.locationId := l;
                      InsertQuery.prompt := p;
                      InsertQuery.extractedParams := json_of_params params;
                      InsertQuery.response :=
                        Some (generateResponse (forget s) p params l);
                      InsertQuery.visualizationData :=
                        generateVisualizationData p params |}) s)) /\
    Ordered.getQuery (Query.id q) (snd r) = Some q /\
    Ordered.getQueriesByLocation l (snd r)
    = Ordered.getQueriesByLocation l s ++ [q].
Proof.
  intros Hid (_ & Bq & _). cbv zeta. unfold post_queries.
  destruct prompt as [p|], locationId as [l|];
    try (cbn [fst status]; discriminate).
  destruct (negb (truthy p) || (l =? 0)%Z) eqn:E; [cbn [fst status]; discriminate|].
  apply orb_false_iff in E as [Ep El]. apply negb_false_iff in Ep.
  apply Z.eqb_neq in El. cbv zeta.
  destruct (parseQuery _) as [d'|] eqn:Ed; [|cbn [fst status]; discriminate].
  apply Hid in Ed. subst d'. intros _.
  exists p, l. split; [reflexivity|]. split; [now apply truthy_nonempty|].
  split; [reflexivity|]. split; [exact El|].
  cbn [Ordered.createQuery Ordered.perform fst snd InsertQuery.locationId
       InsertQuery.prompt InsertQuery.extractedParams InsertQuery.response
       InsertQuery.visualizationData].
  split; [reflexivity|]. split.
  - unfold Ordered.getQuery. cbn [Ordered.queries Query.id].
    rewrite get_set. now rewrite Z.eqb_refl.
  - unfold Ordered.getQueriesByLocation, JsMap.values.
    cbn [Ordered.queries]. rewrite (set_fresh _ _ _ Bq), map_app, List.filter_app.
    cbn [map snd List.filter Query.locationId]. now rewrite Z.eqb_refl.
Qed.

(** X16: what a 200 of [POST /api/queries] means. On a store creates led
    to, and with a validation that hands back the data it accepts, a 200
    says: the prompt was a non-empty string and the location id an
    integer other than 0; the query answered has the next query id, that
    prompt and location id, the response and chart the two generators
    give for that prompt, and the time of the call; [getQuery] gives it
    back and [getQueriesByLocation] for its location id lists it last.
    No location of that id need exist. *)
Theorem post_queries_stores_query (now date : Z) (prompt : option jsstring)
    (locationId : option Z) (s : Ordered.MemStorage) :
  (forall d d', parseQuery d = Some d' -> d' = d) ->
  reachable s ->
  let r := post_queries parseQuery now date prompt locationId s in
  status (fst r) = 200%Z ->
  exists p l q,
    prompt = Some p /\ p <> [] /\ locationId = Some l /\ l <> 0%Z /\
    json (fst r) = QueryPayload q /\
    Query.id q = Ordered.currentQueryId s /\
    Query.locationId q = l /\ Query.prompt q = p /\
    Query.response q
    = Some (generateResponse (forget s) p (extractParameters now p) l) /\
    Query.visualizationData q
    = generateVisualizationData p (extractParameters now p) /\
    Query.createdAt q = date /\
    Ordered.getQuery (Query.id q) (snd r) = Some q /\
    Ordered.getQueriesByLocation l (snd r)
    = Ordered.getQueriesByLocation l s ++ [q].
Proof.
  intros Hid Hs. cbv zeta. intros H200.
  destruct (reachable_facts s Hs) as (B & _).
  destruct (post_queries_ok now date prompt locationId s Hid B H200)
    as (p & l & -> & Hp & -> & Hl & Hr & Hget & Hlist).
  cbv zeta in *. exists p, l. eexists.
  split; [reflexivity|]. split; [exact Hp|]. split; [reflexivity|].
  split; [exact Hl|]. rewrite Hr at 1. cbn [fst json].
  split; [reflexivity|]. cbn [Query.id Query.locationId Query.prompt
    Query.response Query.visualizationData Query.createdAt].
  repeat (split; [reflexivity|]). split; [exact Hget | exact Hlist].
Qed.

(** X17: the fallback text of the chat is never shown for a 200. The
    chat shows [query.response || "No response generated"]; for the query
    of a 200 of [POST /api/queries] on a store creates led to this is the
    response itself, which is never absent and never empty. *)
Theorem response_fallback_unused (now date : Z) (prompt : option jsstring)
    (locationId : option Z) (s : Ordered.MemStorage) :
  (forall d d', parseQuery d = Some d' -> d' = d) ->
  reachable s ->
  let r := post_queries parseQuery now date prompt locationId s in
  status (fst r) = 200%Z ->
  exists q text,
    json (fst r) = QueryPayload q /\ Query.response q = Some text /\
    text <> [] /\
    or_else (Query.response q) (js "No response generated") = text.
Proof.
  intros Hid Hs. cbv zeta. intros H200.
  destruct (reachable_facts s Hs) as (B & _).
  destruct (post_queries_ok now date prompt locationId s Hid B H200)
    as (p & l & -> & Hp & -> & Hl & Hr & _).
  cbv zeta in *. rewrite Hr. cbn [fst json].
  eexists _, _. split; [reflexivity|]. split; [reflexivity|].
  pose proof (generateResponse_nonempty (forget s) p (extractParameters now p) l)
    as Hne.
  split; [exact Hne|]. unfold or_else. cbn [Query.response].
  apply truthy_nonempty in Hne. now rewrite Hne.
Qed.

(** X18: a query posted is listed for its location. After a 200 of
    [POST /api/queries] for a location id l >= 1 and any further creates,
    [GET /api/locations/l/queries] answers 200 with a list that holds the
    query answered; right after the post it is the last of the list. *)
Theorem posted_query_is_listed (now date : Z) (prompt : option jsstring)
    (l : Z) (s : Ordered.MemStorage) (cs : list call) :
  (forall d d', parseQuery d = Some d' -> d' = d) ->
  reachable s -> (1 <= l)%Z ->
  let r := post_queries parseQuery now date prompt (Some l) s in
  status (fst r) = 200%Z ->
  exists q,
    json (fst r) = QueryPayload q /\
    (exists before,
       get_location_queries (Number_toString l) (snd r)
       = {| status := 200; json := QueriesPayload (before ++ [q]) |}) /\
    (exists listed,
       get_location_queries (Number_toString l)
         (snd (Ordered.perform_all cs (snd r)))
       = {| status := 200; json := QueriesPayload listed |} /\ In q listed).
Proof.
  intros Hid Hs Hl. cbv zeta. intros H200.
  destruct (reachable_facts s Hs) as (B & _).
  destruct (post_queries_ok now date prompt (Some l) s Hid B H200)
    as (p & l' & -> & Hp & [= <-] & _ & Hr & _ & Hlist).
  cbv zeta in *. rewrite Hr in *. cbn [fst snd json] in *.
  eexists. split; [reflexivity|].
  assert (Hparse : parseInt (Number_toString l) = Some l).
  { rewrite <- (app_nil_r (Number_toString l)).
    apply parseInt_Number_toString; [lia | exact I]. }
  unfold get_location_queries. rewrite Hparse. split.
  - eexists. now rewrite Hlist.
  - eexists. split; [reflexivity|].
    set (s1 := snd (Ordered.perform _ s)) in *.
    assert (B1 : bounded s1).
    { destruct (ordered_step (CreateQuery date
        {| InsertQuery.locationId := l; InsertQuery.prompt := p;
           InsertQuery.extractedParams := json_of_params (extractParameters now p);
           InsertQuery.response :=
             Some (generateResponse (forget s) p (extractParameters now p) l);
           InsertQuery.visualizationData :=
             generateVisualizationData p (extractParameters now p) |}) s B)
        as (H & _). exact H. }
    destruct (ordered_values cs s1 B1) as (_ & Eq & _). cbv zeta in Eq.
    unfold Ordered.getQueriesByLocation in *. rewrite Eq, List.filter_app.
    apply in_or_app. left. rewrite Hlist. apply in_or_app. right. now left.
Qed.

End Handlers.

Lemma location_round_trip_example :
  let ins := {| InsertLocation.name := js "Lima";
                InsertLocation.latitude := None;
                InsertLocation.longitude := None;
                InsertLocation.type := js "map" |} in
  let posted := post_locations (fun _ : JsValue => Some ins) 9 JNull
                  Ordered.new_MemStorage in
  exists l,
    fst posted = {| status := 200; json := LocationPayload l |} /\
    Location.name l = js "Lima" /\
    Location.latitude l = None /\ Location.longitude l = None /\
    Location.type l = js "map" /\ Location.createdAt l = 9%Z /\
    (1 <= Location.id l)%Z /\
    get_location (Number_toString (Location.id l) ++ js "?x=1") (snd posted)
    = {| status := 200; json := LocationPayload l |}.
Proof.
  cbv zeta.
  apply (location_round_trip
           (fun _ : JsValue =>
              Some {| InsertLocation.name := js "Lima";
                      InsertLocation.latitude := None;
                      InsertLocation.longitude := None;
                      InsertLocation.type := js "map" |})
           9 JNull
           {| InsertLocation.name := js "Lima";
              InsertLocation.latitude := None;
              InsertLocation.longitude := None;
              InsertLocation.type := js "map" |}
           Ordered.new_MemStorage [] (js "?x=1")).
  - now exists [].
  - reflexivity.
  - vm_compute. repeat split; discriminate.
Defined.

Lemma created_of_id (cs : list call) (k : kind) (id : Z) :
  let rs := fst (perform_all cs new_MemStorage) in
  (1 <= id <= Z.of_nat (length (ids_of_kind k rs)))%Z ->
  exists r, In r rs /\ kind_of r = k /\ id_of r = id.
Proof.
  cbv zeta. intros Hid.
  destruct (ids_from_counter k cs new_MemStorage) as [Hids _]. cbv zeta in Hids.
  assert (Hin : In id (ids_of_kind k (fst (perform_all cs new_MemStorage)))).
  { rewrite Hids. apply list_elem_of_In, elem_of_seqZ.
    replace (counter k new_MemStorage) with 1%Z by now destruct k. lia. }
  unfold ids_of_kind in Hin. apply in_map_iff in Hin as (r & Hr & Hin).
  apply filter_In in Hin as [Hin Hk]. apply kind_eqb_eq in Hk. now exists r.
Qed.

(** X14: what [GET /api/locations/:id] answers. After any sequence of
    creates on a fresh store with n locations among them: when [parseInt]
    reads from the path parameter an id between 1 and n, the answer is
    200 with the location created under that id; when it reads another
    integer, or no integer at all, the answer is 404 "Location not
    found". *)
Theorem get_location_answers (cs : list call) (idParam : jsstring) :
  let rs := fst (Ordered.perform_all cs Ordered.new_MemStorage) in
  let s := snd (Ordered.perform_all cs Ordered.new_MemStorage) in
  let n := Z.of_nat (length (ids_of_kind KLocation rs)) in
  let not_found :=
    {| status := 404; json := ErrorPayload (js "Location not found") |} in
  (forall id, parseInt idParam = Some id -> (1 <= id <= n)%Z ->
     exists l, get_location idParam s
               = {| status := 200; json := LocationPayload l |} /\
               Location.id l = id /\ In (ALocation l) rs) /\
  (forall id, parseInt idParam = Some id -> ~ (1 <= id <= n)%Z ->
     get_location idParam s = not_found) /\
  (parseInt idParam = None -> get_location idParam s = not_found).
Proof.
  cbv zeta. unfold get_location.
  destruct (forget_perform_all cs Ordered.new_MemStorage) as [Ers Es].
  rewrite forget_new in Ers, Es. rewrite Ers.
  split; [|split].
  - intros id -> Hid.
    destruct (created_of_id cs KLocation id Hid) as (r & Hin & Hk & Hr).
    destruct r as [l|q|c]; try discriminate Hk.
    destruct (perform_all_inv cs new_MemStorage) as (_ & Hall & _).
    destruct (Hall _ Hin) as [_ Hget]. cbn [retrieved id_of] in Hget, Hr.
    rewrite <- forget_getLocation, Es, <- Hr, Hget. now exists l.
  - intros id -> Hid.
    destruct (dense_all cs new_MemStorage dense_new) as (Hl & _).
    destruct (ids_from_counter KLocation cs new_MemStorage) as [_ Cl].
    cbv zeta in Cl. cbn [counter] in Cl.
    change (currentLocationId new_MemStorage) with 1%Z in Cl.
    rewrite <- forget_getLocation, Es.
    destruct (getLocation id _) as [l|] eqn:E; [|reflexivity].
    exfalso. apply Hid. unfold getLocation in E.
    assert (Hsome : is_Some (locations (snd (perform_all cs new_MemStorage)) !! id))
      by now exists l.
    apply Hl in Hsome. lia.
  - intros ->. reflexivity.
Qed.

Lemma get_location_answers_example :
  let cs := [CreateLocation 1 {| InsertLocation.name := js "Rome";
                                 InsertLocation.latitude := None;
                                 InsertLocation.longitude := None;
                                 InsertLocation.type := js "manual" |}] in
  let s := snd (Ordered.perform_all cs Ordered.new_MemStorage) in
  get_location (js "2") s
  = {| status := 404; json := ErrorPayload (js "Location not found") |} /\
  get_location (js "one") s
  = {| status := 404; json := ErrorPayload (js "Location not found") |}.
Proof.
  cbv zeta. split.
  - apply (get_location_answers
             [CreateLocation 1 {| InsertLocation.name := js "Rome";
                                  InsertLocation.latitude := None;
                                  InsertLocation.longitude := None;
                                  InsertLocation.type := js "manual" |}]
             (js "2")) with (id := 2%Z); [reflexivity | cbn; lia].
  - apply (get_location_answers
             [CreateLocation 1 {| InsertLocation.name := js "Rome";
                                  InsertLocation.latitude := None;
                                  InsertLocation.longitude := None;
                                  InsertLocation.type := js "manual" |}]
             (js "one")). reflexivity.
Defined.


Lemma post_queries_stores_query_example :
  let r := post_queries Some 2026 77 (Some (js "rainfall 2001")) (Some 5%Z)
             Ordered.new_MemStorage in
  exists p l q,
    Some (js "rainfall 2001") = Some p /\ p <> [] /\
    Some 5%Z = Some l /\ l <> 0%Z /\
    json (fst r) = QueryPayload q /\
    Query.id q = Ordered.currentQueryId Ordered.new_MemStorage /\
    Query.locationId q = l /\ Query.prompt q = p /\
    Query.response q
    = Some (generateResponse (forget Ordered.new_MemStorage) p
              (extractParameters 2026 p) l) /\
    Query.visualizationData q
    = generateVisualizationData p (extractParameters 2026 p) /\
    Query.createdAt q = 77%Z /\
    Ordered.getQuery (Query.id q) (snd r) = Some q /\
    Ordered.getQueriesByLocation l (snd r)
    = Ordered.getQueriesByLocation l Ordered.new_MemStorage ++ [q].
Proof.
  cbv zeta.
  apply (post_queries_stores_query Some 2026 77 (Some (js "rainfall 2001"))
           (Some 5%Z) Ordered.new_MemStorage).
  - now intros d d' [= <-].
  - now exists [].
  - reflexivity.
Defined.

Lemma response_fallback_unused_example :
  let r := post_queries Some 2026 77 (Some (js "hello")) (Some 1%Z)
             Ordered.new_MemStorage in
  exists q text,
    json (fst r) = QueryPayload q /\ Query.response q = Some text /\
    text <> [] /\
    or_else (Query.response q) (js "No response generated") = text.
Proof.
  cbv zeta.
  apply (response_fallback_unused Some 2026 77 (Some (js "hello")) (Some 1%Z)
           Ordered.new_MemStorage).
  - now intros d d' [= <-].
  - now exists [].
  - reflexivity.
Defined.

Lemma posted_query_is_listed_example :
  let r := post_queries Some 2026 77 (Some (js "hello")) (Some 12%Z)
             Ordered.new_MemStorage in
  exists q,
    json (fst r) = QueryPayload q /\
    (exists before,
       get_location_queries (Number_toString 12) (snd r)
       = {| status := 200; json := QueriesPayload (before ++ [q]) |}) /\
    (exists listed,
       get_location_queries (Number_toString 12)
         (snd (Ordered.perform_all [] (snd r)))
       = {| status := 200; json := QueriesPayload listed |} /\ In q listed).
Proof.
  cbv zeta.
  apply (posted_query_is_listed Some 2026 77 (Some (js "hello")) 12
           Ordered.new_MemStorage []).
  - now intros d d' [= <-].
  - now exists [].
  - lia.
  - reflexivity.
Defined.

(** ** The mock geocoder *)

Lemma geocode_lower_keys :
  map (fun entry => toLowerCase (fst entry)) mockResults
  = [js "san francisco"; js "new york"; js "london"].
Proof. vm_compute. reflexivity. Qed.

Lemma post_geocode_table (a : jsstring) :
  a <> [] ->
  post_geocode (Some a)
  = {| status := 200;
       json :=
         if includes (toLowerCase a) (js "san francisco")
         then GeocodePayload (js "San Francisco") (js "37.7749") (js "-122.4194")
         else if includes (toLowerCase a) (js "new york")
         then GeocodePayload (js "New York") (js "40.7128") (js "-74.0060")
         else if includes (toLowerCase a) (js "london")
         then GeocodePayload (js "London") (js "51.5074") (js "-0.1278")
         else GeocodePayload a (js "37.7749") (js "-122.4194") |}.
Proof.
  intros Ha%truthy_nonempty. unfold post_geocode. rewrite Ha.
  unfold mockResults. cbn [find fst].
  change (toLowerCase (js "San Francisco")) with (js "san francisco").
  change (toLowerCase (js "New York")) with (js "new york").
  change (toLowerCase (js "London")) with (js "london").
  destruct (includes (toLowerCase a) (js "san francisco")); [reflexivity|].
  destruct (includes (toLowerCase a) (js "new york")); [reflexivity|].
  destruct (includes (toLowerCase a) (js "london")); reflexivity.
Qed.

(** X19: what [POST /api/geocode] answers. A missing or empty address
    gets 400. Any other address gets 200: with the name and coordinates of
    San Francisco when "san francisco" occurs in it (letter case aside),
    otherwise of New York when "new york" occurs, otherwise of London when
    "london" occurs; and when none occurs, with the address itself as the
    name and the coordinates of San Francisco. *)
Theorem geocode_answers :
  let required :=
    {| status := 400; json := ErrorPayload (js "Address is required") |} in
  let found name lat lng :=
    {| status := 200; json := GeocodePayload (js name) (js lat) (js lng) |} in
  post_geocode None = required /\ post_geocode (Some []) = required /\
  forall a : jsstring, a <> [] ->
    let lower := toLowerCase a in
    (occurs_in (js "san francisco") lower ->
       post_geocode (Some a) = found "San Francisco" "37.7749" "-122.4194") /\
    (~ occurs_in (js "san francisco") lower -> occurs_in (js "new york") lower ->
       post_geocode (Some a) = found "New York" "40.7128" "-74.0060") /\
    (~ occurs_in (js "san francisco") lower -> ~ occurs_in (js "new york") lower ->
     occurs_in (js "london") lower ->
       post_geocode (Some a) = found "London" "51.5074" "-0.1278") /\
    (~ occurs_in (js "san francisco") lower -> ~ occurs_in (js "new york") lower ->
     ~ occurs_in (js "london") lower ->
       post_geocode (Some a)
       = {| status := 200;
            json := GeocodePayload a (js "37.7749") (js "-122.4194") |}).
Proof.
  cbv zeta. split; [reflexivity|]. split; [reflexivity|].
  intros a Ha. rewrite (post_geocode_table a Ha).
  assert (yes : forall k, occurs_in (js k) (toLowerCase a) ->
                          includes (toLowerCase a) (js k) = true)
    by (intros k; apply includes_occurs).
  assert (no : forall k, ~ occurs_in (js k) (toLowerCase a) ->
                         includes (toLowerCase a) (js k) = false).
  { intros k Hk. destruct (includes (toLowerCase a) (js k)) eqn:E; [|reflexivity].
    now apply includes_occurs in E. }
  split; [|split; [|split]].
  - intros H. now rewrite (yes _ H).
  - intros H1 H2. now rewrite (no _ H1), (yes _ H2).
  - intros H1 H2 H3. now rewrite (no _ H1), (no _ H2), (yes _ H3).
  - intros H1 H2 H3. now rewrite (no _ H1), (no _ H2), (no _ H3).
Qed.

Lemma geocode_answers_example :
  post_geocode (Some (js "london, near NEW YORK avenue"))
  = {| status := 200;
       json := GeocodePayload (js "New York") (js "40.7128") (js "-74.0060") |}.
Proof.
  destruct geocode_answers as (_ & _ & H).
  destruct (H (js "london, near NEW YORK avenue")) as (_ & Hny & _);
    [discriminate|].
  apply Hny.
  - apply mentions_not_occurs. vm_compute. reflexivity.
  - apply mentions_occurs. vm_compute. reflexivity.
Defined.

(** X20: geocoding the name the geocoder gave changes nothing. For any
    non-empty address the answer is 200 with a non-empty name and with the
    coordinates of one of the three cities of the table, and the answer
    for that name as the address is the same answer. *)
Theorem geocode_idempotent (a : jsstring) :
  a <> [] ->
  exists name lat lng,
    post_geocode (Some a)
    = {| status := 200; json := GeocodePayload name lat lng |} /\
    name <> [] /\
    In (lat, lng) (map snd mockResults) /\
    post_geocode (Some name) = post_geocode (Some a).
Proof.
  intros Ha. rewrite (post_geocode_table a Ha).
  destruct (includes (toLowerCase a) (js "san francisco")) eqn:E1;
    [|destruct (includes (toLowerCase a) (js "new york")) eqn:E2;
      [|destruct (includes (toLowerCase a) (js "london")) eqn:E3]].
  - eexists _, _, _. split; [reflexivity|]. split; [discriminate|].
    split; [now left|]. vm_compute. reflexivity.
  - eexists _, _, _. split; [reflexivity|]. split; [discriminate|].
    split; [right; now left|]. vm_compute. reflexivity.
  - eexists _, _, _. split; [reflexivity|]. split; [discriminate|].
    split; [right; right; now left|]. vm_compute. reflexivity.
  - eexists _, _, _. split; [reflexivity|]. split; [exact Ha|].
    split; [now left|]. rewrite (post_geocode_table a Ha).
    now rewrite E1, E2, E3.
Qed.

Lemma geocode_idempotent_example :
  exists name lat lng,
    post_geocode (Some (js "Paris"))
    = {| status := 200; json := GeocodePayload name lat lng |} /\
    name <> [] /\
    In (lat, lng) (map snd mockResults) /\
    post_geocode (Some name) = post_geocode (Some (js "Paris")).
Proof. apply (geocode_idempotent (js "Paris")). discriminate. Defined.

(** ** The client *)

Lemma skip_spaces_head (s : jsstring) (a : N) (r : jsstring) :
  skip_spaces s = a :: r -> is_space a = false.
Proof.
  induction s as [|u t IH]; [discriminate|]. cbn [skip_spaces].
  destruct (is_space u) eqn:E; [exact IH|]. now intros [= <- _].
Qed.

Lemma skip_spaces_blank (s : jsstring) : skip_spaces s = [] <-> spaces s.
Proof.
  unfold spaces. induction s as [|u t IH]; [now split|].
  cbn [skip_spaces forallb]. destruct (is_space u); cbn [andb];
    [exact IH | split; discriminate].
Qed.

Lemma spaces_rev (s : jsstring) : spaces (rev s) <-> spaces s.
Proof.
  unfold spaces. rewrite !forallb_forall. split; intros H x Hx; apply H.
  - now apply in_rev in Hx.
  - now apply in_rev.
Qed.

Lemma trim_blank (s : jsstring) : trim s = [] <-> spaces s.
Proof.
  unfold trim. split.
  - intros H. apply (f_equal (@rev N)) in H. rewrite rev_involutive in H.
    cbn [rev] in H. apply skip_spaces_blank in H.
    apply (proj1 (spaces_rev _)) in H.
    destruct (skip_spaces_split s) as (ws & Hs & Hws).
    rewrite Hs. unfold spaces in *. rewrite forallb_app, Hws, H. reflexivity.
  - intros H. apply skip_spaces_blank in H. rewrite H. reflexivity.
Qed.

Lemma trim_trimmed (s : jsstring) : trimmed (trim s).
Proof.
  unfold trim.
  destruct (skip_spaces_split (rev (skip_spaces s))) as (ws & Hsplit & Hws).
  set (t := skip_spaces s) in *. set (u := skip_spaces (rev t)) in *.
  split.
  - intros a r Hr.
    assert (Hu : u = rev r ++ [a]).
    { rewrite <- (rev_involutive u), Hr. reflexivity. }
    assert (Ht : t = a :: rev (ws ++ rev r)).
    { rewrite <- (rev_involutive t), Hsplit, Hu, app_assoc, rev_app_distr.
      reflexivity. }
    exact (skip_spaces_head s a _ Ht).
  - intros r z Hr.
    assert (Hu : u = z :: rev r).
    { rewrite <- (rev_involutive u), Hr, rev_app_distr. reflexivity. }
    exact (skip_spaces_head (rev t) z _ Hu).
Qed.

(** X21: the chat sends no blank prompt. When the input is empty or
    white space only, [handleSend] sends nothing and leaves the state as
    it is. Otherwise it sends the input without the white space at its
    ends, which is not empty; it shows that text as the last message, from
    the user, empties the input and marks the chat as typing; and
    [POST /api/queries] with that prompt and a location id other than 0
    does not answer 400. *)
Theorem handleSend_sends_trimmed (id : jsstring) (date : Z) (st : ChatState) :
  (spaces (inputValue st) -> handleSend id date st = (st, None)) /\
  (~ spaces (inputValue st) ->
   exists m,
     snd (handleSend id date st) = Some m /\ m = trim (inputValue st) /\
     m <> [] /\ trimmed m /\
     messages (fst (handleSend id date st))
     = messages st ++ [{| message_id := id; content := m; sender := user;
                          timestamp := date |}] /\
     inputValue (fst (handleSend id date st)) = [] /\
     isTyping (fst (handleSend id date st)) = true /\
     hasStartedChat (fst (handleSend id date st)) = true /\
     forall parse now date' l s, l <> 0%Z ->
       status (fst (post_queries parse now date' (Some m) (Some l) s)) <> 400%Z).
Proof.
  unfold handleSend. split.
  - intros H%trim_blank. now rewrite H.
  - intros H. assert (Hm : trim (inputValue st) <> [])
      by (intros E; now apply trim_blank in E).
    assert (Ht := proj2 (truthy_nonempty _) Hm). rewrite Ht. cbn [negb].
    exists (trim (inputValue st)). cbn [fst snd messages inputValue isTyping
      hasStartedChat addMessage].
    repeat (split; [reflexivity || assumption || apply trim_trimmed|]).
    intros parse now date' l s Hl. unfold post_queries. rewrite Ht.
    apply Z.eqb_neq in Hl. rewrite Hl. cbn [negb orb]. cbv zeta.
    destruct (parse _); cbn [fst status Ordered.createQuery]; discriminate.
Qed.

Lemma handleSend_sends_trimmed_example :
  let st := {| messages := []; inputValue := js "  rainfall 2001  ";
               isTyping := false; hasStartedChat := false |} in
  exists m,
    snd (handleSend (js "k3j9x") 5 st) = Some m /\ m = trim (inputValue st) /\
    m <> [] /\ trimmed m /\
    messages (fst (handleSend (js "k3j9x") 5 st))
    = messages st ++ [{| message_id := js "k3j9x"; content := m;
                         sender := user; timestamp := 5 |}] /\
    inputValue (fst (handleSend (js "k3j9x") 5 st)) = [] /\
    isTyping (fst (handleSend (js "k3j9x") 5 st)) = true /\
    hasStartedChat (fst (handleSend (js "k3j9x") 5 st)) = true /\
    forall parse now date' l s, l <> 0%Z ->
      status (fst (post_queries parse now date' (Some m) (Some l) s)) <> 400%Z.
Proof.
  cbv zeta.
  apply (handleSend_sends_trimmed (js "k3j9x") 5
           {| messages := []; inputValue := js "  rainfall 2001  ";
              isTyping := false; hasStartedChat := false |}).
  intros H. vm_compute in H. discriminate.
Defined.

(** X22: entering a place by hand. Blank input sends nothing. Any other
    input is sent to the geocoder without the white space at its ends,
    the geocoder answers 200, and the location then posted has a
    non-empty name, both coordinates taken from one entry of the
    geocoder's table, and the type "manual". *)
Theorem manual_entry_posts_location (manualInput : jsstring) :
  (spaces manualInput -> handleManualSubmit manualInput = None) /\
  (~ spaces manualInput ->
   exists address ins lat lng,
     handleManualSubmit manualInput = Some address /\
     address = trim manualInput /\ trimmed address /\
     status (post_geocode (Some address)) = 200%Z /\
     manual_location (post_geocode (Some address)) = Some ins /\
     InsertLocation.name ins <> [] /\
     InsertLocation.latitude ins = Some lat /\
     InsertLocation.longitude ins = Some lng /\
     In (lat, lng) (map snd mockResults) /\
     InsertLocation.type ins = js "manual").
Proof.
  unfold handleManualSubmit. split.
  - intros H%trim_blank. now rewrite H.
  - intros H. assert (Hm : trim manualInput <> [])
      by (intros E; now apply trim_blank in E).
    rewrite (proj2 (truthy_nonempty _) Hm).
    set (a := trim manualInput) in *.
    assert (Ha : trimmed a) by apply trim_trimmed.
    assert (Hin : forall lat lng : jsstring,
              (lat, lng) = (js "37.7749", js "-122.4194") \/
              (lat, lng) = (js "40.7128", js "-74.0060") \/
              (lat, lng) = (js "51.5074", js "-0.1278") ->
              In (lat, lng) (map snd mockResults)).
    { intros lat lng H0. cbn [map snd mockResults In]. intuition congruence. }
    exists a. rewrite (post_geocode_table a Hm).
    destruct (includes (toLowerCase a) (js "san francisco"));
      [|destruct (includes (toLowerCase a) (js "new york"));
        [|destruct (includes (toLowerCase a) (js "london"))]];
      cbn [status json manual_location]; eexists _, _, _;
      (split; [reflexivity|]); (split; [reflexivity|]); (split; [exact Ha|]);
      (split; [reflexivity|]); (split; [reflexivity|]);
      cbn [InsertLocation.name InsertLocation.latitude InsertLocation.longitude
           InsertLocation.type];
      (split; [first [exact Hm | discriminate]|]);
      (split; [reflexivity|]); (split; [reflexivity|]);
      (split; [|reflexivity]); apply Hin; tauto.
Qed.

Lemma manual_entry_posts_location_example :
  exists address ins lat lng,
    handleManualSubmit (js " London, UK ") = Some address /\
    address = trim (js " London, UK ") /\ trimmed address /\
    status (post_geocode (Some address)) = 200%Z /\
    manual_location (post_geocode (Some address)) = Some ins /\
    InsertLocation.name ins <> [] /\
    InsertLocation.latitude ins = Some lat /\
    InsertLocation.longitude ins = Some lng /\
    In (lat, lng) (map snd mockResults) /\
    InsertLocation.type ins = js "manual".
Proof.
  apply (manual_entry_posts_location (js " London, UK ")).
  intros H. vm_compute in H. discriminate.
Defined.
